(** * A CI/CD deployment harness: its shell scripts as exit-code programs

    The repository ships three kinds of scripts:
    - [deploy.sh] (the Rollout Executor with its inline Health Verifier), in
      a plain variant and in a strict variant that first supersedes the
      containers bound to port 8080 or descending from the repository image,
      together with its two earlier versions ([Variants]): the first, with
      a fixed directory and service, and the one that runs
      [docker compose down] before the start;
    - [build-and-push.sh] (the Image Publisher).

    All of them run under [set -euo pipefail].  They are embedded here as
    programs of a small state-and-exit monad [Sh]:
    - the state is the host: a file system (a finite map from paths to
      contents), the working directory, the containers, and the trace of
      what the script printed and which external commands it invoked;
    - a simple command that fails outside a condition, [||] or [&&] list ends
      the script with that command's status ([errexit]); expanding an unset
      variable ends it with status 1 ([nounset]);
    - what an external service answers (docker, curl, git, the clock) is read
      from an environment record, so that every run is a function of the
      arguments, the environment and the initial host.

    Modelling boundary: [echo], [printf], [sleep], [date], [tr], [wc] and
    [awk] always succeed, and a file that exists can be read; every
    [docker], [curl] and [git] invocation takes its exit status from the
    environment, and so does [sed] when the replacement holds one of its
    metacharacters.

    The scripts are described twice.  In [Deploy], [Variants] and
    [Publisher] the host refuses nothing: [cat >], [cd], [rm -f] and
    [sed -i] succeed, and the workflow path is read as a path.  In [Local]
    the host is a parameter ([Local.Host]): it says which file it lets the
    script write, rewrite or remove, which directory it lets it enter, and
    what grep and sed make of a path that begins with a hyphen.  Where the
    host refuses nothing the two descriptions agree ([Willing]). *)

From Stdlib Require Import ZArith Lia List Ascii String Bool DecimalString.
From stdpp Require Import base option strings gmap list.

Open Scope string_scope.
Open Scope list_scope.
Open Scope nat_scope.

(** ** Text: the few string operations the scripts rely on *)
Module Text.

Definition nl : string := String "010"%char EmptyString.
Definition tab : string := String "009"%char EmptyString.
Definition dquote : string := String "034"%char EmptyString.

(** [[ -z "$s" ]] *)
Definition is_null (s : string) : bool :=
  match s with
  | EmptyString => true
  | String _ _ => false
  end.

(** Command substitution [$(...)] drops every trailing newline of the
    captured output. *)
Fixpoint strip_trailing_newlines (s : string) : string :=
  match s with
  | EmptyString => EmptyString
  | String c r =>
      let r' := strip_trailing_newlines r in
      if Ascii.eqb c "010"%char && is_null r' then EmptyString else String c r'
  end.

(** [grep -q needle]: the needle occurs somewhere in the text.  The needles
    used by the scripts hold no newline and no regular-expression operator,
    so matching line by line is matching in the whole text. *)
Fixpoint contains (needle hay : string) : bool :=
  String.prefix needle hay ||
  match hay with
  | EmptyString => false
  | String _ r => contains needle r
  end.

Fixpoint smap (f : ascii -> ascii) (s : string) : string :=
  match s with
  | EmptyString => EmptyString
  | String c r => String (f c) (smap f r)
  end.

Fixpoint sforall (p : ascii -> bool) (s : string) : bool :=
  match s with
  | EmptyString => true
  | String c r => p c && sforall p r
  end.

Fixpoint sfilter (p : ascii -> bool) (s : string) : string :=
  match s with
  | EmptyString => EmptyString
  | String c r => if p c then String c (sfilter p r) else sfilter p r
  end.

Definition is_newline (c : ascii) : bool := Ascii.eqb c "010"%char.

(** The default [IFS]: space, tab, newline. *)
Definition is_ifs (c : ascii) : bool :=
  Ascii.eqb c " "%char || Ascii.eqb c "009"%char || Ascii.eqb c "010"%char.

(** [[:space:]]: space, \t, \n, \v, \f, \r. *)
Definition is_space (c : ascii) : bool :=
  let n := nat_of_ascii c in
  (n =? 32)%nat || ((9 <=? n)%nat && (n <=? 13)%nat).

(** [[:upper:]], [[:lower:]], [[:digit:]] and [[:alnum:]] in the C locale. *)
Definition is_upper (c : ascii) : bool :=
  let n := nat_of_ascii c in (65 <=? n)%nat && (n <=? 90)%nat.
Definition is_lower (c : ascii) : bool :=
  let n := nat_of_ascii c in (97 <=? n)%nat && (n <=? 122)%nat.
Definition is_digit (c : ascii) : bool :=
  let n := nat_of_ascii c in (48 <=? n)%nat && (n <=? 57)%nat.
Definition is_alnum (c : ascii) : bool :=
  is_upper c || is_lower c || is_digit c.

(** The pieces of [s] between the characters selected by [p]; the head of
    the result is the piece being read. *)
Fixpoint split_on (p : ascii -> bool) (s : string) : list string :=
  match s with
  | EmptyString => [EmptyString]
  | String c r =>
      let parts := split_on p r in
      if p c then EmptyString :: parts
      else
        match parts with
        | w :: ws => String c w :: ws
        | [] => [String c EmptyString]
        end
  end.

Definition lines (s : string) : list string := split_on is_newline s.

(** Word splitting of an unquoted expansion. *)
Definition words (s : string) : list string :=
  List.filter (fun w => negb (is_null w)) (split_on is_ifs s).

(** [wc -l]: the number of newline characters. *)
Definition wc_l (s : string) : nat := String.length (sfilter is_newline s).

(** The lines of a stream as a filter such as [sed] reads them: a newline
    ends a line, and what follows the last newline is a line only when it
    is not empty. *)
Definition stream_lines (s : string) : list string :=
  let pieces := split_on is_newline s in
  if is_null (List.last pieces EmptyString) then removelast pieces
  else pieces.

Definition is_echo_flag (c : ascii) : bool :=
  Ascii.eqb c "n"%char || Ascii.eqb c "e"%char || Ascii.eqb c "E"%char.

(** bash's [echo] takes its first argument for options when it is a hyphen
    followed by one or more of the letters n, e and E, and by nothing
    else. *)
Definition echo_option (word : string) : bool :=
  match word with
  | String "-"%char (String c r) => sforall is_echo_flag (String c r)
  | _ => false
  end.

Definition has_flag_n (word : string) : bool :=
  negb (sforall (fun c => negb (Ascii.eqb c "n"%char)) word).

(** What [echo "$word"] writes: the word and a newline; of a word taken
    for options nothing, and no newline either under the option n. *)
Definition echo_output (word : string) : string :=
  if echo_option word then
    if has_flag_n word then EmptyString else nl
  else word +:+ nl.

(** The parts, with [sep] between them. *)
Definition join (sep : string) (parts : list string) : string :=
  String.concat sep parts.

End Text.

(** ** The shell monad *)
Module Shell.

(** External commands the scripts invoke. *)
Inductive Cmd : Type :=
| DockerPull (image : string)
| ComposeUp
| ComposeDown
| ComposeLogs (tail : nat)
| DockerPs
| DockerPsAll
| DockerPsAncestor (repo : string)
| DockerStop (container : string)
| DockerRm (container : string)
| ImagePrune
| Curl (url : string)
| Sleep (secs : nat)
| ComposeConfigServices
| ComposeBuild (override : string)
| DockerLogin (user : string)
| DockerPush (image : string)
| GitIsInsideWorkTree
| GitRevParseShort
| SedInPlace (bsd : bool) (script path : string).

(** What a run leaves behind for an observer:
    - [Run c]: the external command [c] was invoked;
    - [Out l] / [ErrOut l]: the script printed [l] on stdout / stderr;
    - [Diag c]: the failing command [c] printed its diagnostics on the
      script's stderr (absent when the call site redirects it to /dev/null). *)
Inductive Event : Type :=
| Run (c : Cmd)
| Out (line : string)
| ErrOut (line : string)
| Diag (c : Cmd).

#[global] Instance Cmd_eq_dec : EqDecision Cmd.
Proof. solve_decision. Defined.
#[global] Instance Event_eq_dec : EqDecision Event.
Proof. solve_decision. Defined.

Record Container : Type := {
  cname : string;             (* {{.Names}} *)
  cports : string;            (* {{.Ports}} *)
  cancestry : list string;    (* the images the container descends from *)
  crunning : bool
}.

#[global] Instance Container_eq_dec : EqDecision Container.
Proof. solve_decision. Defined.

Record State : Type := {
  fs : gmap string string;
  cwd : string;
  containers : list Container;
  trace : list Event
}.

Inductive Outcome (A : Type) : Type :=
| Next (a : A)          (* the command list goes on *)
| Exit (code : Z).      (* the script has terminated *)
Arguments Next {A} a.
Arguments Exit {A} code.

Definition Sh (A : Type) : Type := State -> Outcome A * State.

Definition ret {A} (a : A) : Sh A := fun s => (Next a, s).

Definition bind {A B} (m : Sh A) (k : A -> Sh B) : Sh B :=
  fun s =>
    match m s with
    | (Next a, s') => k a s'
    | (Exit c, s') => (Exit c, s')
    end.

#[global] Instance Sh_ret : MRet Sh := @ret.
#[global] Instance Sh_bind : MBind Sh := fun A B k m => bind m k.

(** [exit n] *)
Definition exit {A} (code : Z) : Sh A := fun s => (Exit code, s).

Definition get : Sh State := fun s => (Next s, s).

Definition emit (e : Event) : Sh unit :=
  fun s =>
    (Next tt,
     {| fs := fs s; cwd := cwd s; containers := containers s;
        trace := trace s ++ [e] |}).

Definition echo (line : string) : Sh unit := emit (Out line).

(** [cat > path <<EOF ... EOF]: the file is created or fully overwritten. *)
Definition write_file (path content : string) : Sh unit :=
  fun s =>
    (Next tt,
     {| fs := <[path := content]> (fs s); cwd := cwd s;
        containers := containers s; trace := trace s |}).

(** [cat >> path <<EOF ... EOF] *)
Definition append_file (path content : string) : Sh unit :=
  fun s =>
    (Next tt,
     {| fs := <[path := default "" (fs s !! path) +:+ content]> (fs s);
        cwd := cwd s; containers := containers s; trace := trace s |}).

(** [rm -f path] *)
Definition rm_f (path : string) : Sh unit :=
  fun s =>
    (Next tt,
     {| fs := delete path (fs s); cwd := cwd s;
        containers := containers s; trace := trace s |}).

(** [cd dir] *)
Definition cd (dir : string) : Sh unit :=
  fun s =>
    (Next tt,
     {| fs := fs s; cwd := dir; containers := containers s;
        trace := trace s |}).

Definition set_containers (cs : list Container) : Sh unit :=
  fun s =>
    (Next tt,
     {| fs := fs s; cwd := cwd s; containers := cs; trace := trace s |}).

(** An external command: it is recorded, and when it fails with its stderr
    connected ([loud]) its diagnostics reach the log.  The result is its
    exit status; nothing is decided here about what a failure means. *)
Definition external (loud : bool) (c : Cmd) (status : Z) : Sh Z :=
  emit (Run c);;
  (if loud && negb (status =? 0)%Z then emit (Diag c) else ret tt);;
  ret status.

(** A simple command in errexit position: a non-zero status ends the
    script with that status. *)
Definition errexit (m : Sh Z) : Sh unit :=
  status ← m;
  if (status =? 0)%Z then ret tt else exit status.

(** [cmd || true] *)
Definition or_true (m : Sh Z) : Sh unit := m;; ret tt.

(** Exit status of the whole script: the code of the [exit] that stopped
    it, or 0 when the last command (an [echo] or [printf] in every script
    here) has run. *)
Definition run (script : Sh unit) (s : State) : Z * State :=
  match script s with
  | (Next _, s') => (0%Z, s')
  | (Exit c, s') => (c, s')
  end.

(** The external commands of a trace, in order. *)
Fixpoint commands (t : list Event) : list Cmd :=
  match t with
  | [] => []
  | Run c :: t' => c :: commands t'
  | _ :: t' => commands t'
  end.

(** Positional parameter [${i:-default}] (0 for [$1]): the default replaces
    an unset and a null parameter alike. *)
Definition param_or (args : list string) (i : nat) (dflt : string) : string :=
  match args !! i with
  | Some a => if Text.is_null a then dflt else a
  | None => dflt
  end.

End Shell.

(** ** The Rollout Executor and its Health Verifier: [deploy.sh] *)
Module Deploy.
Import Shell.

Record Config : Type := {
  HEALTH_URL : string;
  HEALTH_RETRIES : nat;
  HEALTH_WAIT : nat
}.

(** The values hard-wired in scripts/deploy.sh. *)
Definition config : Config :=
  {| HEALTH_URL := "http://127.0.0.1:8000/health";
     HEALTH_RETRIES := 15;
     HEALTH_WAIT := 2 |}.

(** The values hard-wired in the strict variant. *)
Definition strict_config : Config :=
  {| HEALTH_URL := "http://3.109.59.94:8080/health";
     HEALTH_RETRIES := 15;
     HEALTH_WAIT := 2 |}.

(** What the outside world answers during one run. *)
Record Env : Type := {
  pull_status : string -> Z;
  (* docker compose up / down: the exit status, and the containers
     afterwards from the manifests, the working directory and the
     containers before *)
  up_status : Z;
  up_containers : gmap string string -> string -> list Container -> list Container;
  down_status : Z;
  down_containers : gmap string string -> string -> list Container -> list Container;
  (* exit status of the i-th curl invocation and what -w "%{http_code}" printed *)
  curl : nat -> Z * string;
  ps_status : Z;
  logs_status : Z;
  prune_status : Z;
  now : string;                       (* $(date) *)
  ps_all_status : Z;
  ps_ancestor_status : Z;
  stop_status : string -> Z;
  rm_status : string -> Z;
  HOME : option string;
  DOCKERHUB_REPO : option string
}.

Definition string_of_nat (n : nat) : string :=
  NilEmpty.string_of_uint (Nat.to_uint n).

Definition banner : string :=
  "━━━━━━━━━━━━━━━━━━━━━━━━━━━━━━━━━━━━━━━━━━━━━━━━━━━━".

Fixpoint curl_calls (t : list Event) : nat :=
  match t with
  | [] => 0
  | Run (Curl _) :: t' => S (curl_calls t')
  | _ :: t' => curl_calls t'
  end.

(** [$(curl -s -o /dev/null -w "%{http_code}" "$HEALTH_URL" || echo "000")]:
    what curl printed, followed by the output of [echo "000"] when curl
    failed, without the trailing newlines. *)
Definition status_code_of (reply : Z * string) : string :=
  Text.strip_trailing_newlines
    (if (fst reply =? 0)%Z then snd reply
     else snd reply +:+ "000" +:+ Text.nl).

Section Script.
Variable cfg : Config.
Variable E : Env.

Definition docker_pull (image : string) : Sh Z :=
  external true (DockerPull image) (pull_status E image).

Definition docker_compose_up : Sh Z :=
  s ← get;
  set_containers (up_containers E (fs s) (cwd s) (containers s));;
  external true ComposeUp (up_status E).

Definition docker_compose_down (loud : bool) : Sh Z :=
  s ← get;
  set_containers (down_containers E (fs s) (cwd s) (containers s));;
  external loud ComposeDown (down_status E).

(** One poll of the liveness endpoint; [-s] keeps curl silent. *)
Definition poll : Sh string :=
  s ← get;
  let reply := curl E (curl_calls (trace s)) in
  external false (Curl (HEALTH_URL cfg)) (fst reply);;
  ret (status_code_of reply).

(** [until [ $n -ge $HEALTH_RETRIES ]; do ... done].  Every pass that does
    not [break] increments [n], so the loop body runs at most
    [HEALTH_RETRIES - n] more times: the recursion is on that bound
    ([budget]), and the test is the one of the source.  The result is the
    value of [status_code] after the loop, [None] while it is unset. *)
Fixpoint health_loop (budget n : nat) (status_code : option string)
  : Sh (option string) :=
  match budget with
  | 0 => ret status_code
  | S budget' =>
      if (HEALTH_RETRIES cfg <=? n)%nat then ret status_code
      else
        status_code ← poll;
        if String.eqb status_code "200" then
          echo "✅ Health check passed!";;
          ret (Some status_code)
        else
          let n := S n in
          echo ("   Attempt " +:+ string_of_nat n +:+ "/"
                +:+ string_of_nat (HEALTH_RETRIES cfg)
                +:+ " (status: " +:+ status_code +:+ ") - retrying in "
                +:+ string_of_nat (HEALTH_WAIT cfg) +:+ "s...");;
          errexit (external true (Sleep (HEALTH_WAIT cfg)) 0);;
          health_loop budget' n (Some status_code)
  end.

(** [if [ "$status_code" != "200" ]; then ... exit 1; fi] *)
Definition verify (status_code : option string) : Sh unit :=
  match status_code with
  | None => emit (ErrOut "status_code: unbound variable");; exit 1
  | Some st =>
      if negb (String.eqb st "200") then
        echo ("❌ Health check failed after "
              +:+ string_of_nat (HEALTH_RETRIES cfg) +:+ " attempts");;
        echo "";;
        echo "Container status:";;
        errexit (external true DockerPs (ps_status E));;
        echo "";;
        echo "Recent logs:";;
        errexit (external true (ComposeLogs 200) (logs_status E));;
        exit 1
      else ret tt
  end.

Definition health_check : Sh unit :=
  echo "🏥 Running health checks...";;
  status_code ← health_loop (HEALTH_RETRIES cfg) 0 None;
  verify status_code.

Definition cleanup : Sh unit :=
  echo "🧹 Cleaning up unused images...";;
  errexit (external true ImagePrune (prune_status E));;
  echo banner;;
  echo ("✨ Deployment completed successfully at " +:+ now E);;
  echo banner.

Definition usage (argv0 example_dir : string) : Sh unit :=
  echo ("Usage: " +:+ argv0 +:+ " <image> [app_dir] [service_name]");;
  echo ("Example: " +:+ argv0 +:+ " username/app:abc1234 " +:+ example_dir +:+ " app");;
  exit 1.

Definition announce (IMAGE APP_DIR SERVICE_NAME : string) : Sh unit :=
  echo banner;;
  echo "🚀 Starting deployment";;
  echo banner;;
  echo ("Image:   " +:+ IMAGE);;
  echo ("App Dir: " +:+ APP_DIR);;
  echo ("Service: " +:+ SERVICE_NAME);;
  echo banner.

Definition override_path (APP_DIR : string) : string :=
  APP_DIR +:+ "/docker-compose.override.yml".

Definition pin_lines (SERVICE_NAME IMAGE : string) : string :=
  "services:" +:+ Text.nl
  +:+ "  " +:+ SERVICE_NAME +:+ ":" +:+ Text.nl
  +:+ "    image: " +:+ IMAGE +:+ Text.nl
  +:+ "    restart: unless-stopped" +:+ Text.nl.

(** The here-document of scripts/deploy.sh. *)
Definition override_manifest (SERVICE_NAME IMAGE : string) : string :=
  "version: " +:+ Text.dquote +:+ "3.8" +:+ Text.dquote +:+ Text.nl
  +:+ pin_lines SERVICE_NAME IMAGE.

(** scripts/deploy.sh, with [$0] and the positional parameters. *)
Definition deploy (argv0 : string) (args : list string) : Sh unit :=
  let IMAGE := param_or args 0 "" in
  let APP_DIR := param_or args 1 "/root/server" in
  let SERVICE_NAME := param_or args 2 "app" in
  if Text.is_null IMAGE then usage argv0 "/root/server"
  else
    announce IMAGE APP_DIR SERVICE_NAME;;
    echo "📦 Pulling image...";;
    errexit (docker_pull IMAGE);;
    echo "📝 Creating docker-compose override...";;
    write_file (override_path APP_DIR) (override_manifest SERVICE_NAME IMAGE);;
    echo "🔄 Deploying containers...";;
    cd APP_DIR;;
    errexit docker_compose_up;;
    health_check;;
    cleanup.


(** *** The strict variant: supersession before the start *)

(** [${2:-$HOME/server}]: [$HOME] is expanded only when the parameter is
    unset or null, and expanding it unset is a [nounset] error. *)
Definition app_dir_or_home (args : list string) : Sh string :=
  match args !! 1 with
  | Some a =>
      if Text.is_null a then
        match HOME E with
        | Some h => ret (h +:+ "/server")
        | None => emit (ErrOut "HOME: unbound variable");; exit 1
        end
      else ret a
  | None =>
      match HOME E with
      | Some h => ret (h +:+ "/server")
      | None => emit (ErrOut "HOME: unbound variable");; exit 1
      end
  end.

(** [${DOCKERHUB_REPO:-rajibsalui/my-express-server}] *)
Definition repo_coordinate : string :=
  match DOCKERHUB_REPO E with
  | Some r => if Text.is_null r then "rajibsalui/my-express-server" else r
  | None => "rajibsalui/my-express-server"
  end.

(** One line of [docker ps -a --format '{{.Names}}\t{{.Ports}}']. *)
Definition ps_line (c : Container) : string :=
  cname c +:+ Text.tab +:+ cports c.

Definition is_blank (c : ascii) : bool :=
  Ascii.eqb c " "%char || Ascii.eqb c "009"%char.

Fixpoint take_field (s : string) : string :=
  match s with
  | EmptyString => EmptyString
  | String c r => if is_blank c then EmptyString else String c (take_field r)
  end.

(** [awk '{print $1}']: the first blank-separated field of the line. *)
Fixpoint awk_first_field (line : string) : string :=
  match line with
  | EmptyString => EmptyString
  | String c r => if is_blank c then awk_first_field r else take_field line
  end.

Definition mark_stopped (name : string) (c : Container) : Container :=
  if String.eqb (cname c) name then
    {| cname := cname c; cports := cports c; cancestry := cancestry c;
       crunning := false |}
  else c.

(** [docker stop "$container" 2>/dev/null]: on success the container is
    stopped and docker prints its name; on failure nothing reaches the
    log, the diagnostics being sent to /dev/null. *)
Definition docker_stop (container : string) : Sh Z :=
  status ← external false (DockerStop container) (stop_status E container);
  (if (status =? 0)%Z then
     s ← get;
     set_containers (map (mark_stopped container) (containers s));;
     echo container
   else ret tt);;
  ret status.

(** [docker rm -f "$container" 2>/dev/null] *)
Definition docker_rm_f (container : string) : Sh Z :=
  status ← external false (DockerRm container) (rm_status E container);
  (if (status =? 0)%Z then
     s ← get;
     set_containers
       (List.filter (fun c => negb (String.eqb (cname c) container))
                    (containers s));;
     echo container
   else ret tt);;
  ret status.

(** The body of both [while read container] loops. *)
Definition stop_and_remove (container : string) : Sh unit :=
  if negb (Text.is_null container) then
    echo ("   Stopping and removing: " +:+ container);;
    or_true (docker_stop container);;
    or_true (docker_rm_f container)
  else ret tt.

Fixpoint while_read (lines : list string) : Sh unit :=
  match lines with
  | [] => ret tt
  | container :: rest => stop_and_remove container;; while_read rest
  end.

(** What [grep '8080' | awk '{print $1}'] keeps of the listing: the first
    field of the lines that hold the text 8080. *)
Definition names_on_8080 (cs : list Container) : list string :=
  map awk_first_field
      (List.filter (Text.contains "8080") (map ps_line cs)).

(** The names listed under the filter [ancestor=repo]. *)
Definition names_of_descendants (repo : string) (cs : list Container)
  : list string :=
  map cname
      (List.filter (fun c => existsb (String.eqb repo) (cancestry c)) cs).

(** [docker ps -a --format ... | grep '8080' | awk '{print $1}']; nothing
    is listed when docker fails. *)
Definition port_holders : Sh (list string) :=
  s ← get;
  status ← external true DockerPsAll (ps_all_status E);
  ret (if (status =? 0)%Z then names_on_8080 (containers s) else []).

(** [docker ps -a --filter "ancestor=..." --format '{{.Names}}'] *)
Definition image_descendants : Sh (list string) :=
  s ← get;
  status ← external true (DockerPsAncestor repo_coordinate)
                      (ps_ancestor_status E);
  ret (if (status =? 0)%Z
       then names_of_descendants repo_coordinate (containers s)
       else []).

(** Lines 138-159 of the strict variant.  Each pipeline ends in [|| true],
    so neither a failing [docker ps], nor a [grep] without a match, nor
    the loop body can end the script. *)
Definition supersede : Sh unit :=
  echo "   Removing all containers using port 8080...";;
  names ← port_holders;
  while_read names;;
  echo ("   Removing containers with image: " +:+ repo_coordinate +:+ "...");;
  names ← image_descendants;
  while_read names;;
  or_true (docker_compose_down false).

Definition deploy_strict (argv0 : string) (args : list string) : Sh unit :=
  let IMAGE := param_or args 0 "" in
  APP_DIR ← app_dir_or_home args;
  let SERVICE_NAME := param_or args 2 "app" in
  if Text.is_null IMAGE then usage argv0 "~/server"
  else
    announce IMAGE APP_DIR SERVICE_NAME;;
    echo "📦 Pulling image...";;
    errexit (docker_pull IMAGE);;
    echo "📝 Creating docker-compose override...";;
    write_file (override_path APP_DIR) (pin_lines SERVICE_NAME IMAGE);;
    echo "🛑 Stopping existing containers...";;
    cd APP_DIR;;
    supersede;;
    echo "🔄 Deploying containers...";;
    errexit docker_compose_up;;
    health_check;;
    cleanup.

End Script.
End Deploy.

(** ** The earlier versions of [deploy.sh] *)
Module Variants.
Import Shell Deploy.

Section Script.
Variable E : Env.

(** *** The first version: exactly one argument, fixed paths

    [HEALTH_URL], [HEALTH_RETRIES] and [HEALTH_WAIT] have the values of
    scripts/deploy.sh ([config]); the messages are its own. *)

Definition APP_DIR : string := "/root/server".
Definition SERVICE_NAME : string := "app".

Fixpoint health_loop_basic (budget n : nat) (status_code : option string)
  : Sh (option string) :=
  match budget with
  | 0 => ret status_code
  | S budget' =>
      if (HEALTH_RETRIES config <=? n)%nat then ret status_code
      else
        status_code ← poll config E;
        if String.eqb status_code "200" then
          echo "Health check passed";;
          ret (Some status_code)
        else
          let n := S n in
          echo ("Health check attempt " +:+ string_of_nat n +:+ "/"
                +:+ string_of_nat (HEALTH_RETRIES config)
                +:+ " — status: " +:+ status_code +:+ " — sleeping "
                +:+ string_of_nat (HEALTH_WAIT config) +:+ "s");;
          errexit (external true (Sleep (HEALTH_WAIT config)) 0);;
          health_loop_basic budget' n (Some status_code)
  end.

Definition verify_basic (status_code : option string) : Sh unit :=
  match status_code with
  | None => emit (ErrOut "status_code: unbound variable");; exit 1
  | Some st =>
      if negb (String.eqb st "200") then
        echo ("ERROR: Health check failed after "
              +:+ string_of_nat (HEALTH_RETRIES config)
              +:+ " attempts. See 'docker ps' and logs.");;
        errexit (external true DockerPs (ps_status E));;
        errexit (external true (ComposeLogs 200) (logs_status E));;
        exit 1
      else ret tt
  end.

(** [if [ $# -ne 1 ]; then ... exit 1; fi] and [IMAGE="$1"]: the argument
    is taken as it is, be it the empty string. *)
Definition deploy_basic (argv0 : string) (args : list string) : Sh unit :=
  match args with
  | [IMAGE] =>
      echo ("Starting deploy: pulling image " +:+ IMAGE);;
      errexit (docker_pull E IMAGE);;
      write_file (override_path APP_DIR) (override_manifest SERVICE_NAME IMAGE);;
      echo ("Using docker-compose in " +:+ APP_DIR
            +:+ " to (re)create containers");;
      cd APP_DIR;;
      errexit (docker_compose_up E);;
      echo ("Waiting for health check at " +:+ HEALTH_URL config);;
      status_code ← health_loop_basic (HEALTH_RETRIES config) 0 None;
      verify_basic status_code;;
      echo "Cleaning up unused images";;
      errexit (external true ImagePrune (prune_status E));;
      echo ("Deployment finished at " +:+ now E)
  | _ =>
      echo ("Usage: " +:+ argv0 +:+ " <image>");;
      exit 1
  end.

(** *** The second version: [docker compose down || true] before the start

    Its manifest, its defaults and its health URL are those of the strict
    variant; the diagnostics of a failing [down] are not discarded. *)
Definition deploy_down (argv0 : string) (args : list string) : Sh unit :=
  let IMAGE := param_or args 0 "" in
  APP_DIR ← app_dir_or_home E args;
  let SERVICE_NAME := param_or args 2 "app" in
  if Text.is_null IMAGE then usage argv0 "~/server"
  else
    announce IMAGE APP_DIR SERVICE_NAME;;
    echo "📦 Pulling image...";;
    errexit (docker_pull E IMAGE);;
    echo "📝 Creating docker-compose override...";;
    write_file (override_path APP_DIR) (pin_lines SERVICE_NAME IMAGE);;
    echo "🛑 Stopping existing containers...";;
    cd APP_DIR;;
    or_true (docker_compose_down E true);;
    echo "🔄 Deploying containers...";;
    errexit (docker_compose_up E);;
    health_check strict_config E;;
    cleanup E.

End Script.
End Variants.

(** ** The Image Publisher: [build-and-push.sh] *)
Module Publisher.
Import Shell.

Record Clock : Type := {
  year : nat; month : nat; day : nat;
  hour : nat; minute : nat; second : nat
}.

Record Env : Type := {
  DOCKERHUB_REPO : option string;
  DOCKERHUB_USERNAME : option string;
  DOCKERHUB_TOKEN : option string;
  GITHUB_SHA : option string;
  git_on_path : bool;                 (* command -v git *)
  inside_work_tree : Z;               (* git rev-parse --is-inside-work-tree *)
  rev_parse_short : Z * string;       (* git rev-parse --short HEAD *)
  clock : Clock;
  config_services : Z * string;       (* docker compose config --services *)
  build_status : Z;
  login_status : Z;
  push_status : string -> Z;
  gnu_sed : bool;                     (* sed --version *)
  (* a sed that is not GNU sed writes the newline that the last line of
     the file lacked *)
  sed_terminates_last_line : bool;
  (* what sed makes of a script whose replacement holds one of its own
     metacharacters: status and, on success, the new contents *)
  sed_special : string -> string -> Z * string
}.

(** [${VAR:-}] *)
Definition or_empty (v : option string) : string := default "" v.

(** [log() { printf "\n[INFO] %s\n" "$*"; }] *)
Definition log (msg : string) : Sh unit :=
  emit (Out "");; emit (Out ("[INFO] " +:+ msg)).

(** [err() { printf "\n[ERROR] %s\n" "$*" >&2; }] *)
Definition err (msg : string) : Sh unit :=
  emit (ErrOut "");; emit (ErrOut ("[ERROR] " +:+ msg)).

Definition digit (n : nat) : ascii := ascii_of_nat (48 + n mod 10).

Definition two_digits (n : nat) : string :=
  String (digit (n / 10)) (String (digit n) EmptyString).

(** [date +%Y%m%d%H%M%S], newline included. *)
Definition date_stamp (c : Clock) : string :=
  Deploy.string_of_nat (year c) +:+ two_digits (month c)
  +:+ two_digits (day c) +:+ two_digits (hour c)
  +:+ two_digits (minute c) +:+ two_digits (second c) +:+ Text.nl.

Definition OVERRIDE_FILE : string := ".docker-compose.image.override.yml".

Definition placeholder : string := "__IMAGE_TAG__".

(** [tr '[:upper:]' '[:lower:]'] *)
Definition to_lower (c : ascii) : ascii :=
  if Text.is_upper c then ascii_of_nat (nat_of_ascii c + 32) else c.

(** [tr -c '[:alnum:]-' '-']: every character outside the set, the
    newline that [echo] writes included, becomes a hyphen. *)
Definition outside_to_dash (c : ascii) : ascii :=
  if Text.is_alnum c || Ascii.eqb c "-"%char then c else "-"%char.

(** [$(echo "$s" | tr '[:upper:]' '[:lower:]' | tr -c '[:alnum:]-' '-')] *)
Definition S_SAFE (s : string) : string :=
  Text.strip_trailing_newlines
    (Text.smap outside_to_dash (Text.smap to_lower (Text.echo_output s))).

(** [$(echo "$SERVICES" | tr -d '[:space:]')] *)
Definition single_service_name (SERVICES : string) : string :=
  Text.strip_trailing_newlines
    (Text.sfilter (fun c => negb (Text.is_space c))
                  (Text.echo_output SERVICES)).

(** [$(echo "$SERVICES" | wc -l)] *)
Definition NUM_SERVICES (SERVICES : string) : nat :=
  Text.wc_l (Text.echo_output SERVICES).

Definition image_name (repo tag s : string) : string :=
  repo +:+ "-" +:+ S_SAFE s +:+ ":" +:+ tag.

(** The image references of a run, in the order they are pushed. *)
Definition image_names (repo tag SERVICES : string) : list string :=
  if (NUM_SERVICES SERVICES =? 1)%nat then [repo +:+ ":" +:+ tag]
  else map (image_name repo tag) (Text.words SERVICES).

Definition sed_metachar (c : ascii) : bool :=
  Ascii.eqb c "/"%char || Ascii.eqb c "&"%char || Ascii.eqb c "\"%char
  || Ascii.eqb c "010"%char.

(** The tag can stand in the replacement part of [s/.../.../g] as it is. *)
Definition sed_safe (tag : string) : bool :=
  Text.sforall (fun c => negb (sed_metachar c)) tag.

(** [s/tok/tag/g] for a literal [tok] and a literal [tag]: scanning from
    the left, each match is replaced and the scan resumes after it
    ([skip] counts the characters of the current match still to drop).
    Neither [tok] nor a safe tag holds a newline, so working on the whole
    text is working line by line. *)
Fixpoint replace_all_aux (tok tag : string) (skip : nat) (s : string) : string :=
  match s with
  | EmptyString => EmptyString
  | String c r =>
      match skip with
      | S k => replace_all_aux tok tag k r
      | 0 =>
          if String.prefix tok s
          then tag +:+ replace_all_aux tok tag (String.length tok - 1) r
          else String c (replace_all_aux tok tag 0 r)
      end
  end.

Definition replace_all (tok tag s : string) : string :=
  replace_all_aux tok tag 0 s.

Fixpoint ends_in_newline (s : string) : bool :=
  match s with
  | EmptyString => false
  | String c EmptyString => Text.is_newline c
  | String _ r => ends_in_newline r
  end.

(** A text whose last line has no newline gets one. *)
Definition terminate_last_line (s : string) : string :=
  if Text.is_null s || ends_in_newline s then s else s +:+ Text.nl.

Section Script.
Variable E : Env.

Definition usage_line (argv0 : string) : string :=
  "Usage: DOCKERHUB_REPO=your/repo DOCKERHUB_USERNAME=... DOCKERHUB_TOKEN=... "
  +:+ argv0 +:+ " [--workflow-file path]".

(** [while [[ $# -gt 0 ]]; do case $1 in ... esac; done]; the result is
    [WORKFLOW_FILE_ARG]. *)
Fixpoint parse_args (argv0 : string) (args : list string) (wf : string)
  : Sh string :=
  match args with
  | [] => ret wf
  | a :: rest =>
      if String.eqb a "--workflow-file" then
        match rest with
        | v :: rest' => parse_args argv0 rest' v
        | [] => emit (ErrOut "$2: unbound variable");; exit 1
        end
      else if String.eqb a "--help" || String.eqb a "-h" then
        echo (usage_line argv0);; exit 0
      else
        echo ("Unknown arg: " +:+ a);; exit 1
  end.

Definition validate_env : Sh unit :=
  (if Text.is_null (or_empty (DOCKERHUB_REPO E)) then
     echo "ERROR: set DOCKERHUB_REPO (example: myuser/myapp)";; exit 1
   else ret tt);;
  (if Text.is_null (or_empty (DOCKERHUB_USERNAME E))
      || Text.is_null (or_empty (DOCKERHUB_TOKEN E)) then
     echo "ERROR: set DOCKERHUB_USERNAME and DOCKERHUB_TOKEN (Docker Hub credentials)";;
     exit 1
   else ret tt).

(** Lines 470-478: the tag comes from exactly one of three sources. *)
Definition resolve_tag : Sh string :=
  if negb (Text.is_null (or_empty (GITHUB_SHA E))) then
    ret (String.substring 0 7 (or_empty (GITHUB_SHA E)))
  else
    inside ← (if git_on_path E then
                status ← external false GitIsInsideWorkTree
                           (inside_work_tree E);
                ret (status =? 0)%Z
              else ret false);
    if (inside : bool) then
      status ← external true GitRevParseShort (fst (rev_parse_short E));
      if (status =? 0)%Z
      then ret (Text.strip_trailing_newlines (snd (rev_parse_short E)))
      else exit status
    else ret (Text.strip_trailing_newlines (date_stamp (clock E))).

Definition list_services : Sh string :=
  status ← external true ComposeConfigServices (fst (config_services E));
  if (status =? 0)%Z
  then ret (Text.strip_trailing_newlines (snd (config_services E)))
  else exit status.

Definition override_header : string :=
  "version: " +:+ Text.dquote +:+ "3.8" +:+ Text.dquote +:+ Text.nl
  +:+ "services:" +:+ Text.nl.

Definition override_entry (service image : string) : string :=
  "  " +:+ service +:+ ":" +:+ Text.nl
  +:+ "    image: " +:+ image +:+ Text.nl.

Fixpoint tag_services (repo TAG : string) (ss : list string) : Sh unit :=
  match ss with
  | [] => ret tt
  | s :: rest =>
      let IMAGE_NAME := image_name repo TAG s in
      append_file OVERRIDE_FILE (override_entry s IMAGE_NAME);;
      log ("Will tag " +:+ s +:+ " -> " +:+ IMAGE_NAME);;
      tag_services repo TAG rest
  end.

Fixpoint echo_all (ls : list string) : Sh unit :=
  match ls with
  | [] => ret tt
  | l :: rest => echo l;; echo_all rest
  end.

(** Lines 483-523: enumerate the services, write the tagging override.
    The listing is printed by [echo "$SERVICES" | sed 's/^/ - /']. *)
Definition write_override (repo TAG : string) : Sh string :=
  log "Listing services from docker-compose...";;
  SERVICES ← list_services;
  (if Text.is_null SERVICES then
     err "No services found in docker-compose config. Exiting.";; exit 1
   else ret tt);;
  log ("Detected services: " +:+ Deploy.string_of_nat (NUM_SERVICES SERVICES));;
  echo_all (map (fun l => " - " +:+ l)
                (Text.stream_lines (Text.echo_output SERVICES)));;
  log ("Creating override file: " +:+ OVERRIDE_FILE);;
  write_file OVERRIDE_FILE override_header;;
  (if (NUM_SERVICES SERVICES =? 1)%nat then
     let SERVICE_NAME := single_service_name SERVICES in
     let IMAGE_NAME := repo +:+ ":" +:+ TAG in
     append_file OVERRIDE_FILE (override_entry SERVICE_NAME IMAGE_NAME);;
     log ("Single service detected. Will tag " +:+ SERVICE_NAME +:+ " -> "
          +:+ IMAGE_NAME)
   else tag_services repo TAG (Text.words SERVICES));;
  ret SERVICES.

Definition docker_build : Sh unit :=
  log ("Running: docker compose -f docker-compose.yml -f " +:+ OVERRIDE_FILE
       +:+ " build --pull --no-cache");;
  errexit (external true (ComposeBuild OVERRIDE_FILE) (build_status E)).

Definition docker_login : Sh unit :=
  log "Logging in to Docker Hub";;
  errexit (external true (DockerLogin (or_empty (DOCKERHUB_USERNAME E)))
                    (login_status E)).

(** Both arms of the push stage: every reference is pushed in turn, and
    the first failing push ends the script. *)
Fixpoint push_all (images : list string) : Sh unit :=
  match images with
  | [] => ret tt
  | pushed :: rest =>
      log ("Pushing " +:+ pushed);;
      errexit (external true (DockerPush pushed) (push_status E pushed));;
      push_all rest
  end.

Definition push_stage (repo TAG SERVICES : string) : Sh unit :=
  log "Pushing images to Docker Hub...";;
  push_all (image_names repo TAG SERVICES);;
  log "Pushed images:";;
  echo_all (image_names repo TAG SERVICES).

Definition sed_script (TAG : string) : string :=
  "s/" +:+ placeholder +:+ "/" +:+ TAG +:+ "/g".

(** What sed writes back for the edited text: GNU sed writes it as it is,
    another sed may terminate its last line. *)
Definition sed_output (bsd : bool) (text : string) : string :=
  if bsd && sed_terminates_last_line E then terminate_last_line text
  else text.

(** [sed -i "s/__IMAGE_TAG__/${TAG}/g" "${WF}"] (or [sed -i ''] where sed
    is not GNU sed): on success the file holds the edited text. *)
Definition sed_in_place (bsd : bool) (TAG WF : string) : Sh Z :=
  s ← get;
  match fs s !! WF with
  | Some content =>
      let r := if sed_safe TAG
               then (0%Z, sed_output bsd (replace_all placeholder TAG content))
               else sed_special E TAG content in
      (if (fst r =? 0)%Z then write_file WF (snd r) else ret tt);;
      external true (SedInPlace bsd (sed_script TAG) WF) (fst r)
  | None => external true (SedInPlace bsd (sed_script TAG) WF) 2
  end.

Definition placeholder_example : list string :=
  ["env:"; "  IMAGE_TAG: __IMAGE_TAG__"; ""; "or"; ""; "tags: |";
   "  youruser/yourrepo:__IMAGE_TAG__"].

(** Lines 558-590. *)
Definition update_workflow (WORKFLOW_FILE_ARG TAG : string) : Sh unit :=
  if negb (Text.is_null WORKFLOW_FILE_ARG) then
    let WF := WORKFLOW_FILE_ARG in
    s ← get;
    match fs s !! WF with
    | None =>
        err ("Workflow file " +:+ WF +:+ " not found. Skipping workflow update.")
    | Some content =>
        if Text.contains placeholder content then
          log ("Updating workflow file " +:+ WF +:+ ": replacing __IMAGE_TAG__ -> "
               +:+ TAG);;
          (if gnu_sed E then errexit (sed_in_place false TAG WF)
           else errexit (sed_in_place true TAG WF));;
          log "Workflow file updated."
        else
          log ("No __IMAGE_TAG__ placeholder found in " +:+ WF
               +:+ ". Nothing changed. To enable automatic update,");;
          log "add the literal token __IMAGE_TAG__ at the correct place in the workflow file.";;
          log "Example usage in workflow YAML (deploy step env or tag field):";;
          echo_all placeholder_example
    end
  else log "No workflow file provided. Skipping workflow update step.".

(** Lines 592-596. *)
Definition cleanup (TAG : string) : Sh unit :=
  log ("Cleaning up temporary override file " +:+ OVERRIDE_FILE);;
  rm_f OVERRIDE_FILE;;
  log ("Done. Built and pushed images with tag " +:+ TAG +:+ ".").

(** Lines 444-552: everything up to the pushed images; the result is the
    workflow file argument and the tag. *)
Definition publish (argv0 : string) (args : list string) : Sh (string * string) :=
  WORKFLOW_FILE_ARG ← parse_args argv0 args "";
  validate_env;;
  TAG ← resolve_tag;
  let repo := or_empty (DOCKERHUB_REPO E) in
  log ("Using Docker Hub repo: " +:+ repo);;
  log ("Computed tag: " +:+ TAG);;
  SERVICES ← write_override repo TAG;
  docker_build;;
  docker_login;;
  push_stage repo TAG SERVICES;;
  ret (WORKFLOW_FILE_ARG, TAG).

(** build-and-push.sh *)
Definition build_and_push (argv0 : string) (args : list string) : Sh unit :=
  r ← publish argv0 args;
  update_workflow (fst r) (snd r);;
  cleanup (snd r).

End Script.
End Publisher.

(** ** The scripts on a host that can refuse

    [cat > file], [cd dir], [rm -f file] and [sed -i] are commands like
    the others: under [set -e] the script ends when the shell cannot open
    the file or enter the directory, or when the file cannot be removed or
    rewritten.  And [grep] and [sed] are handed the workflow path as it
    is, without [--]: a path that begins with a hyphen is read as options.
    [Deploy], [Variants] and [Publisher] describe the runs on a host that
    refuses nothing and for paths that are read as paths; here the host
    is a parameter, and every script is written out again with the steps
    that the host can refuse. *)
Module Local.
Import Shell.

Record Host : Type := {
  (* what the shell reports when it cannot open the file for writing
     ([> file], [>> file]); [None] when it can *)
  open_error : string -> option string;
  (* what [cd dir] reports when it fails *)
  cd_error : string -> option string;
  (* what [rm -f file] reports when it fails *)
  rm_error : string -> option string;
  (* [sed -i] on the file: 0 when sed can rewrite it, else the status
     with which it gives up *)
  rewrite_status : string -> Z;
  (* [grep -q __IMAGE_TAG__ word] for a word that begins with a hyphen:
     the exit status *)
  grep_options : string -> Z;
  (* [sed -i script word] for such a word, from the flavour of sed, the
     tag, the word and the files: the exit status and the files written *)
  sed_options : bool -> string -> string -> gmap string string
                -> Z * gmap string string
}.

Definition put_files (files : gmap string string) : Sh unit :=
  fun s =>
    (Next tt,
     {| fs := files; cwd := cwd s; containers := containers s;
        trace := trace s |}).

(** A command of the shell itself that fails in errexit position: its
    message goes to stderr and the script ends with status 1. *)
Definition refused {A} (msg : string) : Sh A :=
  emit (ErrOut msg);; exit 1.

(** [cat > path <<EOF ... EOF] *)
Definition write_to (H : Host) (path content : string) : Sh unit :=
  match open_error H path with
  | None => write_file path content
  | Some msg => refused msg
  end.

(** [cat >> path <<EOF ... EOF] *)
Definition append_to (H : Host) (path content : string) : Sh unit :=
  match open_error H path with
  | None => append_file path content
  | Some msg => refused msg
  end.

(** [cd dir] *)
Definition enter (H : Host) (dir : string) : Sh unit :=
  match cd_error H dir with
  | None => cd dir
  | Some msg => refused msg
  end.

(** [rm -f path] *)
Definition remove (H : Host) (path : string) : Sh unit :=
  match rm_error H path with
  | None => rm_f path
  | Some msg => refused msg
  end.

(** The word is read as options by a command that is given it as an
    operand. *)
Definition leading_hyphen (word : string) : bool :=
  match word with
  | String "-"%char _ => true
  | _ => false
  end.

Section Rollout.
Variable H : Host.
Variable cfg : Deploy.Config.
Variable E : Deploy.Env.

(** scripts/deploy.sh *)
Definition deploy (argv0 : string) (args : list string) : Sh unit :=
  let IMAGE := param_or args 0 "" in
  let APP_DIR := param_or args 1 "/root/server" in
  let SERVICE_NAME := param_or args 2 "app" in
  if Text.is_null IMAGE then Deploy.usage argv0 "/root/server"
  else
    Deploy.announce IMAGE APP_DIR SERVICE_NAME;;
    echo "📦 Pulling image...";;
    errexit (Deploy.docker_pull E IMAGE);;
    echo "📝 Creating docker-compose override...";;
    write_to H (Deploy.override_path APP_DIR)
             (Deploy.override_manifest SERVICE_NAME IMAGE);;
    echo "🔄 Deploying containers...";;
    enter H APP_DIR;;
    errexit (Deploy.docker_compose_up E);;
    Deploy.health_check cfg E;;
    Deploy.cleanup E.

(** The strict variant. *)
Definition deploy_strict (argv0 : string) (args : list string) : Sh unit :=
  let IMAGE := param_or args 0 "" in
  APP_DIR ← Deploy.app_dir_or_home E args;
  let SERVICE_NAME := param_or args 2 "app" in
  if Text.is_null IMAGE then Deploy.usage argv0 "~/server"
  else
    Deploy.announce IMAGE APP_DIR SERVICE_NAME;;
    echo "📦 Pulling image...";;
    errexit (Deploy.docker_pull E IMAGE);;
    echo "📝 Creating docker-compose override...";;
    write_to H (Deploy.override_path APP_DIR)
             (Deploy.pin_lines SERVICE_NAME IMAGE);;
    echo "🛑 Stopping existing containers...";;
    enter H APP_DIR;;
    Deploy.supersede E;;
    echo "🔄 Deploying containers...";;
    errexit (Deploy.docker_compose_up E);;
    Deploy.health_check cfg E;;
    Deploy.cleanup E.

(** The second version: [docker compose down || true] before the start. *)
Definition deploy_down (argv0 : string) (args : list string) : Sh unit :=
  let IMAGE := param_or args 0 "" in
  APP_DIR ← Deploy.app_dir_or_home E args;
  let SERVICE_NAME := param_or args 2 "app" in
  if Text.is_null IMAGE then Deploy.usage argv0 "~/server"
  else
    Deploy.announce IMAGE APP_DIR SERVICE_NAME;;
    echo "📦 Pulling image...";;
    errexit (Deploy.docker_pull E IMAGE);;
    echo "📝 Creating docker-compose override...";;
    write_to H (Deploy.override_path APP_DIR)
             (Deploy.pin_lines SERVICE_NAME IMAGE);;
    echo "🛑 Stopping existing containers...";;
    enter H APP_DIR;;
    or_true (Deploy.docker_compose_down E true);;
    echo "🔄 Deploying containers...";;
    errexit (Deploy.docker_compose_up E);;
    Deploy.health_check Deploy.strict_config E;;
    Deploy.cleanup E.

End Rollout.

Section Publisher.
Import Publisher.
Variable H : Host.
Variable E : Publisher.Env.

Fixpoint tag_services (repo TAG : string) (ss : list string) : Sh unit :=
  match ss with
  | [] => ret tt
  | s :: rest =>
      let IMAGE_NAME := image_name repo TAG s in
      append_to H OVERRIDE_FILE (override_entry s IMAGE_NAME);;
      log ("Will tag " +:+ s +:+ " -> " +:+ IMAGE_NAME);;
      tag_services repo TAG rest
  end.

(** Lines 483-523. *)
Definition write_override (repo TAG : string) : Sh string :=
  log "Listing services from docker-compose...";;
  SERVICES ← list_services E;
  (if Text.is_null SERVICES then
     err "No services found in docker-compose config. Exiting.";; exit 1
   else ret tt);;
  log ("Detected services: " +:+ Deploy.string_of_nat (NUM_SERVICES SERVICES));;
  echo_all (map (fun l => " - " +:+ l)
                (Text.stream_lines (Text.echo_output SERVICES)));;
  log ("Creating override file: " +:+ OVERRIDE_FILE);;
  write_to H OVERRIDE_FILE override_header;;
  (if (NUM_SERVICES SERVICES =? 1)%nat then
     let SERVICE_NAME := single_service_name SERVICES in
     let IMAGE_NAME := repo +:+ ":" +:+ TAG in
     append_to H OVERRIDE_FILE (override_entry SERVICE_NAME IMAGE_NAME);;
     log ("Single service detected. Will tag " +:+ SERVICE_NAME +:+ " -> "
          +:+ IMAGE_NAME)
   else tag_services repo TAG (Text.words SERVICES));;
  ret SERVICES.

(** Lines 444-552. *)
Definition publish (argv0 : string) (args : list string) : Sh (string * string) :=
  WORKFLOW_FILE_ARG ← parse_args argv0 args "";
  validate_env E;;
  TAG ← resolve_tag E;
  let repo := or_empty (DOCKERHUB_REPO E) in
  log ("Using Docker Hub repo: " +:+ repo);;
  log ("Computed tag: " +:+ TAG);;
  SERVICES ← write_override repo TAG;
  docker_build E;;
  docker_login E;;
  push_stage E repo TAG SERVICES;;
  ret (WORKFLOW_FILE_ARG, TAG).

(** [grep -q "__IMAGE_TAG__" "${WF}"] on a file that holds [content]. *)
Definition grep_finds (WF content : string) : bool :=
  if leading_hyphen WF then (grep_options H WF =? 0)%Z
  else Text.contains placeholder content.

(** [sed -i "s/__IMAGE_TAG__/${TAG}/g" "${WF}"] (or [sed -i '']).  A word
    read as options: what sed does is the host's to say, and it writes
    files but removes none.  A path: sed edits the file when the host
    lets it rewrite it. *)
Definition sed_in_place (bsd : bool) (TAG WF : string) : Sh Z :=
  if leading_hyphen WF then
    s ← get;
    let r := sed_options H bsd TAG WF (fs s) in
    put_files (snd r ∪ fs s);;
    external true (SedInPlace bsd (sed_script TAG) WF) (fst r)
  else if (rewrite_status H WF =? 0)%Z then
    Publisher.sed_in_place E bsd TAG WF
  else external true (SedInPlace bsd (sed_script TAG) WF) (rewrite_status H WF).

(** Lines 558-590. *)
Definition update_workflow (WORKFLOW_FILE_ARG TAG : string) : Sh unit :=
  if negb (Text.is_null WORKFLOW_FILE_ARG) then
    let WF := WORKFLOW_FILE_ARG in
    s ← get;
    match fs s !! WF with
    | None =>
        err ("Workflow file " +:+ WF +:+ " not found. Skipping workflow update.")
    | Some content =>
        if grep_finds WF content then
          log ("Updating workflow file " +:+ WF +:+ ": replacing __IMAGE_TAG__ -> "
               +:+ TAG);;
          (if gnu_sed E then errexit (sed_in_place false TAG WF)
           else errexit (sed_in_place true TAG WF));;
          log "Workflow file updated."
        else
          log ("No __IMAGE_TAG__ placeholder found in " +:+ WF
               +:+ ". Nothing changed. To enable automatic update,");;
          log "add the literal token __IMAGE_TAG__ at the correct place in the workflow file.";;
          log "Example usage in workflow YAML (deploy step env or tag field):";;
          echo_all placeholder_example
    end
  else log "No workflow file provided. Skipping workflow update step.".

(** Lines 592-596. *)
Definition cleanup (TAG : string) : Sh unit :=
  log ("Cleaning up temporary override file " +:+ OVERRIDE_FILE);;
  remove H OVERRIDE_FILE;;
  log ("Done. Built and pushed images with tag " +:+ TAG +:+ ".").

(** build-and-push.sh *)
Definition build_and_push (argv0 : string) (args : list string) : Sh unit :=
  r ← publish argv0 args;
  update_workflow (fst r) (snd r);;
  cleanup (snd r).

End Publisher.
End Local.

(** ** Vocabulary of the statements *)
Module Spec.
Import Shell.

(** The commands issued by [k] polls that did not see a 200: a GET and the
    wait that follows it, [k] times. *)
Fixpoint polls (cfg : Deploy.Config) (k : nat) : list Cmd :=
  match k with
  | 0 => []
  | S k' =>
      Curl (Deploy.HEALTH_URL cfg) :: Sleep (Deploy.HEALTH_WAIT cfg)
      :: polls cfg k'
  end.

(** The host is the same in both states; only the trace may differ. *)
Definition same_host (s s' : State) : Prop :=
  fs s' = fs s /\ cwd s' = cwd s /\ containers s' = containers s.

(** What one poll got back: a 200, or anything else (a transport failure
    of curl, or another status). *)
Definition healthy_reply (r : Z * string) : Prop :=
  fst r = 0%Z /\ Text.strip_trailing_newlines (snd r) = "200".

Definition unhealthy_reply (r : Z * string) : Prop :=
  fst r <> 0%Z \/ Text.strip_trailing_newlines (snd r) <> "200".

(** A step of the publisher: when it ends the script the status is not
    0, and whatever it does it writes no file but the tagging override. *)
Definition orderly {A} (m : Sh A) : Prop :=
  forall s,
    (forall c, fst (m s) = Exit c -> c <> 0%Z)
    /\ (forall q, q <> Publisher.OVERRIDE_FILE ->
                  fs (snd (m s)) !! q = fs s !! q).

(** What a reader of the terminal sees: everything but the bare fact that
    a command was invoked. *)
Definition visible (e : Event) : bool :=
  match e with
  | Run _ => false
  | _ => true
  end.

(** A program only ever appends to the trace. *)
Definition extends_trace {A} (m : Sh A) : Prop :=
  forall s, exists t, trace (snd (m s)) = trace s ++ t.

(** The event reports that a container could not be stopped or removed. *)
Definition reports_removal_failure (e : Event) : bool :=
  match e with
  | Diag (DockerStop _) | Diag (DockerRm _) => true
  | _ => false
  end.

(** The removal attempts for the names read by a [while read] loop. *)
Definition removal_attempts (names : list string) : list Cmd :=
  flat_map (fun c => if Text.is_null c then []
                     else [DockerStop c; DockerRm c]) names.

(** "A failure to stop or remove a container is logged": each failed stop
    and each failed removal that was attempted left its diagnostics. *)
Definition failures_logged (E : Deploy.Env) (t : list Event) : Prop :=
  forall c,
    (In (Run (DockerStop c)) t -> Deploy.stop_status E c <> 0%Z ->
     In (Diag (DockerStop c)) t)
    /\ (In (Run (DockerRm c)) t -> Deploy.rm_status E c <> 0%Z ->
        In (Diag (DockerRm c)) t).

(** The sanitization in the words of the specification: lowercase, and
    every run of non-alphanumeric characters becomes a single hyphen
    ([in_run]: the previous character was part of such a run). *)
Fixpoint collapse_runs (in_run : bool) (s : string) : string :=
  match s with
  | EmptyString => EmptyString
  | String c r =>
      if Text.is_alnum c then String (Publisher.to_lower c) (collapse_runs false r)
      else if in_run then collapse_runs true r
      else String "-"%char (collapse_runs true r)
  end.

Definition spec_sanitize (s : string) : string := collapse_runs false s.

Definition spec_image_name (repo tag s : string) : string :=
  repo +:+ "-" +:+ spec_sanitize s +:+ ":" +:+ tag.

(** [a-z0-9-] *)
Definition lower_digit_dash (c : ascii) : bool :=
  Text.is_lower c || Text.is_digit c || Ascii.eqb c "-"%char.

(** The one-for-one substitution of the two [tr] filters. *)
Definition tr_filters (s : string) : string :=
  Text.smap Publisher.outside_to_dash (Text.smap Publisher.to_lower s).

(** A service name as docker compose prints it: not empty, one word. *)
Definition service_name (n : string) : bool :=
  negb (Text.is_null n) && Text.sforall (fun c => negb (Text.is_ifs c)) n.

(** The output of [docker compose config --services]: one name per line. *)
Fixpoint services_listing (names : list string) : string :=
  match names with
  | [] => EmptyString
  | n :: rest => n +:+ Text.nl +:+ services_listing rest
  end.

(** An occurrence of [tok] in [seg +:+ follow] starts inside [seg]. *)
Fixpoint starts_inside (tok seg follow : string) : bool :=
  match seg with
  | EmptyString => false
  | String _ r =>
      String.prefix tok (seg +:+ follow) || starts_inside tok r follow
  end.

(** [segs] are the stretches of a text between the occurrences of [tok]
    that a scan from the left finds: no occurrence starts inside a
    stretch, be it followed by [tok] or, for the last one, by nothing. *)
Fixpoint separated (tok : string) (segs : list string) : bool :=
  match segs with
  | [] => true
  | [seg] => negb (starts_inside tok seg EmptyString)
  | seg :: rest => negb (starts_inside tok seg tok) && separated tok rest
  end.

(** git is on the path and the working directory is inside a work tree. *)
Definition git_usable (E : Publisher.Env) : bool :=
  Publisher.git_on_path E && (Publisher.inside_work_tree E =? 0)%Z.

(** A commit id can be resolved locally: git is usable and
    [git rev-parse --short HEAD] succeeds. *)
Definition commit_available (E : Publisher.Env) : bool :=
  git_usable E && (fst (Publisher.rev_parse_short E) =? 0)%Z.

(** The tag in the words of the specification: the externally supplied
    commit id, cut to 7 characters, when there is one; otherwise the
    locally resolved short commit id when one is available; otherwise the
    timestamp. *)
Definition preferred_tag (E : Publisher.Env) : string :=
  if negb (Text.is_null (Publisher.or_empty (Publisher.GITHUB_SHA E)))
  then String.substring 0 7 (Publisher.or_empty (Publisher.GITHUB_SHA E))
  else if commit_available E
       then Text.strip_trailing_newlines (snd (Publisher.rev_parse_short E))
       else Text.strip_trailing_newlines
              (Publisher.date_stamp (Publisher.clock E)).

(** No commit id is supplied, git is usable, and it has no commit to
    show: [git rev-parse --short HEAD] fails. *)
Definition git_declines (E : Publisher.Env) : bool :=
  Text.is_null (Publisher.or_empty (Publisher.GITHUB_SHA E))
  && git_usable E
  && negb (fst (Publisher.rev_parse_short E) =? 0)%Z.

(** *** Frames: what a program leaves as it is *)

(** Every run of [m] takes a state to one that [R] relates to it. *)
Definition preserves (R : relation State) {A} (m : Sh A) : Prop :=
  forall s, R s (snd (m s)).

(** [R] holds, unless the condition [C] is met. *)
Definition unless (C : Prop) (R : relation State) : relation State :=
  fun s s' => C \/ R s s'.

(** *** The Rollout Executor *)

(** The seconds spent in [sleep] by a list of commands. *)
Fixpoint waited (cs : list Cmd) : nat :=
  match cs with
  | [] => 0
  | Sleep secs :: rest => secs + waited rest
  | _ :: rest => waited rest
  end.

(** The files of the target host once scripts/deploy.sh, called with
    [args], has written its override. *)
Definition pinned (args : list string) (files : gmap string string)
  : gmap string string :=
  <[Deploy.override_path (param_or args 1 "/root/server") :=
      Deploy.override_manifest (param_or args 2 "app") (param_or args 0 "")]>
    files.

(** The two states agree on everything but what was printed: same files,
    same working directory, same containers, same external commands. *)
Definition same_effects (s1 s2 : State) : Prop :=
  fs s1 = fs s2 /\ cwd s1 = cwd s2 /\ containers s1 = containers s2
  /\ commands (trace s1) = commands (trace s2).

(** Two programs that differ at most in what they print: from states with
    the same effects they end the same way, with the same effects. *)
Definition same_run {A} (m1 m2 : Sh A) : Prop :=
  forall s1 s2, same_effects s1 s2 ->
    fst (m1 s1) = fst (m2 s2) /\ same_effects (snd (m1 s1)) (snd (m2 s2)).

(** A step that only prints: it always hands over, and changes nothing
    but what is on the terminal. *)
Definition only_prints (p : Sh unit) : Prop :=
  forall s, fst (p s) = Next tt /\ same_effects s (snd (p s)).

(** *** The supersession *)

(** A container name as docker lists it: not empty, without blanks. *)
Definition listed_name (n : string) : bool :=
  negb (Text.is_null n) && Text.sforall (fun c => negb (Deploy.is_blank c)) n.

(** The text 8080 stands in the name of the container or in its ports. *)
Definition holds_8080 (c : Container) : bool :=
  Text.contains "8080" (cname c) || Text.contains "8080" (cports c).

(** The container descends from the image [repo]. *)
Definition descends_from (repo : string) (c : Container) : bool :=
  existsb (String.eqb repo) (cancestry c).

(** One of the names read by a [while read] loop is the container's. *)
Definition named_in (names : list string) (c : Container) : bool :=
  existsb (fun n => negb (Text.is_null n) && String.eqb (cname c) n) names.

(** What the supersession leaves of the containers [cs] when every
    removal it tries succeeds. *)
Definition survivors (repo : string) (cs : list Container) : list Container :=
  List.filter (fun c => negb (holds_8080 c) && negb (descends_from repo c)) cs.

(** *** The Image Publisher *)

(** The arguments that name the workflow files [paths], one option each. *)
Definition workflow_options (paths : list string) : list string :=
  flat_map (fun p => ["--workflow-file"; p]) paths.

Definition is_push (e : Event) : bool :=
  match e with
  | Run (DockerPush _) => true
  | _ => false
  end.

(** Between the two states no image was pushed, and no file other than
    the tagging override was written or removed. *)
Definition nothing_published (s s' : State) : Prop :=
  (exists t, trace s' = trace s ++ t
             /\ forallb (fun e => negb (is_push e)) t = true)
  /\ forall q, q <> Publisher.OVERRIDE_FILE -> fs s' !! q = fs s !! q.

(** The coordinate and the credentials are there, the images are built,
    and docker is logged in to the registry. *)
Definition ready_to_push (E : Publisher.Env) : Prop :=
  Text.is_null (Publisher.or_empty (Publisher.DOCKERHUB_REPO E)) = false
  /\ Text.is_null (Publisher.or_empty (Publisher.DOCKERHUB_USERNAME E)) = false
  /\ Text.is_null (Publisher.or_empty (Publisher.DOCKERHUB_TOKEN E)) = false
  /\ Publisher.build_status E = 0%Z
  /\ Publisher.login_status E = 0%Z.

(** Started on the files [files], the program hands over with the
    result [a], having run the commands [cs] and left the files [files']. *)
Definition hands_over {A} (m : Sh A) (files : gmap string string) (a : A)
    (cs : list Cmd) (files' : gmap string string) : Prop :=
  forall s, fs s = files ->
    exists s', m s = (Next a, s')
               /\ commands (trace s') = commands (trace s) ++ cs
               /\ fs s' = files'.

(** The git commands behind the tag. *)
Definition tag_commands (E : Publisher.Env) : list Cmd :=
  if negb (Text.is_null (Publisher.or_empty (Publisher.GITHUB_SHA E))) then []
  else if Publisher.git_on_path E then
    GitIsInsideWorkTree
    :: (if (Publisher.inside_work_tree E =? 0)%Z then [GitRevParseShort]
        else [])
  else [].

(** The services as the script reads them off the captured listing, each
    with the image reference it is given. *)
Definition tagged_services (repo tag SERVICES : string)
  : list (string * string) :=
  if (Publisher.NUM_SERVICES SERVICES =? 1)%nat
  then [(Publisher.single_service_name SERVICES, repo +:+ ":" +:+ tag)]
  else map (fun s => (s, Publisher.image_name repo tag s))
           (Text.words SERVICES).

Definition entries_text (entries : list (string * string)) : string :=
  fold_right (fun e rest => Publisher.override_entry (fst e) (snd e) +:+ rest)
             "" entries.

(** The tagging override of a run. *)
Definition override_text (repo tag SERVICES : string) : string :=
  Publisher.override_header
  +:+ entries_text (tagged_services repo tag SERVICES).

(** No character of [a] occurs in [b]. *)
Definition shares_no_character (a b : string) : bool :=
  Text.sforall (fun c => Text.sforall (fun d => negb (Ascii.eqb d c)) b) a.

(** The tag can be resolved: where the script has to ask git for the
    commit id, git gives one. *)
Definition tag_resolves (E : Publisher.Env) : Prop :=
  Text.is_null (Publisher.or_empty (Publisher.GITHUB_SHA E)) = true ->
  git_usable E = true ->
  fst (Publisher.rev_parse_short E) = 0%Z.

(** Nothing fails in a run without a workflow file. *)
Definition sound_run (E : Publisher.Env) : Prop :=
  ready_to_push E
  /\ tag_resolves E
  /\ fst (Publisher.config_services E) = 0%Z
  /\ Text.is_null
       (Text.strip_trailing_newlines (snd (Publisher.config_services E)))
     = false
  /\ forall i,
       In i (Publisher.image_names
               (Publisher.or_empty (Publisher.DOCKERHUB_REPO E))
               (preferred_tag E)
               (Text.strip_trailing_newlines
                  (snd (Publisher.config_services E)))) ->
       Publisher.push_status E i = 0%Z.

(** *** The host that can refuse *)

(** The application directory of the variants that default it to
    [$HOME/server], when it can be told: the argument, or else
    [$HOME/server] where [HOME] is set. *)
Definition known_dir (E : Deploy.Env) (args : list string) : option string :=
  if Text.is_null (param_or args 1 "") then
    match Deploy.HOME E with
    | Some h => Some (h +:+ "/server")
    | None => None
    end
  else Some (param_or args 1 "").

(** What one pass of a [while read] loop leaves in the log for the name
    it read: the announcement, the two attempts, and the name that docker
    prints after each one that succeeds. *)
Definition attempt_log (E : Deploy.Env) (name : string) : list Event :=
  if Text.is_null name then []
  else
    [Out ("   Stopping and removing: " +:+ name); Run (DockerStop name)]
    ++ (if (Deploy.stop_status E name =? 0)%Z then [Out name] else [])
    ++ [Run (DockerRm name)]
    ++ (if (Deploy.rm_status E name =? 0)%Z then [Out name] else []).

(** The containers after that pass. *)
Definition after_attempt (E : Deploy.Env) (name : string)
    (cs : list Container) : list Container :=
  if Text.is_null name then cs
  else
    let stopped :=
      if (Deploy.stop_status E name =? 0)%Z
      then map (Deploy.mark_stopped name) cs else cs in
    if (Deploy.rm_status E name =? 0)%Z
    then List.filter (fun c => negb (String.eqb (cname c) name)) stopped
    else stopped.

Definition attempts_log (E : Deploy.Env) (names : list string) : list Event :=
  flat_map (attempt_log E) names.

Definition after_attempts (E : Deploy.Env) (names : list string)
    (cs : list Container) : list Container :=
  fold_left (fun cs name => after_attempt E name cs) names cs.

(** The names read by the first loop of the supersession on a host with
    the containers [cs], and the containers it leaves. *)
Definition first_names (E : Deploy.Env) (cs : list Container) : list string :=
  if (Deploy.ps_all_status E =? 0)%Z then Deploy.names_on_8080 cs else [].

Definition second_names (E : Deploy.Env) (cs : list Container) : list string :=
  if (Deploy.ps_ancestor_status E =? 0)%Z
  then Deploy.names_of_descendants (Deploy.repo_coordinate E)
         (after_attempts E (first_names E cs) cs)
  else [].

(** The log of the whole supersession on that host. *)
Definition supersession_log (E : Deploy.Env) (cs : list Container)
  : list Event :=
  [Out "   Removing all containers using port 8080..."; Run DockerPsAll]
  ++ (if (Deploy.ps_all_status E =? 0)%Z then [] else [Diag DockerPsAll])
  ++ attempts_log E (first_names E cs)
  ++ [Out ("   Removing containers with image: "
           +:+ Deploy.repo_coordinate E +:+ "...");
      Run (DockerPsAncestor (Deploy.repo_coordinate E))]
  ++ (if (Deploy.ps_ancestor_status E =? 0)%Z then []
      else [Diag (DockerPsAncestor (Deploy.repo_coordinate E))])
  ++ attempts_log E (second_names E cs)
  ++ [Run ComposeDown].

(** The run gets as far as writing the tagging override: the
    configuration, the tag and the listing are sound, and the host lets
    the file be created. *)
Definition writes_the_override (H : Local.Host) (E : Publisher.Env) : Prop :=
  Text.is_null (Publisher.or_empty (Publisher.DOCKERHUB_REPO E)) = false
  /\ Text.is_null (Publisher.or_empty (Publisher.DOCKERHUB_USERNAME E)) = false
  /\ Text.is_null (Publisher.or_empty (Publisher.DOCKERHUB_TOKEN E)) = false
  /\ tag_resolves E
  /\ fst (Publisher.config_services E) = 0%Z
  /\ Text.is_null
       (Text.strip_trailing_newlines (snd (Publisher.config_services E)))
     = false
  /\ Local.open_error H Publisher.OVERRIDE_FILE = None.

(** A step that ends the script does so with a status that is not 0. *)
Definition exits_nonzero {A} (m : Sh A) : Prop :=
  forall s c, fst (m s) = Exit c -> c <> 0%Z.

(** The tagging override, once there, is still there. *)
Definition keeps_override (s s' : State) : Prop :=
  is_Some (fs s !! Publisher.OVERRIDE_FILE) ->
  is_Some (fs s' !! Publisher.OVERRIDE_FILE).

End Spec.

(** ** Concrete hosts and environments *)
Module Examples.
Import Shell.

Definition fresh_host : State :=
  {| fs := ∅; cwd := "/"; containers := []; trace := [] |}.

(** A target host where everything the script asks of docker succeeds,
    [ps], [logs] and [prune] excepted. *)
Definition docker_env (curl : nat -> Z * string) (ps logs prune : Z)
  : Deploy.Env :=
  {| Deploy.pull_status := fun _ => 0%Z;
     Deploy.up_status := 0;
     Deploy.up_containers := fun _ _ cs => cs;
     Deploy.down_status := 0;
     Deploy.down_containers := fun _ _ _ => [];
     Deploy.curl := curl;
     Deploy.ps_status := ps;
     Deploy.logs_status := logs;
     Deploy.prune_status := prune;
     Deploy.now := "Tue Nov  3 03:12:25 UTC 2026";
     Deploy.ps_all_status := 0;
     Deploy.ps_ancestor_status := 0;
     Deploy.stop_status := fun _ => 0%Z;
     Deploy.rm_status := fun _ => 0%Z;
     Deploy.HOME := Some "/home/ubuntu";
     Deploy.DOCKERHUB_REPO := None |}.

(** The service answers 500 to every poll. *)
Definition always_500 : Deploy.Env :=
  docker_env (fun _ => (0%Z, "500")) 0 0 0.

(** The same, on a host where [docker ps] fails as well. *)
Definition always_500_ps_fails : Deploy.Env :=
  docker_env (fun _ => (0%Z, "500")) 1 0 0.

(** The service is up at the second poll; the first one is refused
    (curl exits with 7 after printing 000). *)
Definition up_at_second_poll : Deploy.Env :=
  docker_env (fun i => if (i =? 1)%nat then (0%Z, "200") else (7%Z, "000"))
             0 0 0.

(** The service is up at once, and [docker image prune] fails. *)
Definition healthy_prune_fails : Deploy.Env :=
  docker_env (fun _ => (0%Z, "200")) 0 0 1.

(** The registry does not know the image. *)
Definition unknown_image : Deploy.Env :=
  {| Deploy.pull_status := fun _ => 1%Z;
     Deploy.up_status := 0;
     Deploy.up_containers := fun _ _ _ => [];
     Deploy.down_status := 0;
     Deploy.down_containers := fun _ _ _ => [];
     Deploy.curl := fun _ => (0%Z, "200");
     Deploy.ps_status := 0;
     Deploy.logs_status := 0;
     Deploy.prune_status := 0;
     Deploy.now := "Tue Nov  3 03:12:25 UTC 2026";
     Deploy.ps_all_status := 0;
     Deploy.ps_ancestor_status := 0;
     Deploy.stop_status := fun _ => 0%Z;
     Deploy.rm_status := fun _ => 0%Z;
     Deploy.HOME := Some "/home/ubuntu";
     Deploy.DOCKERHUB_REPO := None |}.

(** R = 3, D = 0. *)
Definition three_tries : Deploy.Config :=
  {| Deploy.HEALTH_URL := "http://127.0.0.1:8000/health";
     Deploy.HEALTH_RETRIES := 3;
     Deploy.HEALTH_WAIT := 0 |}.

Definition previous_release : Container :=
  {| cname := "server-app-1";
     cports := "0.0.0.0:8080->8000/tcp";
     cancestry := ["rajibsalui/my-express-server"];
     crunning := true |}.

(** A host that runs the previous release and already holds an override. *)
Definition running_host : State :=
  {| fs := {[ "/root/server/docker-compose.override.yml" := "services: {}" ]};
     cwd := "/root";
     containers := [previous_release];
     trace := [] |}.

(** The previous release can be neither stopped nor removed. *)
Definition stuck_container : Deploy.Env :=
  {| Deploy.pull_status := fun _ => 0%Z;
     Deploy.up_status := 0;
     Deploy.up_containers := fun _ _ cs => cs;
     Deploy.down_status := 1;
     Deploy.down_containers := fun _ _ cs => cs;
     Deploy.curl := fun _ => (0%Z, "200");
     Deploy.ps_status := 0;
     Deploy.logs_status := 0;
     Deploy.prune_status := 0;
     Deploy.now := "Tue Nov  3 03:12:25 UTC 2026";
     Deploy.ps_all_status := 0;
     Deploy.ps_ancestor_status := 0;
     Deploy.stop_status := fun _ => 1%Z;
     Deploy.rm_status := fun _ => 1%Z;
     Deploy.HOME := Some "/home/ubuntu";
     Deploy.DOCKERHUB_REPO := None |}.

(** A build environment: the commit id supplied by the CI, the listing of
    [docker compose config --services], and the status of the build. *)
Definition build_env (sha : option string) (listing : string) (build : Z)
  : Publisher.Env :=
  {| Publisher.DOCKERHUB_REPO := Some "rajibsalui/my-express-server";
     Publisher.DOCKERHUB_USERNAME := Some "rajibsalui";
     Publisher.DOCKERHUB_TOKEN := Some "dckr_pat_example";
     Publisher.GITHUB_SHA := sha;
     Publisher.git_on_path := true;
     Publisher.inside_work_tree := 0;
     Publisher.rev_parse_short := (0%Z, "9fceb02" +:+ Text.nl);
     Publisher.clock :=
       {| Publisher.year := 2026; Publisher.month := 11; Publisher.day := 3;
          Publisher.hour := 3; Publisher.minute := 12;
          Publisher.second := 25 |};
     Publisher.config_services := (0%Z, listing);
     Publisher.build_status := build;
     Publisher.login_status := 0;
     Publisher.push_status := fun _ => 0%Z;
     Publisher.gnu_sed := true;
     Publisher.sed_terminates_last_line := false;
     Publisher.sed_special := fun _ content => (1%Z, content) |}.

(** A local run in a work tree that has no commit yet: [git rev-parse
    --short HEAD] fails with status 128. *)
Definition no_commit_yet : Publisher.Env :=
  {| Publisher.DOCKERHUB_REPO := Some "rajibsalui/my-express-server";
     Publisher.DOCKERHUB_USERNAME := Some "rajibsalui";
     Publisher.DOCKERHUB_TOKEN := Some "dckr_pat_example";
     Publisher.GITHUB_SHA := None;
     Publisher.git_on_path := true;
     Publisher.inside_work_tree := 0;
     Publisher.rev_parse_short := (128%Z, "HEAD" +:+ Text.nl);
     Publisher.clock :=
       {| Publisher.year := 2026; Publisher.month := 11; Publisher.day := 3;
          Publisher.hour := 3; Publisher.minute := 12;
          Publisher.second := 25 |};
     Publisher.config_services := (0%Z, "app" +:+ Text.nl);
     Publisher.build_status := 0;
     Publisher.login_status := 0;
     Publisher.push_status := fun _ => 0%Z;
     Publisher.gnu_sed := true;
     Publisher.sed_terminates_last_line := false;
     Publisher.sed_special := fun _ content => (1%Z, content) |}.

(** A local run outside any work tree. *)
Definition no_work_tree : Publisher.Env :=
  {| Publisher.DOCKERHUB_REPO := Some "rajibsalui/my-express-server";
     Publisher.DOCKERHUB_USERNAME := Some "rajibsalui";
     Publisher.DOCKERHUB_TOKEN := Some "dckr_pat_example";
     Publisher.GITHUB_SHA := None;
     Publisher.git_on_path := true;
     Publisher.inside_work_tree := 128;
     Publisher.rev_parse_short := (128%Z, "");
     Publisher.clock :=
       {| Publisher.year := 2026; Publisher.month := 11; Publisher.day := 3;
          Publisher.hour := 3; Publisher.minute := 12;
          Publisher.second := 25 |};
     Publisher.config_services := (0%Z, "app" +:+ Text.nl);
     Publisher.build_status := 0;
     Publisher.login_status := 0;
     Publisher.push_status := fun _ => 0%Z;
     Publisher.gnu_sed := true;
     Publisher.sed_terminates_last_line := false;
     Publisher.sed_special := fun _ content => (1%Z, content) |}.

(** A CI run on a one-service manifest. *)
Definition ci_env : Publisher.Env :=
  build_env (Some "abc1234def5678abc1234def5678abc1234def56")
            ("app" +:+ Text.nl) 0.

(** The same run with a failing build. *)
Definition build_fails : Publisher.Env :=
  build_env (Some "abc1234def5678abc1234def5678abc1234def56")
            ("app" +:+ Text.nl) 1.

(** A local run, outside the CI, on a two-service manifest. *)
Definition two_services : Publisher.Env :=
  build_env None ("web" +:+ Text.nl +:+ "a__b" +:+ Text.nl) 0.

Definition workflow_text : string :=
  "env:" +:+ Text.nl
  +:+ "  IMAGE_TAG: __IMAGE_TAG__" +:+ Text.nl
  +:+ "  IMAGE: rajibsalui/my-express-server:__IMAGE_TAG__" +:+ Text.nl.

(** The checkout the publisher runs in. *)
Definition checkout : State :=
  {| fs := {[ "docker-compose.yml" := "services: {app: {build: .}}";
              ".github/workflows/deploy.yml" := workflow_text ]};
     cwd := "/home/runner/work/DevOps";
     containers := [];
     trace := [] |}.

(** *** Further hosts and environments *)

(** [docker compose up] fails (a port is taken, say). *)
Definition start_fails : Deploy.Env :=
  {| Deploy.pull_status := fun _ => 0%Z;
     Deploy.up_status := 1;
     Deploy.up_containers := fun _ _ cs => cs;
     Deploy.down_status := 0;
     Deploy.down_containers := fun _ _ _ => [];
     Deploy.curl := fun _ => (0%Z, "200");
     Deploy.ps_status := 0;
     Deploy.logs_status := 0;
     Deploy.prune_status := 0;
     Deploy.now := "Tue Nov  3 03:12:25 UTC 2026";
     Deploy.ps_all_status := 0;
     Deploy.ps_ancestor_status := 0;
     Deploy.stop_status := fun _ => 0%Z;
     Deploy.rm_status := fun _ => 0%Z;
     Deploy.HOME := None;
     Deploy.DOCKERHUB_REPO := None |}.

(** A container that publishes no port, named after the port it scrapes. *)
Definition bystander : Container :=
  {| cname := "metrics8080";
     cports := "";
     cancestry := ["prom/prometheus"];
     crunning := true |}.

Definition database : Container :=
  {| cname := "server-db-1";
     cports := "5432/tcp";
     cancestry := ["postgres"];
     crunning := true |}.

(** A host that runs the previous release beside other containers. *)
Definition busy_host : State :=
  {| fs := ∅; cwd := "/root";
     containers := [database; Examples.previous_release; bystander];
     trace := [] |}.

(** A manifest without services, in an otherwise sound environment. *)
Definition no_services : Publisher.Env :=
  Examples.build_env (Some "abc1234def5678abc1234def5678abc1234def56")
    Text.nl 0.

(** No credentials in the environment. *)
Definition no_credentials : Publisher.Env :=
  {| Publisher.DOCKERHUB_REPO := Some "rajibsalui/my-express-server";
     Publisher.DOCKERHUB_USERNAME := None;
     Publisher.DOCKERHUB_TOKEN := Some "";
     Publisher.GITHUB_SHA := None;
     Publisher.git_on_path := true;
     Publisher.inside_work_tree := 0;
     Publisher.rev_parse_short := (0%Z, "9fceb02" +:+ Text.nl);
     Publisher.clock :=
       {| Publisher.year := 2026; Publisher.month := 11; Publisher.day := 3;
          Publisher.hour := 3; Publisher.minute := 12;
          Publisher.second := 25 |};
     Publisher.config_services := (0%Z, "app" +:+ Text.nl);
     Publisher.build_status := 0;
     Publisher.login_status := 0;
     Publisher.push_status := fun _ => 0%Z;
     Publisher.gnu_sed := true;
     Publisher.sed_terminates_last_line := false;
     Publisher.sed_special := fun _ content => (1%Z, content) |}.

(** The registry refuses the image of the service a__b. *)
Definition second_push_fails : Publisher.Env :=
  {| Publisher.DOCKERHUB_REPO := Some "rajibsalui/my-express-server";
     Publisher.DOCKERHUB_USERNAME := Some "rajibsalui";
     Publisher.DOCKERHUB_TOKEN := Some "dckr_pat_example";
     Publisher.GITHUB_SHA := None;
     Publisher.git_on_path := true;
     Publisher.inside_work_tree := 0;
     Publisher.rev_parse_short := (0%Z, "9fceb02" +:+ Text.nl);
     Publisher.clock :=
       {| Publisher.year := 2026; Publisher.month := 11; Publisher.day := 3;
          Publisher.hour := 3; Publisher.minute := 12;
          Publisher.second := 25 |};
     Publisher.config_services :=
       (0%Z, "web" +:+ Text.nl +:+ "a__b" +:+ Text.nl +:+ "db" +:+ Text.nl);
     Publisher.build_status := 0;
     Publisher.login_status := 0;
     Publisher.push_status :=
       fun i => if String.eqb i "rajibsalui/my-express-server-a--b-:9fceb02"
                then 1%Z else 0%Z;
     Publisher.gnu_sed := true;
     Publisher.sed_terminates_last_line := false;
     Publisher.sed_special := fun _ content => (1%Z, content) |}.

(** A host that refuses nothing, with GNU grep and GNU sed: handed the
    word --help they print their help and succeed; another word that
    begins with a hyphen they reject. *)
Definition willing_host : Local.Host :=
  {| Local.open_error := fun _ => None;
     Local.cd_error := fun _ => None;
     Local.rm_error := fun _ => None;
     Local.rewrite_status := fun _ => 0%Z;
     Local.grep_options := fun w => if String.eqb w "--help" then 0%Z else 2%Z;
     Local.sed_options :=
       fun _ _ w _ => if String.eqb w "--help" then (0%Z, ∅) else (1%Z, ∅) |}.

(** A checkout whose workflow file is named --help. *)
Definition checkout_with_help_file : State :=
  {| fs := {[ "--help" := Examples.workflow_text ]};
     cwd := "/home/runner/work/DevOps";
     containers := [];
     trace := [] |}.

(** The same host without the directory /srv/app. *)
Definition no_app_dir : Local.Host :=
  {| Local.open_error :=
       fun p => if String.prefix "/srv/app/" p
                then Some (p +:+ ": No such file or directory") else None;
     Local.cd_error :=
       fun d => if String.eqb d "/srv/app"
                then Some "cd: /srv/app: No such file or directory" else None;
     Local.rm_error := fun _ => None;
     Local.rewrite_status := fun _ => 0%Z;
     Local.grep_options := fun w => if String.eqb w "--help" then 0%Z else 2%Z;
     Local.sed_options :=
       fun _ _ w _ => if String.eqb w "--help" then (0%Z, ∅) else (1%Z, ∅) |}.

End Examples.

(** ** Proof automation *)

(** The sequencing operators are unfolded by name; the primitives that
    build a new state are left to [cbn], which reduces the projections of
    the states as it goes. *)
Ltac sh_unfold :=
  unfold mbind, Shell.Sh_bind, Shell.bind, mret, Shell.Sh_ret, Shell.ret,
    Shell.exit, Shell.get, Shell.echo, Shell.external, Shell.errexit,
    Shell.or_true, Publisher.log, Publisher.err.

Ltac sh_simpl :=
  repeat (progress
    (sh_unfold;
     cbn -[Deploy.string_of_nat String.append lookup insert delete])).

(** Runs the script symbolically, using the exit statuses known from the
    context. *)
Ltac sh_cases :=
  repeat (progress
    (sh_simpl;
     repeat match goal with
     | H : (?a =? ?b)%Z = _ |- context [(?a =? ?b)%Z] => rewrite H
     | H : ?a = 0%Z |- context [(?a =? 0)%Z] => rewrite H
     end)).

(** ** Facts about the shell monad and the text operations *)
Module ShellFacts.
Import Shell.

Lemma bind_next {A B} (m : Sh A) (k : A -> Sh B) s a s1 :
  m s = (Next a, s1) -> (m ≫= k) s = k a s1.
Proof. intros H. unfold mbind, Sh_bind, bind. rewrite H. reflexivity. Qed.

Lemma bind_exit {A B} (m : Sh A) (k : A -> Sh B) s c s1 :
  m s = (Exit c, s1) -> (m ≫= k) s = (Exit c, s1).
Proof. intros H. unfold mbind, Sh_bind, bind. rewrite H. reflexivity. Qed.

Lemma commands_app t1 t2 : commands (t1 ++ t2) = commands t1 ++ commands t2.
Proof.
  induction t1 as [|e t1 IH]; [reflexivity|].
  destruct e; cbn; rewrite IH; reflexivity.
Qed.

Lemma curl_calls_app t1 t2 :
  Deploy.curl_calls (t1 ++ t2) = Deploy.curl_calls t1 + Deploy.curl_calls t2.
Proof.
  induction t1 as [|e t1 IH]; [reflexivity|].
  destruct e as [c| | |]; cbn; try exact IH.
  destruct c; cbn; rewrite IH; reflexivity.
Qed.

Lemma sapp_cons c a b : String c a +:+ b = String c (a +:+ b).
Proof. reflexivity. Qed.

Lemma sapp_nil_l b : "" +:+ b = b.
Proof. reflexivity. Qed.

Lemma sapp_nil_r s : s +:+ "" = s.
Proof.
  induction s as [|c s IH]; [reflexivity|]. rewrite sapp_cons, IH. reflexivity.
Qed.

Lemma sapp_assoc a b c : (a +:+ b) +:+ c = a +:+ (b +:+ c).
Proof.
  induction a as [|x a IH]; [reflexivity|]. rewrite !sapp_cons, IH. reflexivity.
Qed.

Lemma sapp_length a b :
  String.length (a +:+ b) = String.length a + String.length b.
Proof.
  induction a as [|x a IH]; [reflexivity|]. rewrite sapp_cons. cbn.
  rewrite IH. reflexivity.
Qed.

Lemma is_null_sapp_cons a c b : Text.is_null (a +:+ String c b) = false.
Proof. destruct a; reflexivity. Qed.

(** A text that ends in a newline preceded by another character loses
    exactly that newline. *)
Lemma strip_snoc s c :
  Ascii.eqb c "010" = false ->
  Text.strip_trailing_newlines (s +:+ String c Text.nl) = s +:+ String c "".
Proof.
  intros Hc. induction s as [|a s IH].
  - rewrite !sapp_nil_l. cbn. rewrite Hc. reflexivity.
  - rewrite !sapp_cons. cbn [Text.strip_trailing_newlines]. rewrite IH.
    rewrite is_null_sapp_cons, andb_false_r. reflexivity.
Qed.

End ShellFacts.

(** The projections of a trace distribute over the events appended by
    each command. *)
Create Rewrite HintDb trace.
#[global] Hint Rewrite ShellFacts.commands_app ShellFacts.curl_calls_app
  : trace.

(** ** The Rollout Executor and its health gate *)
Module Rollout.
Import Shell Deploy Spec ShellFacts.

(** Whatever curl printed, a failed transfer is never read as 200: the
    captured text ends in the 000 of the fallback [echo]. *)
Lemma failed_curl_never_200 st out :
  st <> 0%Z -> status_code_of (st, out) <> "200".
Proof.
  intros Hst. unfold status_code_of. cbn [fst snd].
  apply Z.eqb_neq in Hst. rewrite Hst.
  change (out +:+ "000" +:+ Text.nl)
    with (out +:+ ("00" +:+ String "0" Text.nl)).
  rewrite <- sapp_assoc, strip_snoc by reflexivity. rewrite sapp_assoc.
  destruct out as [|a [|b [|c [|d o]]]]; cbn; discriminate.
Qed.

Section Loop.
Variable cfg : Config.
Variable E : Env.

Lemma poll_eq s :
  poll cfg E s =
  (Next (status_code_of (curl E (curl_calls (trace s)))),
   {| fs := fs s; cwd := cwd s; containers := containers s;
      trace := trace s ++ [Run (Curl (HEALTH_URL cfg))] |}).
Proof. reflexivity. Qed.

(** With no 200 in sight the loop uses its whole budget. *)
Lemma health_loop_exhausts : forall budget n sc s,
  n + budget = HEALTH_RETRIES cfg ->
  (forall i, i < budget ->
     status_code_of (curl E (curl_calls (trace s) + i)) <> "200") ->
  exists sc' s',
    health_loop cfg E budget n sc s = (Next sc', s')
    /\ (budget = 0 -> sc' = sc)
    /\ (0 < budget -> exists st, sc' = Some st /\ st <> "200")
    /\ same_host s s'
    /\ commands (trace s') = commands (trace s) ++ polls cfg budget
    /\ curl_calls (trace s') = curl_calls (trace s) + budget.
Proof.
  induction budget as [|b IH]; intros n sc s Hn Hfail.
  - exists sc, s. cbn. rewrite app_nil_r, Nat.add_0_r.
    repeat split; auto. intros H; lia.
  - cbn [health_loop].
    assert (Hlt : (HEALTH_RETRIES cfg <=? n) = false) by (apply Nat.leb_gt; lia).
    rewrite Hlt.
    assert (H0 := Hfail 0 ltac:(lia)). rewrite Nat.add_0_r in H0.
    apply String.eqb_neq in H0.
    rewrite (bind_next _ _ _ _ _ (poll_eq s)), H0.
    set (st := status_code_of (curl E (curl_calls (trace s)))) in *.
    sh_simpl.
    match goal with |- context [health_loop cfg E b (S n) (Some st) ?s1] =>
      destruct (IH (S n) (Some st) s1)
        as (sc' & s' & Heq & Hz & Hp & Hh & Hc & Hk)
    end.
    + lia.
    + intros i Hi. cbn. rewrite !curl_calls_app. cbn.
      replace (curl_calls (trace s) + 1 + 0 + 0 + i)
        with (curl_calls (trace s) + S i) by lia.
      apply Hfail. lia.
    + exists sc', s'. rewrite Heq. split; [reflexivity|].
      split; [intros; discriminate|].
      split.
      { intros _. destruct b as [|b'].
        - exists st. split; [rewrite Hz; auto | apply String.eqb_neq; exact H0].
        - apply Hp. lia. }
      split; [exact Hh|].
      split.
      * rewrite Hc. cbn. rewrite !commands_app. cbn.
        rewrite <- !app_assoc. reflexivity.
      * rewrite Hk. cbn. rewrite !curl_calls_app. cbn. lia.
Qed.

(** The poll of index [k] is the first to see a 200: the loop stops there. *)
Lemma health_loop_succeeds : forall k budget n sc s,
  k < budget ->
  n + budget = HEALTH_RETRIES cfg ->
  (forall i, i < k ->
     status_code_of (curl E (curl_calls (trace s) + i)) <> "200") ->
  status_code_of (curl E (curl_calls (trace s) + k)) = "200" ->
  exists s',
    health_loop cfg E budget n sc s = (Next (Some "200"), s')
    /\ same_host s s'
    /\ commands (trace s') =
       commands (trace s) ++ polls cfg k ++ [Curl (HEALTH_URL cfg)]
    /\ curl_calls (trace s') = curl_calls (trace s) + S k.
Proof.
  induction k as [|k IH]; intros budget n sc s Hk Hn Hfail Hok;
    (destruct budget as [|b]; [lia|]); cbn [health_loop];
    assert (Hlt : (HEALTH_RETRIES cfg <=? n) = false) by (apply Nat.leb_gt; lia);
    rewrite Hlt, (bind_next _ _ _ _ _ (poll_eq s)).
  - rewrite Nat.add_0_r in Hok. rewrite Hok. sh_simpl.
    eexists. split; [reflexivity|]. cbn.
    split; [repeat split|].
    autorewrite with trace. cbn.
    rewrite <- !app_assoc. split; [reflexivity | lia].
  - assert (H0 := Hfail 0 ltac:(lia)). rewrite Nat.add_0_r in H0.
    apply String.eqb_neq in H0. rewrite H0.
    set (st := status_code_of (curl E (curl_calls (trace s)))) in *.
    sh_simpl.
    match goal with |- context [health_loop cfg E b (S n) (Some st) ?s1] =>
      destruct (IH b (S n) (Some st) s1) as (s' & Heq & Hh & Hc & Hq)
    end.
    + lia.
    + lia.
    + intros i Hi. cbn. rewrite !curl_calls_app. cbn.
      replace (curl_calls (trace s) + 1 + 0 + 0 + i)
        with (curl_calls (trace s) + S i) by lia.
      apply Hfail. lia.
    + cbn. rewrite !curl_calls_app. cbn.
      replace (curl_calls (trace s) + 1 + 0 + 0 + k)
        with (curl_calls (trace s) + S k) by lia.
      exact Hok.
    + exists s'. rewrite Heq. split; [reflexivity|].
      split; [exact Hh|].
      rewrite Hc, Hq. cbn. autorewrite with trace. cbn.
      rewrite <- !app_assoc. split; [reflexivity | lia].
Qed.

Lemma verify_unhealthy st s :
  st <> "200" ->
  exists c s',
    verify cfg E (Some st) s = (Exit c, s')
    /\ c <> 0%Z
    /\ same_host s s'
    /\ commands (trace s') =
       commands (trace s)
       ++ DockerPs :: (if (ps_status E =? 0)%Z then [ComposeLogs 200] else [])
    /\ curl_calls (trace s') = curl_calls (trace s).
Proof.
  intros Hst. apply String.eqb_neq in Hst.
  unfold verify. rewrite Hst.
  destruct (ps_status E =? 0)%Z eqn:Hps.
  - destruct (logs_status E =? 0)%Z eqn:Hlogs; sh_cases;
      eexists _, _; (split; [reflexivity|]); cbn;
      autorewrite with trace; cbn;
      rewrite <- ?app_assoc, ?app_nil_r; cbn;
      (split; [|split; [repeat split|split; [reflexivity|lia]]]).
    + discriminate.
    + apply Z.eqb_neq. exact Hlogs.
  - sh_cases. eexists _, _; (split; [reflexivity|]); cbn.
    autorewrite with trace; cbn.
    rewrite <- ?app_assoc, ?app_nil_r; cbn.
    split; [apply Z.eqb_neq; exact Hps|].
    split; [repeat split|split; [reflexivity|lia]].
Qed.

Lemma echo_then {B} (line : string) (m : Sh B) s :
  (echo line;; m) s =
  m {| fs := fs s; cwd := cwd s; containers := containers s;
       trace := trace s ++ [Out line] |}.
Proof. reflexivity. Qed.

Lemma health_check_exhausted s :
  1 <= HEALTH_RETRIES cfg ->
  (forall i, i < HEALTH_RETRIES cfg ->
     status_code_of (curl E (curl_calls (trace s) + i)) <> "200") ->
  exists c s',
    health_check cfg E s = (Exit c, s')
    /\ c <> 0%Z
    /\ same_host s s'
    /\ commands (trace s') =
       commands (trace s) ++ polls cfg (HEALTH_RETRIES cfg)
       ++ DockerPs :: (if (ps_status E =? 0)%Z then [ComposeLogs 200] else [])
    /\ curl_calls (trace s') = curl_calls (trace s) + HEALTH_RETRIES cfg.
Proof.
  intros HR Hfail. unfold health_check. rewrite echo_then.
  match goal with |- context [(health_loop _ _ _ _ _ ≫= _) ?s1] =>
    destruct (health_loop_exhausts (HEALTH_RETRIES cfg) 0 None s1)
      as (sc' & s2 & Heq & _ & Hp & Hh & Hc & Hk)
  end.
  - reflexivity.
  - intros i Hi. cbn. rewrite curl_calls_app, Nat.add_0_r. apply Hfail, Hi.
  - destruct (Hp HR) as (st & -> & Hst).
    rewrite (bind_next _ _ _ _ _ Heq).
    destruct (verify_unhealthy st s2 Hst) as (c & s3 & Hv & Hnz & Hh' & Hc' & Hk').
    exists c, s3. rewrite Hv. split; [reflexivity|]. split; [exact Hnz|].
    split.
    { destruct Hh as (?&?&?), Hh' as (?&?&?). cbn in *.
      repeat split; congruence. }
    rewrite Hc', Hk', Hc, Hk. cbn.
    rewrite commands_app, curl_calls_app. cbn.
    rewrite app_nil_r, <- !app_assoc. split; [reflexivity|lia].
Qed.

Lemma health_check_healthy k s :
  k < HEALTH_RETRIES cfg ->
  (forall i, i < k ->
     status_code_of (curl E (curl_calls (trace s) + i)) <> "200") ->
  status_code_of (curl E (curl_calls (trace s) + k)) = "200" ->
  exists s',
    health_check cfg E s = (Next tt, s')
    /\ same_host s s'
    /\ commands (trace s') =
       commands (trace s) ++ polls cfg k ++ [Curl (HEALTH_URL cfg)]
    /\ curl_calls (trace s') = curl_calls (trace s) + S k.
Proof.
  intros Hk Hfail Hok. unfold health_check. rewrite echo_then.
  match goal with |- context [(health_loop _ _ _ _ _ ≫= _) ?s1] =>
    destruct (health_loop_succeeds k (HEALTH_RETRIES cfg) 0 None s1)
      as (s2 & Heq & Hh & Hc & Hq)
  end.
  - exact Hk.
  - reflexivity.
  - intros i Hi. cbn. rewrite curl_calls_app, Nat.add_0_r. apply Hfail, Hi.
  - cbn. rewrite curl_calls_app, Nat.add_0_r. exact Hok.
  - rewrite (bind_next _ _ _ _ _ Heq). exists s2. split; [reflexivity|].
    split.
    { destruct Hh as (?&?&?). cbn in *. repeat split; congruence. }
    rewrite Hc, Hq. cbn. rewrite commands_app, curl_calls_app. cbn.
    rewrite app_nil_r. split; [reflexivity|lia].
Qed.

Lemma deploy_reaches_health_check argv0 args s :
  Text.is_null (param_or args 0 "") = false ->
  pull_status E (param_or args 0 "") = 0%Z ->
  up_status E = 0%Z ->
  exists s1,
    deploy cfg E argv0 args s = (health_check cfg E;; cleanup E) s1
    /\ commands (trace s1) =
       commands (trace s) ++ [DockerPull (param_or args 0 ""); ComposeUp]
    /\ curl_calls (trace s1) = curl_calls (trace s).
Proof.
  intros Himg Hpull Hup. unfold deploy. rewrite Himg.
  unfold announce, docker_pull, docker_compose_up.
  sh_cases.
  eexists. split; [reflexivity|]. cbn.
  autorewrite with trace. cbn.
  rewrite <- ?app_assoc, ?app_nil_r. cbn. split; [reflexivity|lia].
Qed.

(** The exit status of a script that ends with the cleanup step is the
    exit status of the prune. *)
Lemma cleanup_run s :
  exists o s',
    cleanup E s = (o, s')
    /\ match o with Next _ => 0%Z | Exit c => c end = prune_status E
    /\ commands (trace s') = commands (trace s) ++ [ImagePrune].
Proof.
  unfold cleanup. destruct (prune_status E =? 0)%Z eqn:Hp; sh_cases;
    eexists _, _; (split; [reflexivity|]); cbn;
    rewrite !commands_app; cbn; rewrite <- ?app_assoc, ?app_nil_r; cbn.
  - apply Z.eqb_eq in Hp. split; [symmetry; exact Hp|reflexivity].
  - split; reflexivity.
Qed.

End Loop.

Lemma unhealthy_reply_status r :
  unhealthy_reply r -> status_code_of r <> "200".
Proof.
  destruct r as [st out]. intros [Hst|Hout].
  - apply failed_curl_never_200, Hst.
  - destruct (Z.eq_dec st 0%Z) as [->|Hne].
    + exact Hout.
    + apply failed_curl_never_200, Hne.
Qed.

Lemma healthy_reply_status r :
  healthy_reply r -> status_code_of r = "200".
Proof.
  destruct r as [st out]. intros [Hst Hout]. unfold status_code_of.
  cbn [fst snd] in *. rewrite Hst. exact Hout.
Qed.

(** C1 (amended): in a run where the image is pulled, the service is
    started and each of the R (at least one) polls gets a transport
    failure or a status other than 200, the script polls exactly R times,
    then asks docker for the container status table and, when that
    command succeeds, for the last 200 lines of the service logs; in every
    case it exits with a non-zero status. *)
Theorem exhausted_budget_dumps_and_fails cfg E argv0 args s :
  trace s = [] ->
  Text.is_null (param_or args 0 "") = false ->
  pull_status E (param_or args 0 "") = 0%Z ->
  up_status E = 0%Z ->
  1 <= HEALTH_RETRIES cfg ->
  (forall i, i < HEALTH_RETRIES cfg -> unhealthy_reply (curl E i)) ->
  fst (run (deploy cfg E argv0 args) s) <> 0%Z
  /\ curl_calls (trace (snd (run (deploy cfg E argv0 args) s)))
     = HEALTH_RETRIES cfg
  /\ commands (trace (snd (run (deploy cfg E argv0 args) s))) =
     [DockerPull (param_or args 0 ""); ComposeUp]
     ++ polls cfg (HEALTH_RETRIES cfg)
     ++ DockerPs :: (if (ps_status E =? 0)%Z then [ComposeLogs 200] else []).
Proof.
  intros Ht Himg Hpull Hup HR Hfail.
  destruct (deploy_reaches_health_check cfg E argv0 args s Himg Hpull Hup)
    as (s1 & Heq & Hc1 & Hk1).
  rewrite Ht in Hc1, Hk1. cbn in Hc1, Hk1.
  destruct (health_check_exhausted cfg E s1 HR)
    as (c & s2 & Hh & Hnz & _ & Hc2 & Hk2).
  { intros i Hi. rewrite Hk1. apply unhealthy_reply_status, Hfail, Hi. }
  unfold run. rewrite Heq, (bind_exit _ _ _ _ _ Hh). cbn [fst snd].
  rewrite Hc2, Hk2, Hc1, Hk1. auto.
Qed.

(** C2: when the k-th poll (1 <= k <= R) is the first to get a 200, the
    loop makes exactly k polls, stops there with [status_code] 200, and
    leaves the rest of its budget unused. *)
Theorem first_success_stops_polling cfg E s k :
  curl_calls (trace s) = 0 ->
  1 <= k <= HEALTH_RETRIES cfg ->
  (forall i, i < k - 1 -> unhealthy_reply (curl E i)) ->
  healthy_reply (curl E (k - 1)) ->
  fst (health_loop cfg E (HEALTH_RETRIES cfg) 0 None s) = Next (Some "200")
  /\ curl_calls (trace (snd (health_loop cfg E (HEALTH_RETRIES cfg) 0 None s)))
     = k
  /\ commands (trace (snd (health_loop cfg E (HEALTH_RETRIES cfg) 0 None s))) =
     commands (trace s) ++ polls cfg (k - 1) ++ [Curl (HEALTH_URL cfg)].
Proof.
  intros H0 Hk Hfail Hok.
  destruct (health_loop_succeeds cfg E (k - 1) (HEALTH_RETRIES cfg) 0 None s)
    as (s' & Heq & _ & Hc & Hq).
  - lia.
  - reflexivity.
  - intros i Hi. rewrite H0. apply unhealthy_reply_status, Hfail, Hi.
  - rewrite H0. apply healthy_reply_status, Hok.
  - rewrite Heq. cbn [fst snd]. rewrite Hc, Hq, H0.
    repeat split; [lia].
Qed.

(** R = 3, D = 0 and a 200 at the second poll: two polls, not three. *)
Lemma first_success_at_second_poll :
  fst (health_loop Examples.three_tries Examples.up_at_second_poll 3 0 None
         Examples.fresh_host) = Next (Some "200")
  /\ curl_calls
       (trace (snd (health_loop Examples.three_tries Examples.up_at_second_poll
                      3 0 None Examples.fresh_host))) = 2
  /\ commands
       (trace (snd (health_loop Examples.three_tries Examples.up_at_second_poll
                      3 0 None Examples.fresh_host))) =
     [Curl "http://127.0.0.1:8000/health"; Sleep 0;
      Curl "http://127.0.0.1:8000/health"].
Proof.
  apply (first_success_stops_polling Examples.three_tries
           Examples.up_at_second_poll Examples.fresh_host 2).
  - reflexivity.
  - cbn. lia.
  - intros i Hi. left. assert (i = 0) as -> by (cbn in Hi; lia).
    cbn. discriminate.
  - split; reflexivity.
Defined.

(** C8 (amended): after a successful health check the script prunes the
    dangling images as its last command, and its exit status is the exit
    status of that prune: 0 when the prune succeeds, the non-zero status of
    the prune when it fails. *)
Theorem healthy_rollout_exit_is_prune_status cfg E argv0 args s k :
  trace s = [] ->
  Text.is_null (param_or args 0 "") = false ->
  pull_status E (param_or args 0 "") = 0%Z ->
  up_status E = 0%Z ->
  1 <= k <= HEALTH_RETRIES cfg ->
  (forall i, i < k - 1 -> unhealthy_reply (curl E i)) ->
  healthy_reply (curl E (k - 1)) ->
  fst (run (deploy cfg E argv0 args) s) = prune_status E
  /\ commands (trace (snd (run (deploy cfg E argv0 args) s))) =
     [DockerPull (param_or args 0 ""); ComposeUp]
     ++ polls cfg (k - 1) ++ [Curl (HEALTH_URL cfg); ImagePrune].
Proof.
  intros Ht Himg Hpull Hup Hk Hfail Hok.
  destruct (deploy_reaches_health_check cfg E argv0 args s Himg Hpull Hup)
    as (s1 & Heq & Hc1 & Hk1).
  rewrite Ht in Hc1, Hk1. cbn in Hc1, Hk1.
  destruct (health_check_healthy cfg E (k - 1) s1)
    as (s2 & Hh & _ & Hc2 & Hk2).
  - lia.
  - intros i Hi. rewrite Hk1. apply unhealthy_reply_status, Hfail, Hi.
  - rewrite Hk1. apply healthy_reply_status, Hok.
  - destruct (cleanup_run E s2) as (o & s3 & Hcl & Hst & Hc3).
    unfold run. rewrite Heq, (bind_next _ _ _ _ _ Hh), Hcl.
    destruct o; cbn [fst snd]; rewrite Hc3, Hc2, Hc1, <- Hst;
      rewrite <- !app_assoc; cbn; auto.
Qed.

(** C10: when the pull fails the script ends at once with the status of
    the pull (non-zero); no file was written, the containers and the
    working directory are those of before, and the pull is the only
    command that was issued. *)
Theorem pull_failure_leaves_host_unchanged cfg E argv0 args s :
  Text.is_null (param_or args 0 "") = false ->
  pull_status E (param_or args 0 "") <> 0%Z ->
  fst (run (deploy cfg E argv0 args) s) = pull_status E (param_or args 0 "")
  /\ fst (run (deploy cfg E argv0 args) s) <> 0%Z
  /\ same_host s (snd (run (deploy cfg E argv0 args) s))
  /\ commands (trace (snd (run (deploy cfg E argv0 args) s))) =
     commands (trace s) ++ [DockerPull (param_or args 0 "")].
Proof.
  intros Himg Hpull. assert (Hp := Hpull). apply Z.eqb_neq in Hp.
  unfold run, deploy. rewrite Himg. unfold announce, docker_pull.
  sh_cases. rewrite !commands_app. cbn. rewrite !app_nil_r.
  repeat split; auto.
Qed.


(** The script as shipped (R = 15) against a service that answers 500. *)
Lemma exhausted_budget_witness :
  fst (run (deploy config Examples.always_500 "deploy.sh"
             ["rajibsalui/my-express-server:abc1234"]) Examples.fresh_host)
  <> 0%Z
  /\ curl_calls
       (trace (snd (run (deploy config Examples.always_500 "deploy.sh"
                          ["rajibsalui/my-express-server:abc1234"])
                        Examples.fresh_host))) = 15
  /\ commands
       (trace (snd (run (deploy config Examples.always_500 "deploy.sh"
                          ["rajibsalui/my-express-server:abc1234"])
                        Examples.fresh_host))) =
     [DockerPull "rajibsalui/my-express-server:abc1234"; ComposeUp]
     ++ polls config 15 ++ [DockerPs; ComposeLogs 200].
Proof.
  apply (exhausted_budget_dumps_and_fails config Examples.always_500
           "deploy.sh" ["rajibsalui/my-express-server:abc1234"]
           Examples.fresh_host).
  - reflexivity.
  - reflexivity.
  - reflexivity.
  - reflexivity.
  - cbn. lia.
  - intros i _. right. cbn. discriminate.
Defined.

(** C1 as stated fails where [docker ps] itself fails: all 15 polls get a
    500, the status table is asked for, the script ends there with the
    status of [docker ps], and the logs are never asked for. *)
Lemma ps_failure_skips_the_logs :
  (forall i, i < 15 -> unhealthy_reply (curl Examples.always_500_ps_fails i))
  /\ fst (run (deploy config Examples.always_500_ps_fails "deploy.sh"
                ["rajibsalui/my-express-server:abc1234"]) Examples.fresh_host)
     = 1%Z
  /\ ~ In (ComposeLogs 200)
         (commands
            (trace (snd (run (deploy config Examples.always_500_ps_fails
                                "deploy.sh"
                                ["rajibsalui/my-express-server:abc1234"])
                             Examples.fresh_host)))).
Proof.
  split; [intros i _; right; cbn; discriminate|].
  split; [vm_compute; reflexivity|].
  vm_compute. intros H.
  repeat (destruct H as [H|H]; [discriminate H|]). exact H.
Qed.

(** A service that is up at once, on a host where the prune fails. *)
Lemma healthy_rollout_witness :
  fst (run (deploy config Examples.healthy_prune_fails "deploy.sh"
             ["rajibsalui/my-express-server:abc1234"]) Examples.fresh_host)
  = 1%Z
  /\ commands
       (trace (snd (run (deploy config Examples.healthy_prune_fails "deploy.sh"
                          ["rajibsalui/my-express-server:abc1234"])
                        Examples.fresh_host))) =
     [DockerPull "rajibsalui/my-express-server:abc1234"; ComposeUp;
      Curl "http://127.0.0.1:8000/health"; ImagePrune].
Proof.
  apply (healthy_rollout_exit_is_prune_status config
           Examples.healthy_prune_fails "deploy.sh"
           ["rajibsalui/my-express-server:abc1234"] Examples.fresh_host 1).
  - reflexivity.
  - reflexivity.
  - reflexivity.
  - reflexivity.
  - cbn. lia.
  - intros i Hi. cbn in Hi. lia.
  - split; reflexivity.
Defined.

(** C8 as stated fails where the prune fails: the first poll gets a 200,
    and the script still exits with 1, the status of the prune. *)
Lemma prune_failure_fails_a_healthy_rollout :
  healthy_reply (curl Examples.healthy_prune_fails 0)
  /\ fst (run (deploy config Examples.healthy_prune_fails "deploy.sh"
                ["rajibsalui/my-express-server:abc1234"]) Examples.fresh_host)
     <> 0%Z.
Proof.
  split; [split; reflexivity|]. vm_compute. discriminate.
Qed.

(** An image the registry does not know, on a host that runs the previous
    release and holds its override. *)
Lemma pull_failure_witness :
  fst (run (deploy config Examples.unknown_image "deploy.sh"
             ["rajibsalui/my-express-server:nope"; "/root/server"])
           Examples.running_host) = 1%Z
  /\ fst (run (deploy config Examples.unknown_image "deploy.sh"
                ["rajibsalui/my-express-server:nope"; "/root/server"])
              Examples.running_host) <> 0%Z
  /\ same_host Examples.running_host
       (snd (run (deploy config Examples.unknown_image "deploy.sh"
                   ["rajibsalui/my-express-server:nope"; "/root/server"])
                 Examples.running_host))
  /\ commands
       (trace (snd (run (deploy config Examples.unknown_image "deploy.sh"
                          ["rajibsalui/my-express-server:nope"; "/root/server"])
                        Examples.running_host))) =
     [DockerPull "rajibsalui/my-express-server:nope"].
Proof.
  apply (pull_failure_leaves_host_unchanged config Examples.unknown_image
           "deploy.sh" ["rajibsalui/my-express-server:nope"; "/root/server"]
           Examples.running_host).
  - reflexivity.
  - cbn. discriminate.
Defined.

End Rollout.

(** ** Supersession in the strict variant *)
Module Supersession.
Import Shell Deploy Spec ShellFacts.

Section Extends.

Lemma extends_ret {A} (a : A) : extends_trace (mret a : Sh A).
Proof. intros s. exists []. cbn. rewrite app_nil_r. reflexivity. Qed.

Lemma extends_exit {A} c : extends_trace (exit c : Sh A).
Proof. intros s. exists []. cbn. rewrite app_nil_r. reflexivity. Qed.

Lemma extends_emit e : extends_trace (emit e).
Proof. intros s. exists [e]. reflexivity. Qed.

Lemma extends_get : extends_trace get.
Proof. intros s. exists []. cbn. rewrite app_nil_r. reflexivity. Qed.

Lemma extends_set_containers cs : extends_trace (set_containers cs).
Proof. intros s. exists []. cbn. rewrite app_nil_r. reflexivity. Qed.

Lemma extends_bind {A B} (m : Sh A) (k : A -> Sh B) :
  extends_trace m -> (forall a, extends_trace (k a)) ->
  extends_trace (m ≫= k).
Proof.
  intros Hm Hk s. unfold mbind, Sh_bind, bind.
  destruct (Hm s) as [t1 H1]. destruct (m s) as [[a|c] s1]; cbn in H1.
  - destruct (Hk a s1) as [t2 H2]. exists (t1 ++ t2).
    rewrite H2, H1, app_assoc. reflexivity.
  - exists t1. exact H1.
Qed.

Lemma extends_if {A} (b : bool) (m1 m2 : Sh A) :
  extends_trace m1 -> extends_trace m2 ->
  extends_trace (if b then m1 else m2).
Proof. destruct b; auto. Qed.

End Extends.

Section Strict.
Variable cfg : Config.
Variable E : Env.

Lemma extends_external loud c st : extends_trace (external loud c st).
Proof.
  unfold external.
  repeat first [apply extends_bind | apply extends_if | apply extends_emit
               | apply extends_ret | intros].
Qed.

Lemma extends_errexit m : extends_trace m -> extends_trace (errexit m).
Proof.
  intros H. unfold errexit. apply extends_bind; [exact H|].
  intros status. apply extends_if; [apply extends_ret|apply extends_exit].
Qed.

Lemma extends_health_loop budget : forall n sc,
  extends_trace (health_loop cfg E budget n sc).
Proof.
  induction budget as [|b IH]; intros n sc; cbn [health_loop].
  - apply extends_ret.
  - apply extends_if; [apply extends_ret|]. apply extends_bind.
    + unfold poll.
      repeat first [apply extends_errexit | apply extends_external
                   | apply extends_emit | apply extends_get
                   | apply extends_ret | apply extends_exit
                   | apply extends_if | apply extends_bind
                   | progress cbv zeta | intros].
    + intros st. apply extends_if; unfold echo;
        repeat first [apply IH | apply extends_errexit | apply extends_external
                     | apply extends_emit | apply extends_ret
                     | apply extends_bind | intros].
Qed.

Lemma extends_health_check : extends_trace (health_check cfg E).
Proof.
  unfold health_check, echo. apply extends_bind; [apply extends_emit|].
  intros _. apply extends_bind; [apply extends_health_loop|].
  intros [st|]; unfold verify, echo;
    repeat first [apply extends_errexit | apply extends_external
                 | apply extends_emit | apply extends_ret | apply extends_exit
                 | apply extends_if | apply extends_bind | intros].
Qed.

Lemma extends_cleanup : extends_trace (cleanup E).
Proof.
  unfold cleanup, echo.
  repeat first [apply extends_errexit | apply extends_external
               | apply extends_emit | apply extends_bind | intros].
Qed.

(** One pass of a [while read] loop: the attempt is announced, both
    commands are tried, and their failures are neither reported nor
    fatal. *)
Lemma stop_and_remove_hands_over container s :
  exists s' t,
    stop_and_remove E container s = (Next tt, s')
    /\ trace s' = trace s ++ t
    /\ Forall (fun e => reports_removal_failure e = false) t
    /\ commands t = removal_attempts [container]
    /\ fs s' = fs s /\ cwd s' = cwd s.
Proof.
  unfold stop_and_remove, removal_attempts, docker_stop, docker_rm_f.
  cbn [flat_map]. rewrite app_nil_r.
  destruct (Text.is_null container); cbn [negb].
  - exists s, []. cbn. rewrite app_nil_r. repeat split; constructor.
  - destruct (stop_status E container =? 0)%Z eqn:Hs;
      destruct (rm_status E container =? 0)%Z eqn:Hr; sh_cases;
      eexists _, _; (split; [reflexivity|]); cbn;
      (split; [rewrite <- !app_assoc; reflexivity|]); cbn;
      (split; [repeat constructor|]); repeat split.
Qed.

Lemma while_read_hands_over names : forall s,
  exists s' t,
    while_read E names s = (Next tt, s')
    /\ trace s' = trace s ++ t
    /\ Forall (fun e => reports_removal_failure e = false) t
    /\ commands t = removal_attempts names
    /\ fs s' = fs s /\ cwd s' = cwd s.
Proof.
  induction names as [|c names IH]; intros s.
  - exists s, []. cbn. rewrite app_nil_r. repeat split; constructor.
  - destruct (stop_and_remove_hands_over c s)
      as (s1 & t1 & H1 & Ht1 & Hq1 & Hc1 & Hf1 & Hd1).
    destruct (IH s1) as (s2 & t2 & H2 & Ht2 & Hq2 & Hc2 & Hf2 & Hd2).
    exists s2, (t1 ++ t2). cbn [while_read].
    rewrite (bind_next _ _ _ _ _ H1), H2. split; [reflexivity|].
    split; [rewrite Ht2, Ht1, app_assoc; reflexivity|].
    split; [apply Forall_app; auto|].
    split.
    + rewrite commands_app, Hc1, Hc2. unfold removal_attempts. cbn.
      rewrite app_nil_r. reflexivity.
    + split; congruence.
Qed.

(** The names on the lines of [docker ps -a] that hold the text 8080. *)
Lemma port_holders_eq s :
  exists t,
    port_holders E s =
    (Next (if (ps_all_status E =? 0)%Z then names_on_8080 (containers s)
           else []),
     {| fs := fs s; cwd := cwd s; containers := containers s;
        trace := trace s ++ t |})
    /\ Forall (fun e => reports_removal_failure e = false) t
    /\ commands t = [DockerPsAll].
Proof.
  unfold port_holders.
  destruct (ps_all_status E =? 0)%Z eqn:Hp; sh_cases;
    eexists; (split; [rewrite <- ?app_assoc; reflexivity|]);
    split; repeat constructor.
Qed.

Lemma image_descendants_eq s :
  exists t,
    image_descendants E s =
    (Next (if (ps_ancestor_status E =? 0)%Z
           then names_of_descendants (repo_coordinate E) (containers s)
           else []),
     {| fs := fs s; cwd := cwd s; containers := containers s;
        trace := trace s ++ t |})
    /\ Forall (fun e => reports_removal_failure e = false) t
    /\ commands t = [DockerPsAncestor (repo_coordinate E)].
Proof.
  unfold image_descendants.
  destruct (ps_ancestor_status E =? 0)%Z eqn:Hp; sh_cases;
    eexists; (split; [rewrite <- ?app_assoc; reflexivity|]);
    split; repeat constructor.
Qed.

(** Whatever docker answers, the supersession step hands over to the
    command that follows it.  The first loop reads the names listed from
    the containers of the start, the second one those listed from the
    containers [cs] that the first loop left. *)
Lemma supersede_hands_over s :
  exists s' t cs,
    supersede E s = (Next tt, s')
    /\ trace s' = trace s ++ t
    /\ Forall (fun e => reports_removal_failure e = false) t
    /\ commands t =
       DockerPsAll
       :: removal_attempts
            (if (ps_all_status E =? 0)%Z then names_on_8080 (containers s)
             else [])
       ++ DockerPsAncestor (repo_coordinate E)
          :: removal_attempts
               (if (ps_ancestor_status E =? 0)%Z
                then names_of_descendants (repo_coordinate E) cs
                else [])
       ++ [ComposeDown]
    /\ fs s' = fs s /\ cwd s' = cwd s.
Proof.
  unfold supersede. rewrite Rollout.echo_then.
  match goal with |- context [(port_holders E ≫= _) ?s0] =>
    destruct (port_holders_eq s0) as (t1 & H1 & Hq1 & Hc1)
  end.
  rewrite (bind_next _ _ _ _ _ H1). cbn [containers].
  set (names1 := if (ps_all_status E =? 0)%Z
                 then names_on_8080 (containers s) else []).
  match goal with |- context [(while_read E names1 ≫= _) ?s0] =>
    destruct (while_read_hands_over names1 s0)
      as (s2 & t2 & H2 & Ht2 & Hq2 & Hc2 & Hf2 & Hd2)
  end.
  rewrite (bind_next _ _ _ _ _ H2), Rollout.echo_then.
  match goal with |- context [(image_descendants E ≫= _) ?s0] =>
    destruct (image_descendants_eq s0) as (t3 & H3 & Hq3 & Hc3)
  end.
  rewrite (bind_next _ _ _ _ _ H3). cbn [containers].
  set (names2 := if (ps_ancestor_status E =? 0)%Z
                 then names_of_descendants (repo_coordinate E) (containers s2)
                 else []).
  match goal with |- context [(while_read E names2 ≫= _) ?s0] =>
    destruct (while_read_hands_over names2 s0)
      as (s4 & t4 & H4 & Ht4 & Hq4 & Hc4 & Hf4 & Hd4)
  end.
  rewrite (bind_next _ _ _ _ _ H4).
  cbn in Ht2, Hf2, Hd2, Ht4, Hf4, Hd4.
  unfold docker_compose_down. sh_simpl.
  eexists _, _, (containers s2). split; [reflexivity|]. cbn.
  rewrite Ht4, Ht2, Hf4, Hf2, Hd4, Hd2.
  split; [rewrite <- !app_assoc; reflexivity|].
  split.
  { repeat (apply Forall_app; split); auto; repeat constructor. }
  rewrite !commands_app, Hc1, Hc2, Hc3, Hc4. cbn.
  rewrite <- ?app_assoc. cbn. auto.
Qed.

Lemma app_dir_resolves args s :
  is_Some (HOME E) ->
  exists dir, app_dir_or_home E args s = (Next dir, s).
Proof.
  intros [h Hh]. unfold app_dir_or_home. rewrite Hh.
  destruct (args !! 1) as [a|]; [destruct (Text.is_null a)|]; eauto.
Qed.

Lemma run_trace_extends (m : Sh unit) s :
  extends_trace m -> exists t, trace (snd (run m s)) = trace s ++ t.
Proof.
  intros H. destruct (H s) as [t Ht]. exists t. unfold run.
  destruct (m s) as [[[]|c] s']; exact Ht.
Qed.

End Strict.

(** What the terminal shows of the supersession on a host whose previous
    release can be neither stopped nor removed: the two announcements,
    and nothing about the four failures. *)
Example stuck_container_log :
  List.filter visible
    (trace (snd (supersede Examples.stuck_container Examples.running_host)))
  = [Out "   Removing all containers using port 8080...";
     Out "   Stopping and removing: server-app-1";
     Out "   Removing containers with image: rajibsalui/my-express-server...";
     Out "   Stopping and removing: server-app-1"].
Proof. vm_compute. reflexivity. Qed.

End Supersession.

(** ** Facts about the text filters *)
Module TextFacts.
Import ShellFacts.

Lemma smap_app f a b :
  Text.smap f (a +:+ b) = Text.smap f a +:+ Text.smap f b.
Proof.
  induction a as [|x a IH]; [reflexivity|].
  rewrite sapp_cons. cbn. rewrite IH. reflexivity.
Qed.

Lemma sforall_app p a b :
  Text.sforall p (a +:+ b) = Text.sforall p a && Text.sforall p b.
Proof.
  induction a as [|x a IH]; [reflexivity|].
  rewrite sapp_cons. cbn. rewrite IH, andb_assoc. reflexivity.
Qed.

Lemma sfilter_app p a b :
  Text.sfilter p (a +:+ b) = Text.sfilter p a +:+ Text.sfilter p b.
Proof.
  induction a as [|x a IH]; [reflexivity|].
  rewrite sapp_cons. cbn. rewrite IH. destruct (p x); reflexivity.
Qed.

Lemma strip_snoc_char s c :
  Ascii.eqb c "010" = false ->
  Text.strip_trailing_newlines (s +:+ String c "") = s +:+ String c "".
Proof.
  intros Hc. induction s as [|a s IH].
  - rewrite !sapp_nil_l. cbn. rewrite Hc. reflexivity.
  - rewrite !sapp_cons. cbn [Text.strip_trailing_newlines]. rewrite IH.
    rewrite is_null_sapp_cons, andb_false_r. reflexivity.
Qed.

(** Stripping only looks at the end of the text. *)
Lemma strip_app_nonnull a b :
  Text.is_null (Text.strip_trailing_newlines b) = false ->
  Text.strip_trailing_newlines (a +:+ b)
  = a +:+ Text.strip_trailing_newlines b.
Proof.
  intros Hb. induction a as [|x a IH]; [reflexivity|].
  rewrite !sapp_cons. cbn [Text.strip_trailing_newlines]. rewrite IH.
  destruct (Text.strip_trailing_newlines b) as [|y r]; [discriminate|].
  rewrite is_null_sapp_cons, andb_false_r. reflexivity.
Qed.

Lemma prefix_nil b : String.prefix "" b = true.
Proof. destruct b; reflexivity. Qed.

Lemma prefix_app a b : String.prefix a (a +:+ b) = true.
Proof.
  induction a as [|x a IH]; [apply prefix_nil|].
  rewrite sapp_cons. cbn. destruct (ascii_dec x x); [exact IH|congruence].
Qed.

(** Whether [tok] starts a text is decided by the first characters. *)
Lemma prefix_long tok : forall x y,
  String.length tok <= String.length x ->
  String.prefix tok (x +:+ y) = String.prefix tok x.
Proof.
  induction tok as [|c tok IH]; intros x y Hlen;
    [rewrite !prefix_nil; reflexivity|].
  destruct x as [|d x]; [cbn in Hlen; lia|].
  rewrite sapp_cons. cbn. destruct (ascii_dec c d); [|reflexivity].
  apply IH. cbn in Hlen. lia.
Qed.

End TextFacts.

(** ** Version tag and image references *)
Module Tagging.
Import Shell Publisher Spec ShellFacts TextFacts.

Lemma substring_nonnull sha :
  Text.is_null sha = false -> Text.is_null (String.substring 0 7 sha) = false.
Proof. destruct sha; [discriminate|reflexivity]. Qed.

Lemma digit_not_newline n : Ascii.eqb (digit n) "010" = false.
Proof.
  unfold digit. pose proof (Nat.mod_upper_bound n 10 ltac:(lia)) as H.
  destruct (n mod 10) as [|k]; [reflexivity|].
  do 9 (destruct k as [|k]; [reflexivity|]). lia.
Qed.

(** The timestamp is never empty: it ends in the two digits of the
    seconds. *)
Lemma date_stamp_nonnull c :
  Text.is_null (Text.strip_trailing_newlines (date_stamp c)) = false.
Proof.
  unfold date_stamp. rewrite <- !sapp_assoc.
  set (front := Deploy.string_of_nat (year c) +:+ two_digits (month c)
                +:+ two_digits (day c) +:+ two_digits (hour c)
                +:+ two_digits (minute c)).
  rewrite sapp_assoc.
  assert (Hs : Text.strip_trailing_newlines (two_digits (second c) +:+ Text.nl)
               = two_digits (second c)).
  { unfold two_digits. rewrite !sapp_cons, sapp_nil_l.
    cbn [Text.strip_trailing_newlines Text.nl Text.is_null].
    rewrite !digit_not_newline. reflexivity. }
  rewrite strip_app_nonnull; rewrite Hs; [|reflexivity].
  unfold two_digits. apply is_null_sapp_cons.
Qed.


(** Stripping keeps what holds of every character. *)
Lemma sforall_strip p s :
  Text.sforall p s = true ->
  Text.sforall p (Text.strip_trailing_newlines s) = true.
Proof.
  induction s as [|c s IH]; [reflexivity|]. cbn. intros H.
  apply andb_true_iff in H as [Hc Hs].
  destruct (Ascii.eqb c "010"
            && Text.is_null (Text.strip_trailing_newlines s));
    [reflexivity|].
  cbn. rewrite Hc, (IH Hs). reflexivity.
Qed.

(** The three ways the tag resolution can go. *)
Lemma resolve_tag_cases E s :
  fst (resolve_tag E s)
  = if git_declines E then Exit (fst (rev_parse_short E))
    else Next (preferred_tag E).
Proof.
  unfold git_declines, resolve_tag, preferred_tag, commit_available,
    git_usable.
  destruct (Text.is_null (or_empty (GITHUB_SHA E))); cbn [negb andb];
    [|reflexivity].
  destruct (git_on_path E); cbn [andb]; [|reflexivity].
  destruct (inside_work_tree E =? 0)%Z eqn:Hin; cbn [andb]; sh_cases;
    [|reflexivity].
  destruct (fst (rev_parse_short E) =? 0)%Z eqn:Hrev; sh_cases; reflexivity.
Qed.



Example tag_from_the_ci : preferred_tag Examples.ci_env = "abc1234".
Proof. reflexivity. Qed.

Example tag_from_git : preferred_tag Examples.two_services = "9fceb02".
Proof. reflexivity. Qed.


(** *** The image references *)

Lemma filters_range c :
  lower_digit_dash (outside_to_dash (to_lower c)) = true.
Proof. destruct c as [[] [] [] [] [] [] [] []]; reflexivity. Qed.

Lemma tr_filters_range s : Text.sforall lower_digit_dash (tr_filters s) = true.
Proof.
  unfold tr_filters. induction s as [|c s IH]; [reflexivity|].
  cbn. rewrite filters_range, IH. reflexivity.
Qed.

Lemma echo_output_plain word :
  Text.echo_option word = false -> Text.echo_output word = word +:+ Text.nl.
Proof. unfold Text.echo_output. intros ->. reflexivity. Qed.

(** A text of more than one line is never taken for options. *)
Lemma echo_option_newline a b :
  Text.echo_option (a +:+ String "010" b) = false.
Proof.
  destruct a as [|c a]; [reflexivity|]. rewrite sapp_cons.
  unfold Text.echo_option.
  destruct (ascii_dec c "-") as [->|Hc].
  - destruct a as [|d a]; [reflexivity|]. rewrite sapp_cons, <- sapp_cons.
    rewrite sforall_app. cbn. rewrite andb_false_r. reflexivity.
  - destruct c as [[] [] [] [] [] [] [] []]; try reflexivity; congruence.
Qed.

(** What the pipeline really yields for a name that [echo] prints: the
    one-for-one substitution of the name, and one more hyphen for the
    newline that [echo] appended. *)
Lemma S_SAFE_exact s :
  Text.echo_option s = false -> S_SAFE s = tr_filters s +:+ "-".
Proof.
  intros Hs. unfold S_SAFE, tr_filters.
  rewrite (echo_output_plain s Hs), !smap_app.
  change (Text.smap outside_to_dash (Text.smap to_lower Text.nl)) with "-".
  apply strip_snoc_char. reflexivity.
Qed.

(** Whatever [echo] makes of the name, the suffix stays in [a-z0-9-]. *)
Lemma S_SAFE_range s : Text.sforall lower_digit_dash (S_SAFE s) = true.
Proof. unfold S_SAFE. apply sforall_strip, tr_filters_range. Qed.

Lemma not_ifs_not_newline c :
  Text.is_ifs c = false -> Ascii.eqb c "010" = false.
Proof.
  unfold Text.is_ifs. intros H. apply orb_false_elim in H as [_ H]. exact H.
Qed.

Lemma service_name_cons c n :
  service_name (String c n) = true ->
  Text.is_ifs c = false
  /\ Text.sforall (fun c => negb (Text.is_ifs c)) n = true.
Proof.
  unfold service_name. cbn. intros H.
  apply andb_true_iff in H as [Hc Hn]. split; [|exact Hn].
  apply negb_true_iff, Hc.
Qed.

Lemma strip_word_newline n :
  Text.is_null n = false ->
  Text.sforall (fun c => negb (Text.is_ifs c)) n = true ->
  Text.strip_trailing_newlines (n +:+ Text.nl) = n.
Proof.
  induction n as [|c n IH]; [discriminate|]. intros _ Hall.
  cbn in Hall. apply andb_true_iff in Hall as [Hc Hn].
  apply negb_true_iff, not_ifs_not_newline in Hc.
  rewrite sapp_cons. cbn [Text.strip_trailing_newlines].
  rewrite Hc. cbn [andb]. destruct n as [|d n].
  - reflexivity.
  - rewrite IH by (auto; reflexivity). reflexivity.
Qed.

Lemma join_cons2 sep a b rest :
  Text.join sep (a :: b :: rest) = a +:+ sep +:+ Text.join sep (b :: rest).
Proof. reflexivity. Qed.

Lemma join_nonnull sep n rest :
  Text.is_null n = false -> Text.is_null (Text.join sep (n :: rest)) = false.
Proof.
  intros Hn. destruct n as [|c n]; [discriminate|].
  destruct rest; reflexivity.
Qed.

Lemma service_name_nonnull n : service_name n = true -> Text.is_null n = false.
Proof. destruct n; [discriminate|reflexivity]. Qed.

Lemma service_name_word n :
  service_name n = true ->
  Text.sforall (fun c => negb (Text.is_ifs c)) n = true.
Proof.
  unfold service_name. intros H. apply andb_true_iff in H as [_ H]. exact H.
Qed.

(** [SERVICES], the captured listing, is the names joined by newlines. *)
Lemma listing_captured names :
  Forall (fun n => service_name n = true) names ->
  names <> [] ->
  Text.strip_trailing_newlines (services_listing names)
  = Text.join Text.nl names.
Proof.
  induction names as [|n rest IH]; [congruence|]. intros Hall _.
  inversion Hall as [|? ? Hn Hrest]; subst.
  cbn [services_listing]. destruct rest as [|m rest'].
  - cbn [services_listing]. rewrite sapp_nil_r.
    apply strip_word_newline;
      [apply service_name_nonnull|apply service_name_word]; exact Hn.
  - rewrite join_cons2.
    assert (Hrec := IH Hrest ltac:(discriminate)).
    assert (Hnn : Text.is_null (Text.strip_trailing_newlines
                                  (services_listing (m :: rest'))) = false).
    { rewrite Hrec. apply join_nonnull, service_name_nonnull.
      inversion Hrest; assumption. }
    assert (H2 : Text.strip_trailing_newlines
                   (Text.nl +:+ services_listing (m :: rest'))
                 = Text.nl +:+ Text.strip_trailing_newlines
                                 (services_listing (m :: rest')))
      by (apply strip_app_nonnull, Hnn).
    rewrite strip_app_nonnull; rewrite H2; [|reflexivity].
    rewrite Hrec. reflexivity.
Qed.

Lemma wc_l_app a b : Text.wc_l (a +:+ b) = Text.wc_l a + Text.wc_l b.
Proof. unfold Text.wc_l. rewrite sfilter_app, sapp_length. reflexivity. Qed.

Lemma wc_l_word n :
  Text.sforall (fun c => negb (Text.is_ifs c)) n = true -> Text.wc_l n = 0.
Proof.
  unfold Text.wc_l. induction n as [|c n IH]; [reflexivity|].
  cbn. intros H. apply andb_true_iff in H as [Hc Hn].
  apply negb_true_iff, not_ifs_not_newline in Hc.
  unfold Text.is_newline. rewrite Hc. apply IH, Hn.
Qed.

Lemma wc_l_join names :
  Forall (fun n => service_name n = true) names ->
  names <> [] ->
  Text.wc_l (Text.join Text.nl names) + 1 = length names.
Proof.
  induction names as [|n rest IH]; [congruence|]. intros Hall _.
  inversion Hall as [|? ? Hn Hrest]; subst.
  destruct rest as [|m rest'].
  - cbn [Text.join String.concat length].
    rewrite (wc_l_word n (service_name_word n Hn)). reflexivity.
  - rewrite join_cons2, !wc_l_app, (wc_l_word n (service_name_word n Hn)).
    specialize (IH Hrest ltac:(discriminate)). cbn [length] in *.
    change (Text.wc_l Text.nl) with 1. lia.
Qed.

(** The captured listing is taken for options only when it is one name
    that is. *)
Lemma echo_option_listing names :
  Forall (fun n => Text.echo_option n = false) names ->
  names <> [] ->
  Text.echo_option (Text.join Text.nl names) = false.
Proof.
  intros Hall Hne. destruct names as [|n [|m rest]]; [congruence| |].
  - inversion Hall; assumption.
  - rewrite join_cons2. apply echo_option_newline.
Qed.

Lemma NUM_SERVICES_listing names :
  Forall (fun n => service_name n = true) names ->
  Forall (fun n => Text.echo_option n = false) names ->
  names <> [] ->
  NUM_SERVICES (Text.join Text.nl names) = length names.
Proof.
  intros Hall Hplain Hne. unfold NUM_SERVICES.
  rewrite (echo_output_plain _ (echo_option_listing names Hplain Hne)).
  rewrite wc_l_app.
  change (Text.wc_l Text.nl) with 1. apply wc_l_join; assumption.
Qed.

Lemma split_on_word p n :
  Text.sforall (fun c => negb (p c)) n = true -> Text.split_on p n = [n].
Proof.
  induction n as [|c n IH]; [reflexivity|]. cbn. intros H.
  apply andb_true_iff in H as [Hc Hn]. apply negb_true_iff in Hc.
  rewrite Hc, (IH Hn). reflexivity.
Qed.

Lemma split_on_word_sep p n c r :
  Text.sforall (fun c => negb (p c)) n = true ->
  p c = true ->
  Text.split_on p (n +:+ String c r) = n :: Text.split_on p r.
Proof.
  intros Hn Hc. induction n as [|d n IH].
  - rewrite sapp_nil_l. cbn. rewrite Hc. reflexivity.
  - cbn in Hn. apply andb_true_iff in Hn as [Hd Hn].
    apply negb_true_iff in Hd. rewrite sapp_cons. cbn.
    rewrite Hd, (IH Hn). reflexivity.
Qed.

(** Word splitting gives the names back. *)
Lemma words_listing names :
  Forall (fun n => service_name n = true) names ->
  names <> [] ->
  Text.words (Text.join Text.nl names) = names.
Proof.
  unfold Text.words.
  induction names as [|n rest IH]; [congruence|]. intros Hall _.
  inversion Hall as [|? ? Hn Hrest]; subst.
  destruct rest as [|m rest'].
  - cbn [Text.join String.concat].
    rewrite (split_on_word _ n (service_name_word n Hn)). cbn.
    rewrite (service_name_nonnull n Hn). reflexivity.
  - rewrite join_cons2.
    change (Text.nl +:+ Text.join Text.nl (m :: rest'))
      with (String "010" (Text.join Text.nl (m :: rest'))).
    rewrite (split_on_word_sep Text.is_ifs n "010"%char _
               (service_name_word n Hn) eq_refl).
    cbn [List.filter]. rewrite (service_name_nonnull n Hn). cbn [negb].
    rewrite (IH Hrest ltac:(discriminate)). reflexivity.
Qed.


(** C4 (amended): for a manifest that declares exactly one service the
    image reference is repo:tag, without a suffix; for more than one, the
    references are repo-<suffix>:tag, one per service in the order of the
    listing, where each suffix starts with the service name put through
    the two filters one character for one (upper case to lower case,
    anything but a letter, a digit or a hyphen to a hyphen) and holds only
    characters of [a-z0-9-].  The names are those that [echo] prints as
    they are: a name that [echo] takes for options is left out. *)
Theorem image_references repo tag names :
  Forall (fun n => service_name n = true) names ->
  Forall (fun n => Text.echo_option n = false) names ->
  names <> [] ->
  (length names = 1 ->
   image_names repo tag (Text.strip_trailing_newlines (services_listing names))
   = [repo +:+ ":" +:+ tag])
  /\ (1 < length names ->
      image_names repo tag
        (Text.strip_trailing_newlines (services_listing names))
      = map (fun s => repo +:+ "-" +:+ S_SAFE s +:+ ":" +:+ tag) names)
  /\ (forall s, In s names ->
        Text.sforall lower_digit_dash (S_SAFE s) = true
        /\ String.prefix (tr_filters s) (S_SAFE s) = true).
Proof.
  intros Hall Hplain Hne. unfold image_names.
  rewrite (listing_captured names Hall Hne),
          (NUM_SERVICES_listing names Hall Hplain Hne),
          (words_listing names Hall Hne).
  split; [|split].
  - intros Hlen. rewrite Hlen. reflexivity.
  - intros Hlen. destruct (Nat.eqb_spec (length names) 1) as [Heq|_]; [lia|].
    reflexivity.
  - intros s Hin. split; [apply S_SAFE_range|].
    rewrite S_SAFE_exact; [apply prefix_app|].
    exact (proj1 (List.Forall_forall _ _) Hplain s Hin).
Qed.

(** A manifest with the two services web and a__b. *)
Lemma two_service_references :
  (length ["web"; "a__b"] = 1 ->
   image_names "rajibsalui/my-express-server" "9fceb02"
     (Text.strip_trailing_newlines (services_listing ["web"; "a__b"]))
   = ["rajibsalui/my-express-server" +:+ ":" +:+ "9fceb02"])
  /\ (1 < length ["web"; "a__b"] ->
      image_names "rajibsalui/my-express-server" "9fceb02"
        (Text.strip_trailing_newlines (services_listing ["web"; "a__b"]))
      = map (fun s => "rajibsalui/my-express-server" +:+ "-" +:+ S_SAFE s
                      +:+ ":" +:+ "9fceb02") ["web"; "a__b"])
  /\ (forall s, In s ["web"; "a__b"] ->
        Text.sforall lower_digit_dash (S_SAFE s) = true
        /\ String.prefix (tr_filters s) (S_SAFE s) = true).
Proof.
  apply (image_references "rajibsalui/my-express-server" "9fceb02"
           ["web"; "a__b"]).
  - repeat constructor.
  - repeat constructor.
  - discriminate.
Defined.

(** The names left out.  [echo -n] prints nothing: a lone service -n is
    counted as no service, takes the arm of several services and gets
    the empty suffix.  [echo -e] prints an empty line: among several
    services the suffix of -e is a lone hyphen. *)
Example names_taken_for_options :
  NUM_SERVICES "-n" = 0
  /\ image_names "rajibsalui/my-express-server" "9fceb02" "-n"
     = ["rajibsalui/my-express-server-:9fceb02"]
  /\ S_SAFE "-e" = "-"
  /\ image_names "rajibsalui/my-express-server" "9fceb02" "-e"
     = ["rajibsalui/my-express-server:9fceb02"].
Proof. repeat split; vm_compute; reflexivity. Qed.

Example one_service_reference :
  image_names "rajibsalui/my-express-server" "abc1234"
    (Text.strip_trailing_newlines (services_listing ["app"]))
  = ["rajibsalui/my-express-server:abc1234"].
Proof. reflexivity. Qed.

(** C4 as stated fails on the manifest with the services web and a__b:
    the script names the images ...-web- and ...-a--b-, the sanitization
    of the specification would give ...-web and ...-a-b. *)
Lemma runs_are_not_collapsed :
  image_names "rajibsalui/my-express-server" "9fceb02"
    (Text.strip_trailing_newlines (services_listing ["web"; "a__b"]))
  = ["rajibsalui/my-express-server-web-:9fceb02";
     "rajibsalui/my-express-server-a--b-:9fceb02"]
  /\ map (spec_image_name "rajibsalui/my-express-server" "9fceb02")
         ["web"; "a__b"]
     = ["rajibsalui/my-express-server-web:9fceb02";
        "rajibsalui/my-express-server-a-b:9fceb02"]
  /\ image_names "rajibsalui/my-express-server" "9fceb02"
       (Text.strip_trailing_newlines (services_listing ["web"; "a__b"]))
     <> map (spec_image_name "rajibsalui/my-express-server" "9fceb02")
            ["web"; "a__b"].
Proof.
  split; [vm_compute; reflexivity|].
  split; [vm_compute; reflexivity|].
  vm_compute. discriminate.
Qed.

End Tagging.

(** ** The workflow patch *)
Module WorkflowPatch.
Import Shell Publisher Spec ShellFacts TextFacts.

(** The characters of a match that are still to be dropped are dropped. *)
Lemma replace_aux_skip tok tag : forall a rest,
  replace_all_aux tok tag (String.length a) (a +:+ rest)
  = replace_all_aux tok tag 0 rest.
Proof.
  induction a as [|c a IH]; intros rest.
  - rewrite sapp_nil_l. destruct rest; reflexivity.
  - rewrite sapp_cons. cbn. apply IH.
Qed.

Lemma replace_at_match tok tag rest :
  Text.is_null tok = false ->
  replace_all tok tag (tok +:+ rest) = tag +:+ replace_all tok tag rest.
Proof.
  unfold replace_all. destruct tok as [|c tok']; [discriminate|]. intros _.
  rewrite sapp_cons. cbn [replace_all_aux].
  rewrite <- sapp_cons, prefix_app.
  replace (String.length (String c tok') - 1) with (String.length tok')
    by (cbn; lia).
  rewrite replace_aux_skip. reflexivity.
Qed.

(** A stretch inside which no occurrence starts is copied, and the
    occurrence that follows it is replaced. *)
Lemma replace_stretch_then_match tok tag seg : forall rest,
  Text.is_null tok = false ->
  starts_inside tok seg tok = false ->
  replace_all tok tag (seg +:+ tok +:+ rest)
  = seg +:+ tag +:+ replace_all tok tag rest.
Proof.
  induction seg as [|c seg IH]; intros rest Htok Hclean.
  - rewrite !sapp_nil_l. apply replace_at_match, Htok.
  - cbn [starts_inside] in Hclean.
    apply orb_false_elim in Hclean as [Hhere Hlater].
    rewrite !sapp_cons. unfold replace_all. cbn [replace_all_aux].
    replace (String c (seg +:+ tok +:+ rest))
      with ((String c seg +:+ tok) +:+ rest)
      by (rewrite sapp_assoc; reflexivity).
    rewrite prefix_long, Hhere.
    + f_equal. apply IH; assumption.
    + rewrite sapp_length. lia.
Qed.

Lemma replace_clean tok tag seg :
  starts_inside tok seg "" = false -> replace_all tok tag seg = seg.
Proof.
  induction seg as [|c seg IH]; intros Hclean; [reflexivity|].
  cbn [starts_inside] in Hclean.
  apply orb_false_elim in Hclean as [Hhere Hlater].
  rewrite sapp_nil_r in Hhere.
  unfold replace_all. cbn [replace_all_aux]. rewrite Hhere.
  f_equal. apply IH, Hlater.
Qed.

(** Every occurrence found by the scan is replaced, and nothing else is
    touched: a text cut at those occurrences is put together again with
    the tag in their place. *)
Lemma replace_all_join tok tag segs :
  Text.is_null tok = false ->
  separated tok segs = true ->
  replace_all tok tag (Text.join tok segs) = Text.join tag segs.
Proof.
  intros Htok. induction segs as [|seg rest IH]; intros Hsep; [reflexivity|].
  destruct rest as [|seg' rest'].
  - cbn in Hsep |- *. apply replace_clean, negb_true_iff, Hsep.
  - cbn [separated] in Hsep. apply andb_true_iff in Hsep as [Hseg Hrest].
    apply negb_true_iff in Hseg.
    change (Text.join tok (seg :: seg' :: rest'))
      with (seg +:+ tok +:+ Text.join tok (seg' :: rest')).
    change (Text.join tag (seg :: seg' :: rest'))
      with (seg +:+ tag +:+ Text.join tag (seg' :: rest')).
    rewrite replace_stretch_then_match by assumption.
    rewrite (IH Hrest). reflexivity.
Qed.

(** [grep] finds the token exactly when an occurrence starts somewhere. *)
Lemma contains_starts_inside tok s :
  Text.is_null tok = false ->
  Text.contains tok s = starts_inside tok s "".
Proof.
  intros Htok. induction s as [|c s IH].
  - cbn. destruct tok; [discriminate|reflexivity].
  - cbn [Text.contains starts_inside]. rewrite sapp_nil_r, IH. reflexivity.
Qed.

Lemma prefix_split a : forall s,
  String.prefix a s = true -> exists rest, s = a +:+ rest.
Proof.
  induction a as [|c a IH]; intros s H.
  - exists s. reflexivity.
  - destruct s as [|d s]; [discriminate|]. cbn in H.
    destruct (ascii_dec c d) as [->|]; [|discriminate].
    destruct (IH s H) as [rest ->]. exists rest. reflexivity.
Qed.

(** The leftmost occurrence of the token cuts a text that holds it. *)
Lemma first_occurrence tok s :
  starts_inside tok s "" = true ->
  exists seg rest,
    s = seg +:+ tok +:+ rest /\ starts_inside tok seg tok = false.
Proof.
  induction s as [|c s IH]; [discriminate|]. cbn [starts_inside].
  rewrite sapp_nil_r. intros H.
  destruct (String.prefix tok (String c s)) eqn:Hhere.
  - destruct (prefix_split _ _ Hhere) as [rest Hrest].
    exists "", rest. split; [exact Hrest|reflexivity].
  - cbn [orb] in H. destruct (IH H) as (seg & rest & -> & Hclean).
    exists (String c seg), rest. split; [reflexivity|].
    cbn [starts_inside]. rewrite Hclean, orb_false_r.
    destruct (Nat.le_gt_cases (String.length tok)
                (String.length (String c seg +:+ tok))) as [Hlen|Hlen].
    + rewrite <- (prefix_long tok _ rest Hlen), sapp_assoc. exact Hhere.
    + rewrite sapp_length in Hlen. lia.
Qed.

(** Every text has such a cut, so that the statement on cut texts below
    speaks of every file. *)
Lemma every_text_is_cut tok s :
  Text.is_null tok = false ->
  exists segs, s = Text.join tok segs /\ separated tok segs = true
               /\ segs <> [].
Proof.
  intros Htok.
  assert (H : forall n s, String.length s <= n ->
            exists segs, s = Text.join tok segs
                         /\ separated tok segs = true /\ segs <> []).
  { induction n as [|n IH]; intros s0 Hlen.
    - destruct s0; [|cbn in Hlen; lia]. exists [""]. repeat split. discriminate.
    - destruct (starts_inside tok s0 "") eqn:Hocc.
      + destruct (first_occurrence tok s0 Hocc) as (seg & rest & -> & Hclean).
        destruct (IH rest) as (segs & -> & Hsep & Hne).
        { rewrite !sapp_length in Hlen.
          destruct tok; [discriminate|]. cbn in Hlen. lia. }
        destruct segs as [|seg' rest']; [congruence|].
        exists (seg :: seg' :: rest'). split; [reflexivity|].
        split; [|discriminate].
        change (separated tok (seg :: seg' :: rest'))
          with (negb (starts_inside tok seg tok)
                && separated tok (seg' :: rest')).
        rewrite Hclean, Hsep. reflexivity.
      + exists [s0]. split; [reflexivity|]. split; [|discriminate].
        cbn. rewrite Hocc. reflexivity. }
  apply (H (String.length s)). lia.
Qed.

(** A tag made of letters and digits (a commit id, a timestamp) holds
    none of sed's metacharacters. *)
Lemma alnum_sed_safe tag :
  Text.sforall Text.is_alnum tag = true -> sed_safe tag = true.
Proof.
  unfold sed_safe. induction tag as [|c tag IH]; [reflexivity|].
  cbn. intros H. apply andb_true_iff in H as [Hc Htag].
  rewrite (IH Htag), andb_true_r.
  destruct c as [[] [] [] [] [] [] [] []]; try reflexivity; discriminate Hc.
Qed.

Lemma placeholder_nonnull : Text.is_null placeholder = false.
Proof. reflexivity. Qed.

Section Step.
Variable E : Env.

Lemma sed_edits_the_file bsd WF TAG content s :
  fs s !! WF = Some content ->
  sed_safe TAG = true ->
  sed_in_place E bsd TAG WF s =
  (Next 0%Z,
   {| fs := <[WF := sed_output E bsd (replace_all placeholder TAG content)]>
              (fs s);
      cwd := cwd s; containers := containers s;
      trace := trace s ++ [Run (SedInPlace bsd (sed_script TAG) WF)] |}).
Proof.
  intros Hfile Hsafe. unfold sed_in_place. sh_simpl.
  rewrite Hfile, Hsafe. reflexivity.
Qed.

(** The workflow-patch step on an existing file whose path is read as a
    path, on a host that refuses nothing. *)
Lemma patch_of_a_plain_path WF TAG content s :
  Text.is_null WF = false ->
  fs s !! WF = Some content ->
  (Text.contains placeholder content = false ->
   fst (update_workflow E WF TAG s) = Next tt
   /\ fs (snd (update_workflow E WF TAG s)) = fs s)
  /\ (Text.contains placeholder content = true ->
      sed_safe TAG = true ->
      forall segs,
        content = Text.join placeholder segs ->
        separated placeholder segs = true ->
        fst (update_workflow E WF TAG s) = Next tt
        /\ fs (snd (update_workflow E WF TAG s))
           = <[WF := sed_output E (negb (gnu_sed E)) (Text.join TAG segs)]>
               (fs s)).
Proof.
  intros Hwf Hfile. unfold update_workflow. rewrite Hwf. cbn [negb].
  sh_simpl. rewrite Hfile. split.
  - intros Hgrep. rewrite Hgrep. sh_simpl. split; reflexivity.
  - intros Hgrep Hsafe segs Hcut Hsep.
    pose proof (replace_all_join placeholder TAG segs placeholder_nonnull Hsep)
      as Hrep.
    rewrite <- Hcut in Hrep. rewrite Hgrep.
    destruct (gnu_sed E); sh_simpl;
      erewrite sed_edits_the_file by (cbn; eassumption);
      cbn; rewrite Hrep; split; reflexivity.
Qed.

(** With GNU sed the file holds the rejoined text and nothing else. *)
Lemma gnu_sed_output text : gnu_sed E = true ->
  sed_output E (negb (gnu_sed E)) text = text.
Proof. intros H. unfold sed_output. rewrite H. reflexivity. Qed.

End Step.

(** Both occurrences of the example workflow are replaced. *)
Example both_occurrences_replaced :
  fs (snd (update_workflow Examples.ci_env ".github/workflows/deploy.yml"
             "abc1234" Examples.checkout))
  !! ".github/workflows/deploy.yml"
  = Some ("env:" +:+ Text.nl
          +:+ "  IMAGE_TAG: abc1234" +:+ Text.nl
          +:+ "  IMAGE: rajibsalui/my-express-server:abc1234" +:+ Text.nl).
Proof. vm_compute. reflexivity. Qed.

(** A file without the token: nothing is written. *)
Example file_without_token_unchanged :
  update_workflow Examples.ci_env "docker-compose.yml" "abc1234"
    Examples.checkout
  = (log "No __IMAGE_TAG__ placeholder found in docker-compose.yml. Nothing changed. To enable automatic update,";;
     log "add the literal token __IMAGE_TAG__ at the correct place in the workflow file.";;
     log "Example usage in workflow YAML (deploy step env or tag field):";;
     echo_all placeholder_example) Examples.checkout.
Proof. vm_compute. reflexivity. Qed.

End WorkflowPatch.

(** ** Outcome of the Image Publisher *)
Module Publishing.
Import Shell Publisher Spec ShellFacts.

Section Orderly.

Lemma orderly_ret {A} (a : A) : orderly (mret a : Sh A).
Proof. intros s. split; [discriminate|reflexivity]. Qed.

Lemma orderly_exit {A} c : c <> 0%Z -> orderly (exit c : Sh A).
Proof.
  intros Hc s. split; [|reflexivity]. cbn. intros c' H.
  injection H as <-. exact Hc.
Qed.

Lemma orderly_emit e : orderly (emit e).
Proof. intros s. split; [discriminate|reflexivity]. Qed.

Lemma orderly_get : orderly get.
Proof. intros s. split; [discriminate|reflexivity]. Qed.

Lemma orderly_bind {A B} (m : Sh A) (k : A -> Sh B) :
  orderly m -> (forall a, orderly (k a)) -> orderly (m ≫= k).
Proof.
  intros Hm Hk s. unfold mbind, Sh_bind, bind.
  destruct (Hm s) as [He Hf]. destruct (m s) as [[a|c] s1]; cbn in He, Hf.
  - destruct (Hk a s1) as [He' Hf']. split; [exact He'|].
    intros q Hq. rewrite (Hf' q Hq). apply Hf, Hq.
  - split; [|exact Hf]. cbn. intros c0 H. injection H as <-.
    exact (He c eq_refl).
Qed.

Lemma orderly_if {A} (b : bool) (m1 m2 : Sh A) :
  orderly m1 -> orderly m2 -> orderly (if b then m1 else m2).
Proof. destruct b; auto. Qed.

Lemma orderly_write content : orderly (write_file OVERRIDE_FILE content).
Proof.
  intros s. split; [discriminate|]. intros q Hq. cbn.
  apply lookup_insert_ne. congruence.
Qed.

Lemma orderly_append content : orderly (append_file OVERRIDE_FILE content).
Proof.
  intros s. split; [discriminate|]. intros q Hq. cbn.
  apply lookup_insert_ne. congruence.
Qed.

Lemma orderly_external loud c st : orderly (external loud c st).
Proof.
  unfold external.
  repeat (apply orderly_bind || apply orderly_if || intros
          || apply orderly_emit || apply orderly_ret).
Qed.

Lemma orderly_status_check (status : Z) :
  orderly (if (status =? 0)%Z then mret tt else exit status : Sh unit).
Proof.
  destruct (status =? 0)%Z eqn:H; [apply orderly_ret|].
  apply orderly_exit, Z.eqb_neq, H.
Qed.

Lemma orderly_errexit m : orderly m -> orderly (errexit m).
Proof.
  intros H. unfold errexit. apply orderly_bind; [exact H|].
  intros status. apply orderly_status_check.
Qed.

Lemma orderly_log msg : orderly (log msg).
Proof. unfold log. apply orderly_bind; intros; apply orderly_emit. Qed.

Lemma orderly_err msg : orderly (err msg).
Proof. unfold err. apply orderly_bind; intros; apply orderly_emit. Qed.

Lemma orderly_echo line : orderly (echo line).
Proof. apply orderly_emit. Qed.

End Orderly.

Section Publisher.
Variable E : Env.

Lemma orderly_echo_all ls : orderly (echo_all ls).
Proof.
  induction ls; cbn [echo_all]; [apply orderly_ret|].
  apply orderly_bind; [apply orderly_echo|intros _; assumption].
Qed.

Lemma orderly_tag_services repo TAG ss : orderly (tag_services repo TAG ss).
Proof.
  induction ss; cbn [tag_services]; [apply orderly_ret|].
  repeat first [assumption | apply orderly_log | apply orderly_append
               | apply orderly_bind | progress cbv zeta | intros].
Qed.

Lemma orderly_push_all images : orderly (push_all E images).
Proof.
  induction images; cbn [push_all]; [apply orderly_ret|].
  repeat first [assumption | apply orderly_log | apply orderly_errexit
               | apply orderly_external | apply orderly_bind | intros].
Qed.

Lemma orderly_validate_env : orderly (validate_env E).
Proof.
  unfold validate_env.
  apply orderly_bind; [|intros _];
    (apply orderly_if; [|apply orderly_ret]);
    (apply orderly_bind; [apply orderly_echo|intros _]);
    apply orderly_exit; discriminate.
Qed.

Lemma orderly_resolve_tag : orderly (resolve_tag E).
Proof.
  unfold resolve_tag. apply orderly_if; [apply orderly_ret|].
  apply orderly_bind.
  { apply orderly_if; [|apply orderly_ret].
    apply orderly_bind; [apply orderly_external|intros; apply orderly_ret]. }
  intros inside. apply orderly_if; [|apply orderly_ret].
  apply orderly_bind; [apply orderly_external|].
  intros status. destruct (status =? 0)%Z eqn:H; [apply orderly_ret|].
  apply orderly_exit, Z.eqb_neq, H.
Qed.

Lemma orderly_list_services : orderly (list_services E).
Proof.
  unfold list_services. apply orderly_bind; [apply orderly_external|].
  intros status. destruct (status =? 0)%Z eqn:H; [apply orderly_ret|].
  apply orderly_exit, Z.eqb_neq, H.
Qed.

Lemma orderly_write_override repo TAG : orderly (write_override E repo TAG).
Proof.
  unfold write_override.
  apply orderly_bind; [apply orderly_log|intros _].
  apply orderly_bind; [apply orderly_list_services|intros SERVICES].
  apply orderly_bind.
  { apply orderly_if; [|apply orderly_ret].
    apply orderly_bind; [apply orderly_err|intros _].
    apply orderly_exit. discriminate. }
  intros _.
  apply orderly_bind; [apply orderly_log|intros _].
  apply orderly_bind; [apply orderly_echo_all|intros _].
  apply orderly_bind; [apply orderly_log|intros _].
  apply orderly_bind; [apply orderly_write|intros _].
  apply orderly_bind; [|intros _; apply orderly_ret].
  apply orderly_if; [|apply orderly_tag_services].
  cbv zeta. apply orderly_bind; [apply orderly_append|intros _].
  apply orderly_log.
Qed.

Lemma orderly_after_parsing (WORKFLOW_FILE_ARG : string) :
  orderly (validate_env E;;
           (TAG ← resolve_tag E;
           log ("Using Docker Hub repo: " +:+ or_empty (DOCKERHUB_REPO E));;
           log ("Computed tag: " +:+ TAG);;
           SERVICES ← write_override E (or_empty (DOCKERHUB_REPO E)) TAG;
           docker_build E;;
           docker_login E;;
           push_stage E (or_empty (DOCKERHUB_REPO E)) TAG SERVICES;;
           (mret (WORKFLOW_FILE_ARG, TAG) : Sh (string * string)))).
Proof.
  apply orderly_bind; [apply orderly_validate_env|intros _].
  apply orderly_bind; [apply orderly_resolve_tag|intros TAG].
  apply orderly_bind; [apply orderly_log|intros _].
  apply orderly_bind; [apply orderly_log|intros _].
  apply orderly_bind; [apply orderly_write_override|intros SERVICES].
  apply orderly_bind; [|intros _].
  { unfold docker_build. apply orderly_bind; [apply orderly_log|intros _].
    apply orderly_errexit, orderly_external. }
  apply orderly_bind; [|intros _].
  { unfold docker_login. apply orderly_bind; [apply orderly_log|intros _].
    apply orderly_errexit, orderly_external. }
  apply orderly_bind; [|intros _; apply orderly_ret].
  unfold push_stage.
  apply orderly_bind; [apply orderly_log|intros _].
  apply orderly_bind; [apply orderly_push_all|intros _].
  apply orderly_bind; [apply orderly_log|intros _].
  apply orderly_echo_all.
Qed.


(** The argument loop writes nothing, and ends the script with status 0
    only to print the usage. *)
Lemma parse_args_cases argv0 : forall n args wf s,
  length args <= n ->
  fs (snd (parse_args argv0 args wf s)) = fs s
  /\ (forall c, fst (parse_args argv0 args wf s) = Exit c -> c = 0%Z ->
                In "--help" args \/ In "-h" args).
Proof.
  induction n as [|n IH]; intros args wf s Hlen.
  - destruct args; [|cbn in Hlen; lia]. split; [reflexivity|discriminate].
  - destruct args as [|a rest]; [split; [reflexivity|discriminate]|].
    cbn [parse_args].
    destruct (String.eqb a "--workflow-file") eqn:Hwf.
    + destruct rest as [|v rest'].
      * sh_simpl. split; [reflexivity|]. intros c H. injection H as <-.
        discriminate.
      * destruct (IH rest' v s) as [Hfs Hexit]; [cbn in Hlen; lia|].
        split; [exact Hfs|]. intros c Hc H0.
        destruct (Hexit c Hc H0) as [H|H]; [left|right];
          right; right; exact H.
    + destruct (String.eqb a "--help") eqn:Hhelp.
      * apply String.eqb_eq in Hhelp as ->. sh_simpl.
        split; [reflexivity|]. intros; left; left; reflexivity.
      * destruct (String.eqb a "-h") eqn:Hh; cbn [orb]; sh_simpl.
        -- apply String.eqb_eq in Hh as ->.
           split; [reflexivity|]. intros; right; left; reflexivity.
        -- split; [reflexivity|]. intros c H. injection H as <-.
           discriminate.
Qed.

Lemma publish_cases argv0 args s :
  (forall q, q <> OVERRIDE_FILE ->
             fs (snd (publish E argv0 args s)) !! q = fs s !! q)
  /\ (forall c, fst (publish E argv0 args s) = Exit c -> c = 0%Z ->
                In "--help" args \/ In "-h" args).
Proof.
  unfold publish.
  destruct (parse_args_cases argv0 (length args) args "" s (le_n _))
    as [Hfs Hexit].
  destruct (parse_args argv0 args "" s) as [[wf|c] s1] eqn:Hp;
    cbn [fst snd] in Hfs, Hexit.
  - rewrite (bind_next _ _ _ _ _ Hp).
    destruct (orderly_after_parsing wf s1) as [He Hf].
    split.
    + intros q Hq. rewrite <- Hfs. exact (Hf q Hq).
    + intros c Hc H0. exfalso. exact (He c Hc H0).
  - rewrite (bind_exit _ _ _ _ _ Hp). cbn [fst snd].
    split; [intros; rewrite Hfs; reflexivity|].
    intros c0 H. injection H as <-. exact (Hexit c eq_refl).
Qed.

(** The workflow step ends the script only through a failing sed. *)
Lemma update_workflow_exit WF TAG s c :
  fst (update_workflow E WF TAG s) = Exit c -> c <> 0%Z.
Proof.
  unfold update_workflow. destruct (Text.is_null WF); cbn [negb];
    [sh_simpl; discriminate|].
  sh_simpl. destruct (fs s !! WF) as [content|] eqn:Hfile;
    [|sh_simpl; discriminate].
  destruct (Text.contains placeholder content); [|sh_simpl; discriminate].
  unfold sed_in_place.
  destruct (gnu_sed E); sh_simpl; rewrite Hfile;
    (destruct (sed_safe TAG);
     [sh_simpl; discriminate|]);
    (destruct (fst (sed_special E TAG content) =? 0)%Z eqn:Hst;
     sh_cases; [discriminate|]);
    intros H; injection H as <-; apply Z.eqb_neq, Hst.
Qed.

(** On a host that refuses nothing, a run that was not asked for its
    usage and ends with exit status 0 has removed the tagging override. *)
Lemma exit_zero_removes_override argv0 args s :
  ~ In "--help" args ->
  ~ In "-h" args ->
  fst (run (build_and_push E argv0 args) s) = 0%Z ->
  fs (snd (run (build_and_push E argv0 args) s)) !! OVERRIDE_FILE = None.
Proof.
  intros Hhelp Hh. unfold run, build_and_push.
  destruct (publish_cases argv0 args s) as [_ Hexit].
  destruct (publish E argv0 args s) as [[r|c] s1] eqn:Hp;
    cbn [fst snd] in Hexit.
  - rewrite (bind_next _ _ _ _ _ Hp).
    pose proof (update_workflow_exit (fst r) (snd r) s1) as Hwf.
    destruct (update_workflow E (fst r) (snd r) s1) as [[[]|c] s2] eqn:Hu;
      cbn [fst snd] in Hwf.
    + rewrite (bind_next _ _ _ _ _ Hu). intros _.
      unfold cleanup. sh_simpl. apply lookup_delete_eq.
    + rewrite (bind_exit _ _ _ _ _ Hu). cbn [fst snd].
      intros H0. exfalso. exact (Hwf c eq_refl H0).
  - rewrite (bind_exit _ _ _ _ _ Hp). cbn [fst snd].
    intros H0. destruct (Hexit c eq_refl H0); contradiction.
Qed.


End Publisher.



End Publishing.

(** ** Frames: properties kept by every step of a script *)
Module Frames.
Import Shell Spec ShellFacts.

Lemma run_snd (m : Sh unit) s : snd (run m s) = snd (m s).
Proof. unfold run. destruct (m s) as [[[]|c] s']; reflexivity. Qed.

Lemma run_exit (m : Sh unit) s c : fst (m s) = Exit c -> fst (run m s) = c.
Proof. unfold run. destruct (m s) as [[[]|c'] s']; cbn; congruence. Qed.

Lemma run_next (m : Sh unit) s : fst (m s) = Next tt -> fst (run m s) = 0%Z.
Proof. unfold run. destruct (m s) as [[[]|c'] s']; cbn; congruence. Qed.

(** Sequencing is associative, state by state. *)
Lemma bind_assoc_at {A B C} (m : Sh A) (k : A -> Sh B) (h : B -> Sh C) s :
  ((m ≫= k) ≫= h) s = (m ≫= (fun a => k a ≫= h)) s.
Proof.
  unfold mbind, Sh_bind, bind. destruct (m s) as [[a|c] s1]; reflexivity.
Qed.

#[global] Instance same_host_preorder : PreOrder same_host.
Proof.
  split.
  - intros s. repeat split.
  - intros a b c (H1 & H2 & H3) (H4 & H5 & H6). repeat split; congruence.
Qed.

#[global] Instance unless_preorder C R `{!PreOrder R} : PreOrder (unless C R).
Proof.
  split.
  - intros s. right. reflexivity.
  - intros a b c [H|H1] [H'|H2]; [left; assumption ..|].
    right. transitivity b; assumption.
Qed.

Section Preorder.
Context (R : relation State) `{!PreOrder R}.

Lemma preserves_ret {A} (a : A) : preserves R (mret a : Sh A).
Proof. intros s. cbn. reflexivity. Qed.

Lemma preserves_exit {A} c : preserves R (exit c : Sh A).
Proof. intros s. cbn. reflexivity. Qed.

Lemma preserves_get : preserves R get.
Proof. intros s. cbn. reflexivity. Qed.

Lemma preserves_bind {A B} (m : Sh A) (k : A -> Sh B) :
  preserves R m -> (forall a, preserves R (k a)) -> preserves R (m ≫= k).
Proof.
  intros Hm Hk s. unfold mbind, Sh_bind, bind. specialize (Hm s).
  destruct (m s) as [[a|c] s1]; cbn in Hm |- *; [|exact Hm].
  transitivity s1; [exact Hm|apply Hk].
Qed.

Lemma preserves_then {A B} (m : Sh A) (k : Sh B) :
  preserves R m -> preserves R k -> preserves R (m;; k).
Proof. intros Hm Hk. apply preserves_bind; [exact Hm|intros _; exact Hk]. Qed.

Lemma preserves_if {A} (b : bool) (m1 m2 : Sh A) :
  preserves R m1 -> preserves R m2 -> preserves R (if b then m1 else m2).
Proof. destruct b; auto. Qed.

Lemma preserves_external loud c st :
  preserves R (emit (Run c)) -> preserves R (emit (Diag c)) ->
  preserves R (external loud c st).
Proof.
  intros Hrun Hdiag. unfold external.
  apply preserves_then; [exact Hrun|]. apply preserves_then.
  - apply preserves_if; [exact Hdiag|apply preserves_ret].
  - apply preserves_ret.
Qed.

(** A command that succeeds leaves no diagnostics. *)
Lemma preserves_external_ok loud c :
  preserves R (emit (Run c)) -> preserves R (external loud c 0).
Proof.
  intros Hrun. unfold external. rewrite andb_false_r.
  repeat apply preserves_then; [exact Hrun|apply preserves_ret ..].
Qed.

Lemma preserves_errexit m : preserves R m -> preserves R (errexit m).
Proof.
  intros H. unfold errexit. apply preserves_bind; [exact H|].
  intros status. apply preserves_if; [apply preserves_ret|apply preserves_exit].
Qed.

Lemma preserves_or_true m : preserves R m -> preserves R (or_true m).
Proof.
  intros H. unfold or_true. apply preserves_then; [exact H|apply preserves_ret].
Qed.

(** What follows a command in errexit position runs only when the command
    succeeded. *)
Lemma preserves_guarded {B} loud c st (k : Sh B) :
  preserves R (external loud c st) ->
  (st = 0%Z -> preserves R k) ->
  preserves R (errexit (external loud c st);; k).
Proof.
  intros Hc Hk s. unfold errexit.
  assert (Hext : forall s0, fst (external loud c st s0) = Next st).
  { intros s0. unfold external. sh_simpl.
    destruct (loud && negb (st =? 0)%Z); reflexivity. }
  specialize (Hc s). specialize (Hext s).
  unfold mbind, Sh_bind, bind.
  destruct (external loud c st s) as [[st'|c'] s1]; cbn in Hc, Hext |- *;
    [|discriminate].
  injection Hext as ->. destruct (Z.eqb_spec st 0) as [Hz|Hnz]; cbn.
  - transitivity s1; [exact Hc|apply (Hk Hz)].
  - exact Hc.
Qed.

End Preorder.

End Frames.

(** Applies a frame lemma; the order it speaks of is found by instance
    search. *)
Tactic Notation "frame" uconstr(l) := apply l; try exact _.

(** ** The Rollout Executor: validation, start, and what is never undone *)
Module RolloutSteps.
Import Shell Deploy Variants Spec ShellFacts Frames.

Lemma same_host_emit e : preserves same_host (emit e).
Proof. intros s. repeat split. Qed.

Section Host.
Variable cfg : Config.
Variable E : Env.

Lemma same_host_external loud c st : preserves same_host (external loud c st).
Proof. frame preserves_external; apply same_host_emit. Qed.

Lemma same_host_poll : preserves same_host (poll cfg E).
Proof.
  unfold poll. frame preserves_bind; [frame preserves_get|intros s0].
  cbv zeta. frame preserves_then; [apply same_host_external|].
  frame preserves_ret.
Qed.

Lemma same_host_health_loop budget : forall n sc,
  preserves same_host (health_loop cfg E budget n sc).
Proof.
  induction budget as [|b IH]; intros n sc; cbn [health_loop].
  - frame preserves_ret.
  - frame preserves_if; [frame preserves_ret|].
    frame preserves_bind; [apply same_host_poll|intros st].
    frame preserves_if.
    + frame preserves_then; [apply same_host_emit|frame preserves_ret].
    + cbv zeta. frame preserves_then; [apply same_host_emit|].
      frame preserves_then; [frame preserves_errexit; apply same_host_external|].
      apply IH.
Qed.

Lemma same_host_verify sc : preserves same_host (verify cfg E sc).
Proof.
  destruct sc as [st|]; cbn [verify].
  - frame preserves_if; [|frame preserves_ret].
    repeat first [ apply same_host_emit | frame preserves_exit
                 | frame preserves_errexit; apply same_host_external
                 | frame preserves_then ].
  - frame preserves_then; [apply same_host_emit|frame preserves_exit].
Qed.

Lemma same_host_health_check : preserves same_host (health_check cfg E).
Proof.
  unfold health_check. frame preserves_then; [apply same_host_emit|].
  frame preserves_bind; [apply same_host_health_loop|apply same_host_verify].
Qed.

Lemma same_host_cleanup : preserves same_host (cleanup E).
Proof.
  unfold cleanup.
  repeat first [ apply same_host_emit
               | frame preserves_errexit; apply same_host_external
               | frame preserves_then ].
Qed.

(** The start step: the containers are what [docker compose up] makes of
    the manifests, and a failure ends the script. *)
Lemma up_step s :
  errexit (docker_compose_up E) s =
  ((if (up_status E =? 0)%Z then Next tt else Exit (up_status E)),
   {| fs := fs s; cwd := cwd s;
      containers := up_containers E (fs s) (cwd s) (containers s);
      trace := trace s ++ Run ComposeUp
                 :: (if (up_status E =? 0)%Z then [] else [Diag ComposeUp]) |}).
Proof.
  unfold docker_compose_up.
  destruct (up_status E =? 0)%Z eqn:Hup; sh_cases;
    rewrite <- ?app_assoc; reflexivity.
Qed.

(** scripts/deploy.sh up to the start step, once the image is pulled. *)
Lemma deploy_pins argv0 args s :
  Text.is_null (param_or args 0 "") = false ->
  pull_status E (param_or args 0 "") = 0%Z ->
  exists t,
    deploy cfg E argv0 args s =
    (errexit (docker_compose_up E);; health_check cfg E;; cleanup E)
      {| fs := pinned args (fs s); cwd := param_or args 1 "/root/server";
         containers := containers s; trace := trace s ++ t |}
    /\ commands t = [DockerPull (param_or args 0 "")]
    /\ curl_calls t = 0.
Proof.
  intros Himg Hpull. unfold deploy. rewrite Himg.
  unfold announce, docker_pull. sh_cases.
  eexists. split.
  - rewrite <- !app_assoc. cbn [app]. reflexivity.
  - split; reflexivity.
Qed.

End Host.

(** X1: called without an image, or with an empty one, the script prints
    its two usage lines and ends with status 1: no command is run, and
    the host is left as it was.  The two variants that default the
    directory to [$HOME/server] do the same where [HOME] is set. *)
Theorem missing_image_prints_usage cfg E argv0 args s :
  args !! 0 = None \/ args !! 0 = Some "" ->
  run (deploy cfg E argv0 args) s =
    (1%Z,
     {| fs := fs s; cwd := cwd s; containers := containers s;
        trace := trace s ++
          [Out ("Usage: " +:+ argv0 +:+ " <image> [app_dir] [service_name]");
           Out ("Example: " +:+ argv0
                +:+ " username/app:abc1234 /root/server app")] |})
  /\ (is_Some (HOME E) ->
      run (deploy_down E argv0 args) s = run (deploy_strict cfg E argv0 args) s
      /\ run (deploy_strict cfg E argv0 args) s =
         (1%Z,
          {| fs := fs s; cwd := cwd s; containers := containers s;
             trace := trace s ++
               [Out ("Usage: " +:+ argv0
                     +:+ " <image> [app_dir] [service_name]");
                Out ("Example: " +:+ argv0
                     +:+ " username/app:abc1234 ~/server app")] |})).
Proof.
  intros Hargs.
  assert (Himg : Text.is_null (param_or args 0 "") = true).
  { unfold param_or. destruct Hargs as [-> | ->]; reflexivity. }
  split.
  - unfold run, deploy, usage. rewrite Himg. sh_simpl.
    rewrite <- app_assoc. reflexivity.
  - intros Hhome.
    destruct (Supersession.app_dir_resolves E args s Hhome) as [dir Hd].
    unfold run, deploy_down, deploy_strict, usage.
    rewrite !(bind_next _ _ _ _ _ Hd), Himg. sh_simpl.
    rewrite <- app_assoc. split; reflexivity.
Qed.

Lemma missing_image_on_a_running_host :
  run (deploy config Examples.always_500 "./deploy.sh" []) Examples.running_host =
    (1%Z,
     {| fs := fs Examples.running_host; cwd := cwd Examples.running_host;
        containers := containers Examples.running_host;
        trace := trace Examples.running_host ++
          [Out ("Usage: " +:+ "./deploy.sh"
                +:+ " <image> [app_dir] [service_name]");
           Out ("Example: " +:+ "./deploy.sh"
                +:+ " username/app:abc1234 /root/server app")] |})
  /\ (is_Some (HOME Examples.always_500) ->
      run (deploy_down Examples.always_500 "./deploy.sh" [])
          Examples.running_host
      = run (deploy_strict config Examples.always_500 "./deploy.sh" [])
            Examples.running_host
      /\ run (deploy_strict config Examples.always_500 "./deploy.sh" [])
             Examples.running_host =
         (1%Z,
          {| fs := fs Examples.running_host; cwd := cwd Examples.running_host;
             containers := containers Examples.running_host;
             trace := trace Examples.running_host ++
               [Out ("Usage: " +:+ "./deploy.sh"
                     +:+ " <image> [app_dir] [service_name]");
                Out ("Example: " +:+ "./deploy.sh"
                     +:+ " username/app:abc1234 ~/server app")] |})).
Proof.
  apply (missing_image_prints_usage config Examples.always_500 "./deploy.sh"
           [] Examples.running_host).
  left. reflexivity.
Defined.

(** X2: when [docker compose up] fails, the script ends there with the
    status of that command: the image was pulled and the override
    written, and the service is never polled. *)
Theorem start_failure_is_fatal cfg E argv0 args s :
  Text.is_null (param_or args 0 "") = false ->
  pull_status E (param_or args 0 "") = 0%Z ->
  up_status E <> 0%Z ->
  fst (run (deploy cfg E argv0 args) s) = up_status E
  /\ commands (trace (snd (run (deploy cfg E argv0 args) s)))
     = commands (trace s) ++ [DockerPull (param_or args 0 ""); ComposeUp]
  /\ curl_calls (trace (snd (run (deploy cfg E argv0 args) s)))
     = curl_calls (trace s)
  /\ fs (snd (run (deploy cfg E argv0 args) s)) = pinned args (fs s).
Proof.
  intros Himg Hpull Hup. apply Z.eqb_neq in Hup.
  destruct (deploy_pins cfg E argv0 args s Himg Hpull) as (t & Heq & Hc & Hk).
  unfold run. rewrite Heq.
  match goal with |- context [(errexit _ ≫= _) ?s1] =>
    rewrite (bind_exit _ _ s1 (up_status E) _
               ltac:(rewrite (up_step E s1), Hup; reflexivity))
  end.
  cbn [fst snd trace fs]. autorewrite with trace. rewrite Hc, Hk. cbn.
  rewrite <- app_assoc. repeat split; lia.
Qed.

Lemma start_failure_on_a_running_host :
  fst (run (deploy config Examples.start_fails "./deploy.sh"
             ["rajibsalui/my-express-server:abc1234"]) Examples.running_host)
  = up_status Examples.start_fails
  /\ commands
       (trace (snd (run (deploy config Examples.start_fails "./deploy.sh"
                          ["rajibsalui/my-express-server:abc1234"])
                        Examples.running_host)))
     = commands (trace Examples.running_host)
       ++ [DockerPull (param_or ["rajibsalui/my-express-server:abc1234"] 0 "");
           ComposeUp]
  /\ curl_calls
       (trace (snd (run (deploy config Examples.start_fails "./deploy.sh"
                          ["rajibsalui/my-express-server:abc1234"])
                        Examples.running_host)))
     = curl_calls (trace Examples.running_host)
  /\ fs (snd (run (deploy config Examples.start_fails "./deploy.sh"
                     ["rajibsalui/my-express-server:abc1234"])
                   Examples.running_host))
     = pinned ["rajibsalui/my-express-server:abc1234"]
         (fs Examples.running_host).
Proof.
  apply (start_failure_is_fatal config Examples.start_fails "./deploy.sh"
           ["rajibsalui/my-express-server:abc1234"] Examples.running_host).
  - reflexivity.
  - reflexivity.
  - cbn. discriminate.
Defined.



(** The override of the example host is overwritten, not merged. *)
Example override_is_overwritten :
  fs (snd (run (deploy config Examples.always_500 "./deploy.sh"
                  ["rajibsalui/my-express-server:abc1234"])
               Examples.running_host))
  !! "/root/server/docker-compose.override.yml"
  = Some ("version: " +:+ Text.dquote +:+ "3.8" +:+ Text.dquote +:+ Text.nl
          +:+ "services:" +:+ Text.nl
          +:+ "  app:" +:+ Text.nl
          +:+ "    image: rajibsalui/my-express-server:abc1234" +:+ Text.nl
          +:+ "    restart: unless-stopped" +:+ Text.nl).
Proof. vm_compute. reflexivity. Qed.

End RolloutSteps.

(** ** The polling loop in every environment *)
Module Polling.
Import Shell Deploy Spec ShellFacts Frames.

Lemma waited_app a b : waited (a ++ b) = waited a + waited b.
Proof.
  induction a as [|c a IH]; [reflexivity|].
  destruct c; cbn; rewrite ?IH; lia.
Qed.

Lemma waited_polls cfg k : waited (polls cfg k) = k * HEALTH_WAIT cfg.
Proof. induction k as [|k IH]; [reflexivity|]. cbn. rewrite IH. lia. Qed.

Section Loop.
Variable cfg : Config.
Variable E : Env.

(** Passes beyond the retry budget find the loop condition false. *)
Lemma health_loop_spare_passes budget : forall extra n sc s,
  HEALTH_RETRIES cfg <= n + budget ->
  health_loop cfg E (budget + extra) n sc s = health_loop cfg E budget n sc s.
Proof.
  induction budget as [|b IH]; intros extra n sc s Hn.
  - cbn [Nat.add health_loop]. destruct extra as [|e]; [reflexivity|].
    cbn [health_loop].
    replace (HEALTH_RETRIES cfg <=? n) with true
      by (symmetry; apply Nat.leb_le; lia).
    reflexivity.
  - cbn [Nat.add health_loop].
    destruct (HEALTH_RETRIES cfg <=? n); [reflexivity|].
    rewrite !(bind_next _ _ _ _ _ (Rollout.poll_eq cfg E s)).
    destruct (String.eqb _ "200"); [reflexivity|].
    sh_simpl. apply IH. lia.
Qed.

(** Whatever the service answers, the loop hands over after [k] failed
    polls, each followed by its wait: either the next poll got a 200, or
    the budget is used up. *)
Lemma health_loop_outcome budget : forall n sc s,
  n + budget = HEALTH_RETRIES cfg ->
  exists k sc' s',
    health_loop cfg E budget n sc s = (Next sc', s')
    /\ same_host s s'
    /\ ((k = budget
         /\ commands (trace s') = commands (trace s) ++ polls cfg k
         /\ curl_calls (trace s') = curl_calls (trace s) + k)
        \/ (k < budget /\ sc' = Some "200"
            /\ commands (trace s')
               = commands (trace s) ++ polls cfg k ++ [Curl (HEALTH_URL cfg)]
            /\ curl_calls (trace s') = curl_calls (trace s) + S k)).
Proof.
  induction budget as [|b IH]; intros n sc s Hn.
  - exists 0, sc, s. cbn. rewrite app_nil_r, Nat.add_0_r.
    split; [reflexivity|]. split; [reflexivity|]. left. auto.
  - cbn [health_loop].
    replace (HEALTH_RETRIES cfg <=? n) with false
      by (symmetry; apply Nat.leb_gt; lia).
    rewrite (bind_next _ _ _ _ _ (Rollout.poll_eq cfg E s)).
    destruct (String.eqb _ "200") eqn:Hst.
    + apply String.eqb_eq in Hst. rewrite Hst. sh_simpl.
      exists 0. eexists _, _. split; [reflexivity|]. cbn.
      split; [repeat split|]. right.
      autorewrite with trace. cbn. rewrite app_nil_r.
      repeat split; lia.
    + sh_simpl.
      match goal with |- context [health_loop cfg E b (S n) ?sc1 ?s1] =>
        destruct (IH (S n) sc1 s1 ltac:(lia)) as (k & sc' & s' & Heq & Hh & Hk)
      end.
      exists (S k), sc', s'. split; [exact Heq|].
      split; [destruct Hh as (?&?&?); repeat split; assumption|].
      cbn [trace] in Hk. autorewrite with trace in Hk. cbn in Hk.
      rewrite <- !app_assoc in Hk. cbn in Hk.
      destruct Hk as [(-> & Hc & Hq)|(Hlt & -> & Hc & Hq)].
      * left. rewrite Hc, Hq. repeat split; lia.
      * right. rewrite Hc, Hq. repeat split; lia.
Qed.

End Loop.

(** X4: the [until] loop ends within HEALTH_RETRIES passes.  Allowed any
    number of further passes it runs the same way: the bound on the
    passes never cuts a run short. *)
Theorem health_loop_ends_within_the_budget cfg E extra s :
  health_loop cfg E (HEALTH_RETRIES cfg + extra) 0 None s
  = health_loop cfg E (HEALTH_RETRIES cfg) 0 None s.
Proof. apply health_loop_spare_passes. lia. Qed.

(** X5: whatever the service and curl answer, the loop never ends the
    script by itself, polls at most HEALTH_RETRIES times, waits at most
    HEALTH_RETRIES times HEALTH_WAIT seconds in all, and touches neither
    the files, nor the working directory, nor the containers. *)
Theorem polling_is_bounded cfg E s :
  (exists sc, fst (health_loop cfg E (HEALTH_RETRIES cfg) 0 None s) = Next sc)
  /\ curl_calls (trace (snd (health_loop cfg E (HEALTH_RETRIES cfg) 0 None s)))
     <= curl_calls (trace s) + HEALTH_RETRIES cfg
  /\ waited (commands
               (trace (snd (health_loop cfg E (HEALTH_RETRIES cfg) 0 None s))))
     <= waited (commands (trace s)) + HEALTH_RETRIES cfg * HEALTH_WAIT cfg
  /\ same_host s (snd (health_loop cfg E (HEALTH_RETRIES cfg) 0 None s)).
Proof.
  destruct (health_loop_outcome cfg E (HEALTH_RETRIES cfg) 0 None s eq_refl)
    as (k & sc' & s' & Heq & Hh & Hk).
  rewrite Heq. cbn [fst snd]. split; [eauto|].
  destruct Hk as [(-> & Hc & Hq)|(Hlt & _ & Hc & Hq)]; rewrite Hc, Hq;
    rewrite !waited_app, waited_polls; cbn [waited];
    (split; [lia|]); (split; [nia|exact Hh]).
Qed.

(** X6: how a poll is read.  A poll counts as a success exactly when curl
    succeeded and printed 200.  When curl fails, the status on record is
    what curl printed followed by the 000 of the fallback: 000000 when
    curl, as it does, printed 000 itself. *)
Theorem a_poll_is_read_as_200_only_on_success r :
  (status_code_of r = "200" <-> healthy_reply r)
  /\ (fst r <> 0%Z -> status_code_of r = snd r +:+ "000").
Proof.
  split; [split|].
  - intros H. destruct r as [st out]. destruct (Z.eq_dec st 0%Z) as [->|Hne].
    + split; [reflexivity|exact H].
    + exfalso. exact (Rollout.failed_curl_never_200 st out Hne H).
  - apply Rollout.healthy_reply_status.
  - intros Hst. destruct r as [st out]. cbn [fst snd] in *.
    unfold status_code_of. cbn [fst snd]. apply Z.eqb_neq in Hst. rewrite Hst.
    change (out +:+ "000" +:+ Text.nl)
      with (out +:+ ("00" +:+ String "0" Text.nl)).
    rewrite <- sapp_assoc, strip_snoc by reflexivity.
    rewrite sapp_assoc. reflexivity.
Qed.

Example refused_connection_is_on_record_as_000000 :
  status_code_of (7%Z, "000") = "000000".
Proof. reflexivity. Qed.

End Polling.

(** ** Texts cut by a separator *)
Module Separators.
Import ShellFacts TextFacts.

(** A separator that is not in the needle cannot be part of a match. *)
Lemma prefix_before_separator tok sep : forall x y,
  Text.sforall (fun c => negb (Ascii.eqb c sep)) tok = true ->
  Text.is_null tok = false ->
  String.prefix tok (x +:+ String sep y) = String.prefix tok x.
Proof.
  induction tok as [|c tok IH]; intros x y Hsep Hnull; [discriminate|].
  cbn in Hsep. apply andb_true_iff in Hsep as [Hc Htok].
  apply negb_true_iff, Ascii.eqb_neq in Hc.
  destruct x as [|d x].
  - rewrite sapp_nil_l. cbn. destruct (ascii_dec c sep); [contradiction|].
    reflexivity.
  - rewrite sapp_cons. cbn. destruct (ascii_dec c d); [|reflexivity].
    destruct tok as [|c' tok'].
    + rewrite !prefix_nil. reflexivity.
    + apply IH; [exact Htok|reflexivity].
Qed.

Lemma contains_nil tok : Text.is_null tok = false -> Text.contains tok "" = false.
Proof. destruct tok; [discriminate|reflexivity]. Qed.

Lemma contains_across_separator tok sep x y :
  Text.sforall (fun c => negb (Ascii.eqb c sep)) tok = true ->
  Text.is_null tok = false ->
  Text.contains tok (x +:+ String sep y)
  = Text.contains tok x || Text.contains tok y.
Proof.
  intros Hsep Hnull. induction x as [|d x IH].
  - rewrite sapp_nil_l, (contains_nil tok Hnull). cbn [Text.contains orb].
    rewrite <- (sapp_nil_l (String sep y)), prefix_before_separator by assumption.
    destruct tok; [discriminate|reflexivity].
  - rewrite sapp_cons. cbn [Text.contains]. rewrite IH.
    rewrite <- sapp_cons, prefix_before_separator by assumption.
    rewrite orb_assoc. reflexivity.
Qed.

End Separators.

(** ** Which containers the strict variant supersedes *)
Module Selection.
Import Shell Deploy Variants Spec ShellFacts TextFacts Frames Separators.

(** [grep '8080'] on a listing line looks at the name and at the ports. *)
Lemma grep_8080_line c : Text.contains "8080" (ps_line c) = holds_8080 c.
Proof.
  unfold ps_line, holds_8080, Text.tab. rewrite sapp_cons, sapp_nil_l.
  apply contains_across_separator; reflexivity.
Qed.

Lemma take_field_stops n c r :
  Text.sforall (fun c => negb (is_blank c)) n = true ->
  is_blank c = true ->
  take_field (n +:+ String c r) = n.
Proof.
  intros Hn Hc. induction n as [|d n IH].
  - rewrite sapp_nil_l. cbn. rewrite Hc. reflexivity.
  - cbn in Hn. apply andb_true_iff in Hn as [Hd Hn].
    apply negb_true_iff in Hd. rewrite sapp_cons. cbn. rewrite Hd, (IH Hn).
    reflexivity.
Qed.

(** [awk '{print $1}'] gives the name back. *)
Lemma awk_gives_the_name c :
  listed_name (cname c) = true -> awk_first_field (ps_line c) = cname c.
Proof.
  unfold listed_name, ps_line, Text.tab. intros H.
  apply andb_true_iff in H as [Hnull Hn].
  rewrite sapp_cons, sapp_nil_l.
  destruct (cname c) as [|d n] eqn:Hname; [discriminate|].
  pose proof Hn as Hn'. cbn in Hn'. apply andb_true_iff in Hn' as [Hd _].
  apply negb_true_iff in Hd.
  rewrite sapp_cons. cbn [awk_first_field]. rewrite Hd.
  rewrite <- sapp_cons. apply take_field_stops; [exact Hn|reflexivity].
Qed.

Lemma names_on_8080_selection cs :
  Forall (fun c => listed_name (cname c) = true) cs ->
  names_on_8080 cs = map cname (List.filter holds_8080 cs).
Proof.
  unfold names_on_8080. induction 1 as [|c cs Hc _ IH]; [reflexivity|].
  cbn [map List.filter]. rewrite grep_8080_line.
  destruct (holds_8080 c); cbn [map]; rewrite IH; [|reflexivity].
  rewrite (awk_gives_the_name c Hc). reflexivity.
Qed.

(** *** The containers after the supersession *)

Lemma filter_mark_stopped n cs :
  List.filter (fun c => negb (String.eqb (cname c) n)) (map (mark_stopped n) cs)
  = List.filter (fun c => negb (String.eqb (cname c) n)) cs.
Proof.
  induction cs as [|c cs IH]; [reflexivity|]. cbn [map List.filter].
  unfold mark_stopped at 1 2.
  destruct (String.eqb (cname c) n) eqn:Hc; cbn [cname negb].
  - rewrite Hc. exact IH.
  - rewrite Hc. cbn [negb]. rewrite IH. reflexivity.
Qed.

Lemma named_in_cons n names c :
  Text.is_null n = false ->
  named_in (n :: names) c = String.eqb (cname c) n || named_in names c.
Proof. intros Hn. unfold named_in. cbn [existsb]. rewrite Hn. reflexivity. Qed.

Lemma filter_named_in n names cs :
  Text.is_null n = false ->
  List.filter (fun c => negb (named_in names c))
    (List.filter (fun c => negb (String.eqb (cname c) n)) cs)
  = List.filter (fun c => negb (named_in (n :: names) c)) cs.
Proof.
  intros Hn. induction cs as [|c cs IH]; [reflexivity|].
  cbn [List.filter]. rewrite (named_in_cons n names c Hn).
  destruct (String.eqb (cname c) n); cbn [negb orb List.filter].
  - exact IH.
  - destruct (named_in names c); cbn [negb]; rewrite IH; reflexivity.
Qed.

Section Removal.
Variable E : Env.
Hypothesis removals_succeed : forall n, rm_status E n = 0%Z.

Lemma stop_and_remove_containers n s :
  Text.is_null n = false ->
  containers (snd (stop_and_remove E n s))
  = List.filter (fun c => negb (String.eqb (cname c) n)) (containers s).
Proof.
  intros Hn. unfold stop_and_remove, docker_stop, docker_rm_f.
  rewrite Hn. cbn [negb]. pose proof (removals_succeed n) as Hrm.
  destruct (stop_status E n =? 0)%Z eqn:Hs; sh_cases.
  - apply filter_mark_stopped.
  - reflexivity.
Qed.

(** A [while read] loop removes the containers it read the names of, and
    leaves the others as they are. *)
Lemma while_read_containers names : forall s,
  containers (snd (while_read E names s))
  = List.filter (fun c => negb (named_in names c)) (containers s).
Proof.
  induction names as [|n names IH]; intros s.
  - cbn. induction (containers s) as [|c cs IHc]; [reflexivity|].
    cbn. rewrite <- IHc. reflexivity.
  - cbn [while_read].
    destruct (Supersession.stop_and_remove_hands_over E n s)
      as (s1 & t & H1 & _).
    rewrite (bind_next _ _ _ _ _ H1), IH.
    destruct (Text.is_null n) eqn:Hn.
    + assert (s1 = s) as ->.
      { assert (H0 : stop_and_remove E n s = (Next tt, s))
          by (unfold stop_and_remove; rewrite Hn; reflexivity).
        congruence. }
      apply filter_ext. intros c. cbn [named_in existsb]. rewrite Hn.
      reflexivity.
    + pose proof (stop_and_remove_containers n s Hn) as Hc.
      rewrite H1 in Hc. cbn [snd] in Hc. rewrite Hc.
      apply filter_named_in, Hn.
Qed.

End Removal.

(** With names that are unique, the containers whose name was read are
    those that were selected. *)
Lemma named_in_selection (p : Container -> bool) cs c :
  List.NoDup (map cname cs) ->
  Forall (fun c => listed_name (cname c) = true) cs ->
  In c cs ->
  named_in (map cname (List.filter p cs)) c = p c.
Proof.
  intros Hnd Hall Hin. unfold named_in.
  assert (Hname : Text.is_null (cname c) = false).
  { rewrite List.Forall_forall in Hall. specialize (Hall c Hin).
    unfold listed_name in Hall. apply andb_true_iff in Hall as [H _].
    apply negb_true_iff, H. }
  destruct (p c) eqn:Hp.
  - apply existsb_exists. exists (cname c). split.
    + apply in_map, filter_In. auto.
    + rewrite Hname, String.eqb_refl. reflexivity.
  - apply not_true_is_false. intros Hex.
    apply existsb_exists in Hex as (n & Hn & Heq).
    apply andb_true_iff in Heq as [_ Heq]. apply String.eqb_eq in Heq.
    apply in_map_iff in Hn as (c' & Hc' & Hin').
    apply filter_In in Hin' as [Hin' Hp'].
    assert (Hcc : cname c' = cname c) by congruence.
    assert (c' = c) as ->; [|congruence].
    clear Hp Hp' Hname Hall Heq Hc'.
    induction cs as [|d cs IH]; [contradiction|].
    cbn in Hnd. apply List.NoDup_cons_iff in Hnd as [Hd Hnd].
    destruct Hin as [->|Hin], Hin' as [->|Hin']; auto.
    + exfalso. apply Hd. rewrite <- Hcc. apply in_map, Hin'.
    + exfalso. apply Hd. rewrite Hcc. apply in_map, Hin.
Qed.

(** X7: the first loop of the supersession reads the names of exactly
    the containers whose listing line holds the text 8080, be it in the
    ports or in the name itself, in the order of the listing; a
    container with neither is not read. *)
Theorem port_loop_reads_names_and_ports cs :
  Forall (fun c => listed_name (cname c) = true) cs ->
  names_on_8080 cs = map cname (List.filter holds_8080 cs)
  /\ forall c, In c cs -> holds_8080 c = false ->
       List.NoDup (map cname cs) -> ~ In (cname c) (names_on_8080 cs).
Proof.
  intros Hall. split; [apply names_on_8080_selection, Hall|].
  intros c Hin Hc Hnd Hread.
  rewrite (names_on_8080_selection cs Hall) in Hread.
  pose proof (named_in_selection holds_8080 cs c Hnd Hall Hin) as Hsel.
  rewrite Hc in Hsel. apply not_true_iff_false in Hsel. apply Hsel.
  apply existsb_exists. exists (cname c). split; [exact Hread|].
  rewrite String.eqb_refl, andb_true_r. apply negb_true_iff.
  rewrite List.Forall_forall in Hall. specialize (Hall c Hin).
  unfold listed_name in Hall. apply andb_true_iff in Hall as [H _].
  apply negb_true_iff, H.
Qed.

Lemma port_loop_on_the_busy_host :
  names_on_8080 (containers Examples.busy_host)
  = map cname (List.filter holds_8080 (containers Examples.busy_host))
  /\ forall c, In c (containers Examples.busy_host) ->
       holds_8080 c = false ->
       List.NoDup (map cname (containers Examples.busy_host)) ->
       ~ In (cname c) (names_on_8080 (containers Examples.busy_host)).
Proof.
  apply (port_loop_reads_names_and_ports (containers Examples.busy_host)).
  repeat constructor.
Defined.

(** The container named metrics8080 publishes no port, and is read. *)
Example a_name_with_8080_is_read :
  names_on_8080 (containers Examples.busy_host)
  = ["server-app-1"; "metrics8080"].
Proof. reflexivity. Qed.


Lemma filter_twice {A} (p q : A -> bool) l :
  List.filter q (List.filter p l) = List.filter (fun x => p x && q x) l.
Proof.
  induction l as [|x l IH]; [reflexivity|]. cbn [List.filter].
  destruct (p x); cbn [andb List.filter]; [destruct (q x)|]; rewrite IH;
    reflexivity.
Qed.

Lemma NoDup_map_filter {A B} (f : A -> B) (p : A -> bool) l :
  List.NoDup (map f l) -> List.NoDup (map f (List.filter p l)).
Proof.
  induction l as [|x l IH]; [auto|]. cbn [map List.filter]. intros Hnd.
  apply List.NoDup_cons_iff in Hnd as [Hx Hnd].
  destruct (p x); [|auto]. cbn [map]. apply List.NoDup_cons_iff.
  split; [|auto]. intros Hin. apply Hx.
  apply List.in_map_iff in Hin as (y & Hy & Hin).
  apply List.filter_In in Hin as [Hin _].
  rewrite <- Hy. apply in_map, Hin.
Qed.

Lemma Forall_filter_kept {A} (P : A -> Prop) (p : A -> bool) l :
  Forall P l -> Forall P (List.filter p l).
Proof.
  induction 1 as [|x l Hx _ IH]; [constructor|]. cbn [List.filter].
  destruct (p x); [constructor|]; assumption.
Qed.

Section Supersede.
Variable E : Env.
Hypothesis removals_succeed : forall n, rm_status E n = 0%Z.
Hypothesis port_listing : ps_all_status E = 0%Z.
Hypothesis image_listing : ps_ancestor_status E = 0%Z.

Lemma while_read_selection (p : Container -> bool) s :
  List.NoDup (map cname (containers s)) ->
  Forall (fun c => listed_name (cname c) = true) (containers s) ->
  exists s',
    while_read E (map cname (List.filter p (containers s))) s = (Next tt, s')
    /\ fs s' = fs s /\ cwd s' = cwd s
    /\ containers s' = List.filter (fun c => negb (p c)) (containers s).
Proof.
  intros Hnd Hall.
  destruct (Supersession.while_read_hands_over E
              (map cname (List.filter p (containers s))) s)
    as (s' & t & Hrun & _ & _ & _ & Hfs & Hcwd).
  exists s'. split; [exact Hrun|]. split; [exact Hfs|]. split; [exact Hcwd|].
  pose proof (while_read_containers E removals_succeed
                (map cname (List.filter p (containers s))) s) as Hc.
  rewrite Hrun in Hc. cbn [snd] in Hc. rewrite Hc.
  apply filter_ext_in. intros c Hin.
  rewrite (named_in_selection p (containers s) c Hnd Hall Hin). reflexivity.
Qed.

Lemma supersede_containers s :
  List.NoDup (map cname (containers s)) ->
  Forall (fun c => listed_name (cname c) = true) (containers s) ->
  supersede E s =
  (Next tt, snd (supersede E s))
  /\ fs (snd (supersede E s)) = fs s
  /\ cwd (snd (supersede E s)) = cwd s
  /\ containers (snd (supersede E s))
     = down_containers E (fs s) (cwd s)
         (survivors (repo_coordinate E) (containers s)).
Proof.
  intros Hnd Hall. unfold supersede. rewrite Rollout.echo_then.
  match goal with |- context [(port_holders E ≫= _) ?s0] =>
    destruct (Supersession.port_holders_eq E s0) as (t1 & H1 & _)
  end.
  rewrite !(bind_next _ _ _ _ _ H1). cbn [containers fs cwd].
  rewrite port_listing. cbn [Z.eqb].
  rewrite (names_on_8080_selection (containers s) Hall).
  match goal with |- context [(while_read E _ ≫= _) ?s0] =>
    destruct (while_read_selection holds_8080 s0 Hnd Hall)
      as (s2 & H2 & Hf2 & Hd2 & Hc2)
  end.
  cbn [containers fs cwd] in H2, Hf2, Hd2, Hc2.
  rewrite !(bind_next _ _ _ _ _ H2), !Rollout.echo_then.
  match goal with |- context [(image_descendants E ≫= _) ?s0] =>
    destruct (Supersession.image_descendants_eq E s0) as (t3 & H3 & _)
  end.
  rewrite !(bind_next _ _ _ _ _ H3). cbn [containers fs cwd].
  rewrite image_listing. cbn [Z.eqb]. unfold names_of_descendants.
  match goal with |- context [(while_read E _ ≫= _) ?s0] =>
    destruct (while_read_selection (descends_from (repo_coordinate E)) s0)
      as (s4 & H4 & Hf4 & Hd4 & Hc4)
  end.
  { cbn [containers]. rewrite Hc2. apply NoDup_map_filter, Hnd. }
  { cbn [containers]. rewrite Hc2. apply Forall_filter_kept, Hall. }
  cbn [containers fs cwd] in H4, Hf4, Hd4, Hc4.
  rewrite !(bind_next _ _ _ _ _ H4).
  unfold docker_compose_down. sh_simpl.
  rewrite Hf4, Hd4, Hc4, Hf2, Hd2, Hc2, filter_twice.
  repeat split.
Qed.

End Supersede.

(** X8: where the two listings and every removal succeed, on a host
    whose containers have distinct names, the supersession hands to
    [docker compose down] exactly the containers that neither hold the
    text 8080 in their listing line nor descend from the repository
    image, unchanged and in their order; it writes no file and stays in
    the application directory. *)
Theorem supersession_clears_port_and_image E s :
  (forall n, rm_status E n = 0%Z) ->
  ps_all_status E = 0%Z ->
  ps_ancestor_status E = 0%Z ->
  List.NoDup (map cname (containers s)) ->
  Forall (fun c => listed_name (cname c) = true) (containers s) ->
  fst (supersede E s) = Next tt
  /\ fs (snd (supersede E s)) = fs s
  /\ cwd (snd (supersede E s)) = cwd s
  /\ containers (snd (supersede E s))
     = down_containers E (fs s) (cwd s)
         (survivors (repo_coordinate E) (containers s)).
Proof.
  intros Hrm Hps Hanc Hnd Hall.
  destruct (supersede_containers E Hrm Hps Hanc s Hnd Hall)
    as (Hrun & Hfs & Hcwd & Hcs).
  rewrite Hrun at 1. auto.
Qed.

(** The busy host, where docker does all it is asked. *)
Lemma supersession_on_the_busy_host :
  fst (supersede Examples.always_500 Examples.busy_host) = Next tt
  /\ fs (snd (supersede Examples.always_500 Examples.busy_host))
     = fs Examples.busy_host
  /\ cwd (snd (supersede Examples.always_500 Examples.busy_host))
     = cwd Examples.busy_host
  /\ containers (snd (supersede Examples.always_500 Examples.busy_host))
     = down_containers Examples.always_500 (fs Examples.busy_host)
         (cwd Examples.busy_host)
         (survivors (repo_coordinate Examples.always_500)
            (containers Examples.busy_host)).
Proof.
  apply (supersession_clears_port_and_image Examples.always_500
           Examples.busy_host).
  - reflexivity.
  - reflexivity.
  - reflexivity.
  - cbn. repeat constructor; cbn; intuition discriminate.
  - repeat constructor.
Defined.

(** Only the database is left for [docker compose down]: the previous
    release is gone, and so is the bystander named after the port. *)
Example only_the_database_survives :
  survivors (repo_coordinate Examples.always_500)
    (containers Examples.busy_host)
  = [Examples.database].
Proof. reflexivity. Qed.

End Selection.

(** ** The variants that default the directory to [$HOME/server] *)
Module HomeVariants.
Import Shell Deploy Variants Spec ShellFacts Frames.

(** X9: with [HOME] unset and no directory argument, both variants end
    with status 1 on the expansion of [$HOME], before the usage check and
    before any command, whether an image is given or not; nothing is
    printed on stdout.  A directory argument makes [HOME] irrelevant. *)
Theorem unset_home_ends_the_variants cfg E argv0 args s :
  HOME E = None ->
  args !! 1 = None \/ args !! 1 = Some "" ->
  (exists msg,
     run (deploy_strict cfg E argv0 args) s =
     (1%Z, {| fs := fs s; cwd := cwd s; containers := containers s;
              trace := trace s ++ [ErrOut msg] |}))
  /\ run (deploy_down E argv0 args) s = run (deploy_strict cfg E argv0 args) s
  /\ (forall dir more, Text.is_null dir = false ->
        app_dir_or_home E (param_or args 0 "" :: dir :: more) s
        = (Next dir, s)).
Proof.
  intros Hhome Hargs.
  assert (Hdir : app_dir_or_home E args s
                 = (Exit 1%Z, {| fs := fs s; cwd := cwd s;
                                 containers := containers s;
                                 trace := trace s
                                   ++ [ErrOut "HOME: unbound variable"] |})).
  { unfold app_dir_or_home. rewrite Hhome.
    destruct Hargs as [-> | ->]; reflexivity. }
  split; [|split].
  - eexists. unfold run, deploy_strict.
    rewrite (bind_exit _ _ _ _ _ Hdir). reflexivity.
  - unfold run, deploy_strict, deploy_down.
    rewrite !(bind_exit _ _ _ _ _ Hdir). reflexivity.
  - intros dir more Hnull. unfold app_dir_or_home. cbn. rewrite Hnull.
    reflexivity.
Qed.

Lemma unset_home_on_a_running_host :
  (exists msg,
     run (deploy_strict strict_config Examples.start_fails "./deploy.sh"
            ["rajibsalui/my-express-server:abc1234"]) Examples.running_host =
     (1%Z, {| fs := fs Examples.running_host; cwd := cwd Examples.running_host;
              containers := containers Examples.running_host;
              trace := trace Examples.running_host ++ [ErrOut msg] |}))
  /\ run (deploy_down Examples.start_fails "./deploy.sh"
            ["rajibsalui/my-express-server:abc1234"]) Examples.running_host
     = run (deploy_strict strict_config Examples.start_fails "./deploy.sh"
              ["rajibsalui/my-express-server:abc1234"]) Examples.running_host
  /\ (forall dir more, Text.is_null dir = false ->
        app_dir_or_home Examples.start_fails
          (param_or ["rajibsalui/my-express-server:abc1234"] 0 ""
           :: dir :: more) Examples.running_host
        = (Next dir, Examples.running_host)).
Proof.
  apply (unset_home_ends_the_variants strict_config Examples.start_fails
           "./deploy.sh" ["rajibsalui/my-express-server:abc1234"]
           Examples.running_host).
  - reflexivity.
  - left. reflexivity.
Defined.

Section Down.
Variable E : Env.

Lemma down_step loud s :
  or_true (docker_compose_down E loud) s =
  (Next tt,
   {| fs := fs s; cwd := cwd s;
      containers := down_containers E (fs s) (cwd s) (containers s);
      trace := trace s ++ Run ComposeDown
                 :: (if loud && negb (down_status E =? 0)%Z
                     then [Diag ComposeDown] else []) |}).
Proof.
  unfold docker_compose_down.
  destruct loud, (down_status E =? 0)%Z eqn:Hd; sh_cases;
    rewrite <- ?app_assoc; reflexivity.
Qed.

End Down.

(** The second version on a host that refuses nothing, once the image
    is pulled. *)
Lemma down_then_up E argv0 args s dir :
  Text.is_null (param_or args 0 "") = false ->
  app_dir_or_home E args s = (Next dir, s) ->
  pull_status E (param_or args 0 "") = 0%Z ->
  (exists t rest,
     trace (snd (run (deploy_down E argv0 args) s)) = trace s ++ t
     /\ commands t
        = DockerPull (param_or args 0 "") :: ComposeDown :: ComposeUp :: rest
     /\ (down_status E <> 0%Z -> In (Diag ComposeDown) t))
  /\ fs (snd (run (deploy_down E argv0 args) s))
     = <[override_path dir := pin_lines (param_or args 2 "app")
                                (param_or args 0 "")]> (fs s)
  /\ containers (snd (run (deploy_down E argv0 args) s))
     = up_containers E
         (<[override_path dir := pin_lines (param_or args 2 "app")
                                   (param_or args 0 "")]> (fs s)) dir
         (down_containers E
            (<[override_path dir := pin_lines (param_or args 2 "app")
                                      (param_or args 0 "")]> (fs s)) dir
            (containers s)).
Proof.
  intros Himg Hdir Hpull. rewrite run_snd. unfold deploy_down.
  rewrite (bind_next _ _ _ _ _ Hdir), Himg.
  set (tail := (health_check strict_config E;; cleanup E)).
  assert (Hkeep : preserves same_host tail)
    by (frame preserves_then;
        [apply RolloutSteps.same_host_health_check
        |apply RolloutSteps.same_host_cleanup]).
  assert (Hext : extends_trace tail)
    by (apply Supersession.extends_bind;
        [apply Supersession.extends_health_check
        |intros _; apply Supersession.extends_cleanup]).
  clearbody tail.
  unfold announce, docker_pull, docker_compose_down, docker_compose_up.
  destruct (down_status E =? 0)%Z eqn:Hd;
    destruct (up_status E =? 0)%Z eqn:Hu; sh_cases;
    try match goal with |- context [tail ?s2] =>
      destruct (Hkeep s2) as (Hf & _ & Hc);
      destruct (Hext s2) as (t2 & Ht2);
      rewrite Hf, Hc, Ht2; cbn [fs containers trace]
    end;
    (split; [|split; reflexivity]);
    eexists _, _;
    (split; [rewrite <- !app_assoc; cbn [app]; reflexivity|]);
    (split; [cbn; rewrite ?commands_app; cbn; reflexivity|]);
    intros Hne; try (apply Z.eqb_eq in Hd; contradiction);
    cbn; do 12 right; left; reflexivity.
Qed.

End HomeVariants.

(** ** The first version of the script against scripts/deploy.sh *)
Module FirstVersion.
Import Shell Deploy Variants Spec ShellFacts Frames.

#[global] Instance same_effects_equivalence : Equivalence same_effects.
Proof.
  split.
  - intros s. repeat split.
  - intros a b (H1 & H2 & H3 & H4). repeat split; congruence.
  - intros a b c (H1 & H2 & H3 & H4) (H5 & H6 & H7 & H8).
    repeat split; congruence.
Qed.

(** The number of polls so far is read off the commands. *)
Lemma curl_calls_of_commands t :
  curl_calls t
  = length (List.filter (fun c => match c with Curl _ => true | _ => false end)
                        (commands t)).
Proof.
  induction t as [|e t IH]; [reflexivity|].
  destruct e as [c| | |]; cbn; try exact IH.
  destruct c; cbn; rewrite ?IH; reflexivity.
Qed.

Lemma same_effects_curl_calls s1 s2 :
  same_effects s1 s2 -> curl_calls (trace s1) = curl_calls (trace s2).
Proof.
  intros (_ & _ & _ & Hc). rewrite !curl_calls_of_commands, Hc. reflexivity.
Qed.

Section Laws.

Lemma same_run_ret {A} (a : A) : same_run (mret a : Sh A) (mret a).
Proof. intros s1 s2 Hs. split; [reflexivity|exact Hs]. Qed.

Lemma same_run_exit {A} c : same_run (exit c : Sh A) (exit c).
Proof. intros s1 s2 Hs. split; [reflexivity|exact Hs]. Qed.

Lemma same_run_bind {A B} (m1 m2 : Sh A) (k1 k2 : A -> Sh B) :
  same_run m1 m2 -> (forall a, same_run (k1 a) (k2 a)) ->
  same_run (m1 ≫= k1) (m2 ≫= k2).
Proof.
  intros Hm Hk s1 s2 Hs. unfold mbind, Sh_bind, bind.
  destruct (Hm s1 s2 Hs) as [Hfst Hsnd].
  destruct (m1 s1) as [[a1|c1] s1'], (m2 s2) as [[a2|c2] s2'];
    cbn in Hfst, Hsnd |- *; try discriminate.
  - injection Hfst as ->. apply Hk, Hsnd.
  - injection Hfst as ->. auto.
Qed.

Lemma same_run_if {A} (b : bool) (m1 m2 n1 n2 : Sh A) :
  same_run m1 m2 -> same_run n1 n2 ->
  same_run (if b then m1 else n1) (if b then m2 else n2).
Proof. destruct b; auto. Qed.

(** Programs are compared by what they do on each state. *)
Lemma same_run_ext {A} (m1 m1' m2 m2' : Sh A) :
  (forall s, m1 s = m1' s) -> (forall s, m2 s = m2' s) ->
  same_run m1' m2' -> same_run m1 m2.
Proof. intros H1 H2 H s1 s2 Hs. rewrite H1, H2. apply H, Hs. Qed.

Lemma only_prints_emit e :
  (forall c, e <> Run c) -> only_prints (emit e).
Proof.
  intros He s. split; [reflexivity|]. unfold same_effects. cbn. repeat split.
  rewrite commands_app. destruct e; cbn; rewrite ?app_nil_r; try reflexivity.
  exfalso. exact (He c eq_refl).
Qed.

Lemma only_prints_echo l : only_prints (echo l).
Proof. apply only_prints_emit. discriminate. Qed.

Lemma only_prints_then p q :
  only_prints p -> only_prints q -> only_prints (p;; q).
Proof.
  intros Hp Hq s. unfold mbind, Sh_bind, bind.
  destruct (Hp s) as [Hn Hs]. destruct (p s) as [[[]|c] s1];
    cbn in Hn, Hs |- *; [|discriminate].
  destruct (Hq s1) as [Hn' Hs']. split; [exact Hn'|].
  transitivity s1; assumption.
Qed.

(** What is printed on either side does not count. *)
Lemma same_run_prints p q : only_prints p -> only_prints q -> same_run p q.
Proof.
  intros Hp Hq s1 s2 Hs. destruct (Hp s1) as [Hn1 Hs1], (Hq s2) as [Hn2 Hs2].
  split; [congruence|].
  transitivity s1; [symmetry; exact Hs1|]. transitivity s2; assumption.
Qed.

Lemma same_run_skip_l {A} p (m1 m2 : Sh A) :
  only_prints p -> same_run m1 m2 -> same_run (p;; m1) m2.
Proof.
  intros Hp Hm s1 s2 Hs. unfold mbind, Sh_bind, bind.
  destruct (Hp s1) as [Hn Hs1]. destruct (p s1) as [[[]|c] s1'];
    cbn in Hn, Hs1 |- *; [|discriminate].
  apply Hm. transitivity s1; [symmetry; exact Hs1|exact Hs].
Qed.

Lemma same_run_skip_r {A} p (m1 m2 : Sh A) :
  only_prints p -> same_run m1 m2 -> same_run m1 (p;; m2).
Proof.
  intros Hp Hm s1 s2 Hs. unfold mbind, Sh_bind, bind.
  destruct (Hp s2) as [Hn Hs2]. destruct (p s2) as [[[]|c] s2'];
    cbn in Hn, Hs2 |- *; [|discriminate].
  apply Hm. transitivity s2; assumption.
Qed.

Lemma same_run_emit e : same_run (emit e) (emit e).
Proof.
  intros s1 s2 (H1 & H2 & H3 & H4). split; [reflexivity|]. unfold same_effects. cbn.
  repeat split; try assumption. rewrite !commands_app, H4. reflexivity.
Qed.

Lemma same_run_external loud c st :
  same_run (external loud c st) (external loud c st).
Proof.
  unfold external. apply same_run_bind; [apply same_run_emit|intros _].
  apply same_run_bind; [|intros _; apply same_run_ret].
  apply same_run_if; [apply same_run_emit|apply same_run_ret].
Qed.

Lemma same_run_errexit m1 m2 :
  same_run m1 m2 -> same_run (errexit m1) (errexit m2).
Proof.
  intros H. unfold errexit. apply same_run_bind; [exact H|intros st].
  apply same_run_if; [apply same_run_ret|apply same_run_exit].
Qed.

Lemma same_run_write path content :
  same_run (write_file path content) (write_file path content).
Proof.
  intros s1 s2 (H1 & H2 & H3 & H4). split; [reflexivity|]. unfold same_effects. cbn.
  repeat split; try assumption. rewrite H1. reflexivity.
Qed.

Lemma same_run_cd dir : same_run (cd dir) (cd dir).
Proof.
  intros s1 s2 (H1 & H2 & H3 & H4). split; [reflexivity|]. unfold same_effects. cbn.
  repeat split; assumption.
Qed.

End Laws.

Section Scripts.
Variable E : Env.

Lemma same_run_up : same_run (docker_compose_up E) (docker_compose_up E).
Proof.
  intros s1 s2 Hs. pose proof Hs as (H1 & H2 & H3 & H4).
  unfold docker_compose_up. sh_simpl. rewrite H1, H2, H3.
  destruct (negb (up_status E =? 0)%Z); unfold same_effects; cbn;
    (split; [reflexivity|]); repeat split; try assumption;
    rewrite !commands_app, H4; reflexivity.
Qed.

Lemma same_run_poll cfg : same_run (poll cfg E) (poll cfg E).
Proof.
  intros s1 s2 Hs. rewrite !Rollout.poll_eq.
  rewrite (same_effects_curl_calls s1 s2 Hs).
  destruct Hs as (H1 & H2 & H3 & H4). split; [reflexivity|]. unfold same_effects. cbn.
  repeat split; try assumption. rewrite !commands_app, H4. reflexivity.
Qed.

Lemma same_run_loops budget : forall n sc,
  same_run (health_loop_basic E budget n sc) (health_loop config E budget n sc).
Proof.
  induction budget as [|b IH]; intros n sc;
    cbn [health_loop_basic health_loop]; [apply same_run_ret|].
  apply same_run_if; [apply same_run_ret|].
  apply same_run_bind; [apply same_run_poll|intros st].
  apply same_run_if.
  - apply same_run_bind; [|intros _; apply same_run_ret].
    apply same_run_prints; apply only_prints_echo.
  - cbv zeta. apply same_run_bind;
      [apply same_run_prints; apply only_prints_echo|intros _].
    apply same_run_bind; [|intros _; apply IH].
    apply same_run_errexit, same_run_external.
Qed.

Lemma same_run_verify sc :
  same_run (verify_basic E sc) (verify config E sc).
Proof.
  destruct sc as [st|]; cbn [verify_basic verify].
  - apply same_run_if; [|apply same_run_ret].
    apply same_run_skip_l; [apply only_prints_echo|].
    do 3 (apply same_run_skip_r; [apply only_prints_echo|]).
    apply same_run_bind;
      [apply same_run_errexit, same_run_external|intros _].
    do 2 (apply same_run_skip_r; [apply only_prints_echo|]).
    apply same_run_bind;
      [apply same_run_errexit, same_run_external|intros _].
    apply same_run_exit.
  - apply same_run_bind; [apply same_run_emit|intros _; apply same_run_exit].
Qed.

Lemma only_prints_announce a b c : only_prints (announce a b c).
Proof.
  unfold announce. repeat apply only_prints_then; apply only_prints_echo.
Qed.

Lemma same_run_scripts argv0 argv0' IMAGE :
  Text.is_null IMAGE = false ->
  same_run (deploy_basic E argv0 [IMAGE]) (deploy config E argv0' [IMAGE]).
Proof.
  intros Himg. unfold deploy_basic, deploy.
  assert (Hp : param_or [IMAGE] 0 "" = IMAGE)
    by (unfold param_or; cbn; rewrite Himg; reflexivity).
  rewrite Hp, Himg.
  change (param_or [IMAGE] 1 "/root/server") with APP_DIR.
  change (param_or [IMAGE] 2 "app") with SERVICE_NAME.
  apply same_run_skip_r; [apply only_prints_announce|].
  apply same_run_bind;
    [apply same_run_prints; apply only_prints_echo|intros _].
  apply same_run_bind;
    [apply same_run_errexit, same_run_external|intros _].
  apply same_run_skip_r; [apply only_prints_echo|].
  apply same_run_bind; [apply same_run_write|intros _].
  apply same_run_bind;
    [apply same_run_prints; apply only_prints_echo|intros _].
  apply same_run_bind; [apply same_run_cd|intros _].
  apply same_run_bind; [apply same_run_errexit, same_run_up|intros _].
  apply (same_run_ext _ _ _
           (echo "🏥 Running health checks...";;
            (sc ← health_loop config E (HEALTH_RETRIES config) 0 None;
             verify config E sc;; cleanup E))
           (fun s => eq_refl)).
  { intros s. unfold health_check.
    rewrite bind_assoc_at, !Rollout.echo_then. apply bind_assoc_at. }
  apply same_run_bind;
    [apply same_run_prints; apply only_prints_echo|intros _].
  apply same_run_bind; [apply same_run_loops|intros sc].
  apply same_run_bind; [apply same_run_verify|intros _].
  unfold cleanup.
  apply same_run_bind;
    [apply same_run_prints; apply only_prints_echo|intros _].
  apply same_run_bind;
    [apply same_run_errexit, same_run_external|intros _].
  apply same_run_prints; [apply only_prints_echo|].
  repeat apply only_prints_then; apply only_prints_echo.
Qed.

End Scripts.

Lemma extends_write path content : extends_trace (write_file path content).
Proof. intros s. exists []. cbn. rewrite app_nil_r. reflexivity. Qed.

Lemma extends_cd dir : extends_trace (cd dir).
Proof. intros s. exists []. cbn. rewrite app_nil_r. reflexivity. Qed.

Section Trace.
Variable E : Env.

Lemma extends_health_loop_basic budget : forall n sc,
  extends_trace (health_loop_basic E budget n sc).
Proof.
  induction budget as [|b IH]; intros n sc; cbn [health_loop_basic].
  - apply Supersession.extends_ret.
  - apply Supersession.extends_if; [apply Supersession.extends_ret|].
    apply Supersession.extends_bind.
    + unfold poll.
      repeat first [ apply Supersession.extends_external
                   | apply Supersession.extends_get
                   | apply Supersession.extends_ret
                   | apply Supersession.extends_bind
                   | progress cbv zeta | intros ].
    + intros st. apply Supersession.extends_if; unfold echo;
        repeat first [ apply IH | apply Supersession.extends_errexit
                     | apply Supersession.extends_external
                     | apply Supersession.extends_emit
                     | apply Supersession.extends_ret
                     | apply Supersession.extends_bind | intros ].
Qed.

Lemma extends_verify_basic sc : extends_trace (verify_basic E sc).
Proof.
  destruct sc as [st|]; unfold verify_basic, echo;
    repeat first [ apply Supersession.extends_errexit
                 | apply Supersession.extends_external
                 | apply Supersession.extends_emit
                 | apply Supersession.extends_ret
                 | apply Supersession.extends_exit
                 | apply Supersession.extends_if
                 | apply Supersession.extends_bind | intros ].
Qed.

End Trace.

(** X11: the first version takes exactly one argument.  With none, or
    with more than one, it prints its usage and ends with status 1
    without running a command.  With one, the first thing it does is to
    pull it, as it is: the empty string is not refused. *)
Theorem first_version_counts_its_arguments E argv0 s :
  (forall args, length args <> 1 ->
     run (deploy_basic E argv0 args) s =
     (1%Z, {| fs := fs s; cwd := cwd s; containers := containers s;
              trace := trace s ++ [Out ("Usage: " +:+ argv0 +:+ " <image>")] |}))
  /\ (forall IMAGE,
        exists rest,
          commands (trace (snd (run (deploy_basic E argv0 [IMAGE]) s)))
          = commands (trace s) ++ DockerPull IMAGE :: rest).
Proof.
  split.
  - intros args Hlen. unfold run, deploy_basic.
    destruct args as [|a [|b rest]]; [reflexivity|cbn in Hlen; lia|reflexivity].
  - intros IMAGE. rewrite run_snd. unfold deploy_basic.
    match goal with |- context [(echo ?l;; errexit ?p;; ?k) s] =>
      set (tail := k)
    end.
    assert (Hext : extends_trace tail).
    { subst tail. unfold docker_compose_up, echo.
      repeat first [ apply extends_write | apply extends_cd
                   | apply extends_health_loop_basic
                   | apply extends_verify_basic
                   | apply Supersession.extends_errexit
                   | apply Supersession.extends_external
                   | apply Supersession.extends_set_containers
                   | apply Supersession.extends_get
                   | apply Supersession.extends_emit
                   | apply Supersession.extends_bind | intros ]. }
    clearbody tail. unfold docker_pull.
    destruct (pull_status E IMAGE =? 0)%Z eqn:Hpull; sh_cases.
    + match goal with |- context [tail ?s1] =>
        destruct (Hext s1) as [t Ht]; rewrite Ht
      end.
      exists (commands t). cbn. autorewrite with trace. cbn.
      rewrite <- !app_assoc. reflexivity.
    + exists []. autorewrite with trace. cbn. rewrite <- !app_assoc.
      reflexivity.
Qed.

(** X12: called with one image that is not the empty string, the first
    version and scripts/deploy.sh differ only in what they print: they
    end with the same status, having run the same commands in the same
    order, with the same files, working directory and containers. *)
Theorem first_version_differs_only_in_print E argv0 argv0' IMAGE s :
  Text.is_null IMAGE = false ->
  fst (run (deploy_basic E argv0 [IMAGE]) s)
  = fst (run (deploy config E argv0' [IMAGE]) s)
  /\ same_effects (snd (run (deploy_basic E argv0 [IMAGE]) s))
                  (snd (run (deploy config E argv0' [IMAGE]) s)).
Proof.
  intros Himg.
  destruct (same_run_scripts E argv0 argv0' IMAGE Himg s s
              ltac:(reflexivity)) as [Hfst Hsnd].
  rewrite !run_snd. split; [|exact Hsnd]. unfold run.
  destruct (deploy_basic E argv0 [IMAGE] s) as [[[]|c1] s1],
           (deploy config E argv0' [IMAGE] s) as [[[]|c2] s2];
    cbn in Hfst |- *; congruence.
Qed.

Lemma both_versions_against_a_dead_service :
  fst (run (deploy_basic Examples.always_500 "./deploy.sh"
             ["rajibsalui/my-express-server:abc1234"]) Examples.running_host)
  = fst (run (deploy config Examples.always_500 "scripts/deploy.sh"
               ["rajibsalui/my-express-server:abc1234"])
             Examples.running_host)
  /\ same_effects
       (snd (run (deploy_basic Examples.always_500 "./deploy.sh"
                    ["rajibsalui/my-express-server:abc1234"])
                 Examples.running_host))
       (snd (run (deploy config Examples.always_500 "scripts/deploy.sh"
                    ["rajibsalui/my-express-server:abc1234"])
                 Examples.running_host)).
Proof.
  apply (first_version_differs_only_in_print Examples.always_500
           "./deploy.sh" "scripts/deploy.sh"
           "rajibsalui/my-express-server:abc1234" Examples.running_host).
  reflexivity.
Defined.

(** The empty image: one version asks docker for it, the other does not. *)
Example the_versions_differ_on_the_empty_image :
  commands (trace (snd (run (deploy_basic Examples.unknown_image "./deploy.sh"
                              [""]) Examples.fresh_host)))
  = [DockerPull ""]
  /\ commands (trace (snd (run (deploy config Examples.unknown_image
                                "scripts/deploy.sh" [""])
                             Examples.fresh_host)))
     = [].
Proof. split; vm_compute; reflexivity. Qed.

End FirstVersion.

(** ** The Image Publisher: arguments, environment, manifest *)
Module Admission.
Import Shell Publisher Spec ShellFacts Frames.

Lemma last_cons {A} (p : A) ps wf : List.last (p :: ps) wf = List.last ps p.
Proof.
  revert p wf. induction ps as [|q ps IH]; intros p wf; [reflexivity|].
  change (List.last (p :: q :: ps) wf) with (List.last (q :: ps) wf).
  rewrite !IH. reflexivity.
Qed.

(** Each well-formed option replaces the path on record. *)
Lemma parse_workflow_options argv0 rest ps : forall wf s,
  parse_args argv0 (workflow_options ps ++ rest) wf s
  = parse_args argv0 rest (List.last ps wf) s.
Proof.
  induction ps as [|p ps IH]; intros wf s; [reflexivity|].
  cbn [workflow_options flat_map app parse_args String.eqb Ascii.eqb
       Bool.eqb].
  rewrite last_cons. apply IH.
Qed.

(** X13: the argument loop, for arguments that begin with any number of
    well-formed [--workflow-file path] options.  If nothing follows, the
    last path wins (each path is taken as it is, whatever it looks
    like).  A [--workflow-file] without a path ends the script with
    status 1; [--help] or [-h] prints the usage and ends it with status
    0, whatever follows; any other argument is reported as unknown and
    ends it with status 1. *)
Theorem arguments_are_read_in_order argv0 ps wf s :
  parse_args argv0 (workflow_options ps) wf s = (Next (List.last ps wf), s)
  /\ (exists msg,
        parse_args argv0 (workflow_options ps ++ ["--workflow-file"]) wf s
        = (Exit 1%Z,
           {| fs := fs s; cwd := cwd s; containers := containers s;
              trace := trace s ++ [ErrOut msg] |}))
  /\ (forall a rest, a = "--help" \/ a = "-h" ->
        parse_args argv0 (workflow_options ps ++ a :: rest) wf s
        = (Exit 0%Z,
           {| fs := fs s; cwd := cwd s; containers := containers s;
              trace := trace s ++ [Out (usage_line argv0)] |}))
  /\ (forall a rest,
        a <> "--workflow-file" -> a <> "--help" -> a <> "-h" ->
        parse_args argv0 (workflow_options ps ++ a :: rest) wf s
        = (Exit 1%Z,
           {| fs := fs s; cwd := cwd s; containers := containers s;
              trace := trace s ++ [Out ("Unknown arg: " +:+ a)] |})).
Proof.
  split; [|split; [|split]].
  - rewrite <- (app_nil_r (workflow_options ps)), parse_workflow_options.
    reflexivity.
  - eexists. rewrite parse_workflow_options. reflexivity.
  - intros a rest [-> | ->]; rewrite parse_workflow_options; reflexivity.
  - intros a rest H1 H2 H3. rewrite parse_workflow_options.
    cbn [parse_args]. apply String.eqb_neq in H1, H2, H3.
    rewrite H1, H2, H3. reflexivity.
Qed.

(** The path given last is the one on record; an option-like path is a
    path. *)
Example the_last_workflow_file_wins :
  parse_args "./build-and-push.sh"
    ["--workflow-file"; "a.yml"; "--workflow-file"; "--help"] ""
    Examples.checkout
  = (Next "--help", Examples.checkout).
Proof. reflexivity. Qed.

Section Env.
Variable E : Env.

Lemma validate_env_refuses s :
  Text.is_null (or_empty (DOCKERHUB_REPO E)) = true
  \/ Text.is_null (or_empty (DOCKERHUB_USERNAME E)) = true
  \/ Text.is_null (or_empty (DOCKERHUB_TOKEN E)) = true ->
  exists msg,
    validate_env E s =
    (Exit 1%Z, {| fs := fs s; cwd := cwd s; containers := containers s;
                  trace := trace s ++ [Out msg] |}).
Proof.
  intros Hmissing. unfold validate_env.
  destruct (Text.is_null (or_empty (DOCKERHUB_REPO E)));
    [eexists; reflexivity|].
  destruct (Text.is_null (or_empty (DOCKERHUB_USERNAME E)));
    [eexists; reflexivity|].
  destruct (Text.is_null (or_empty (DOCKERHUB_TOKEN E)));
    [eexists; reflexivity|].
  destruct Hmissing as [H|[H|H]]; discriminate H.
Qed.

(** X14: when the repository coordinate, the user name or the token is
    unset or empty, the Image Publisher ends with status 1 as soon as
    its arguments are read: no command is run (git and docker are not
    asked anything), no file is written. *)
Theorem missing_configuration_stops_the_publisher argv0 ps s :
  Text.is_null (or_empty (DOCKERHUB_REPO E)) = true
  \/ Text.is_null (or_empty (DOCKERHUB_USERNAME E)) = true
  \/ Text.is_null (or_empty (DOCKERHUB_TOKEN E)) = true ->
  fst (run (build_and_push E argv0 (workflow_options ps)) s) = 1%Z
  /\ same_host s (snd (run (build_and_push E argv0 (workflow_options ps)) s))
  /\ commands (trace (snd (run (build_and_push E argv0 (workflow_options ps))
                             s)))
     = commands (trace s).
Proof.
  intros Hmissing. unfold run, build_and_push, publish.
  pose proof (parse_workflow_options argv0 [] ps "" s) as Hparse.
  rewrite app_nil_r in Hparse. cbn [parse_args] in Hparse.
  destruct (validate_env_refuses s Hmissing) as [msg Hv].
  rewrite bind_assoc_at, (bind_next _ _ _ _ _ Hparse).
  rewrite bind_assoc_at, (bind_exit _ _ _ _ _ Hv).
  cbn [fst snd trace]. rewrite commands_app. cbn. rewrite app_nil_r.
  repeat split.
Qed.

(** X15: a manifest that cannot be listed, or that lists no service,
    ends the script before anything is written or built: with the status
    of [docker compose config] in the first case, with status 1 and a
    message on stderr in the second. *)
Theorem empty_manifest_stops_the_publisher repo TAG s :
  fst (config_services E) <> 0%Z
  \/ Text.is_null (Text.strip_trailing_newlines (snd (config_services E)))
     = true ->
  fst (write_override E repo TAG s)
  = Exit (if (fst (config_services E) =? 0)%Z then 1%Z
          else fst (config_services E))
  /\ same_host s (snd (write_override E repo TAG s))
  /\ commands (trace (snd (write_override E repo TAG s)))
     = commands (trace s) ++ [ComposeConfigServices]
  /\ (fst (config_services E) = 0%Z ->
      In (ErrOut "[ERROR] No services found in docker-compose config. Exiting.")
         (trace (snd (write_override E repo TAG s)))).
Proof.
  intros Hbad. unfold write_override, list_services.
  destruct (fst (config_services E) =? 0)%Z eqn:Hst.
  - destruct Hbad as [Hne|Hnull]; [apply Z.eqb_eq in Hst; contradiction|].
    apply Z.eqb_eq in Hst. rewrite Hst. sh_simpl. rewrite Hnull. sh_simpl.
    split; [reflexivity|]. split; [repeat split|].
    split.
    + autorewrite with trace. cbn. rewrite <- !app_assoc. reflexivity.
    + intros _. apply in_or_app. right. left. reflexivity.
  - pose proof Hst as Hne. apply Z.eqb_neq in Hne. sh_cases.
    split; [reflexivity|]. split; [repeat split|].
    split.
    + autorewrite with trace. cbn. rewrite <- !app_assoc. reflexivity.
    + intros H0. contradiction.
Qed.

End Env.
Lemma no_credentials_no_run :
  fst (run (build_and_push Examples.no_credentials "./build-and-push.sh"
             (workflow_options [".github/workflows/deploy.yml"]))
           Examples.checkout) = 1%Z
  /\ same_host Examples.checkout
       (snd (run (build_and_push Examples.no_credentials
                    "./build-and-push.sh"
                    (workflow_options [".github/workflows/deploy.yml"]))
                 Examples.checkout))
  /\ commands
       (trace (snd (run (build_and_push Examples.no_credentials
                           "./build-and-push.sh"
                           (workflow_options [".github/workflows/deploy.yml"]))
                        Examples.checkout)))
     = commands (trace Examples.checkout).
Proof.
  apply (missing_configuration_stops_the_publisher Examples.no_credentials
           "./build-and-push.sh" [".github/workflows/deploy.yml"]
           Examples.checkout).
  right. left. reflexivity.
Defined.

Lemma manifest_without_services :
  fst (write_override Examples.no_services "rajibsalui/my-express-server"
         "abc1234" Examples.checkout)
  = Exit (if (fst (config_services Examples.no_services) =? 0)%Z then 1%Z
          else fst (config_services Examples.no_services))
  /\ same_host Examples.checkout
       (snd (write_override Examples.no_services
               "rajibsalui/my-express-server" "abc1234" Examples.checkout))
  /\ commands
       (trace (snd (write_override Examples.no_services
                      "rajibsalui/my-express-server" "abc1234"
                      Examples.checkout)))
     = commands (trace Examples.checkout) ++ [ComposeConfigServices]
  /\ (fst (config_services Examples.no_services) = 0%Z ->
      In (ErrOut "[ERROR] No services found in docker-compose config. Exiting.")
         (trace (snd (write_override Examples.no_services
                        "rajibsalui/my-express-server" "abc1234"
                        Examples.checkout)))).
Proof.
  apply (empty_manifest_stops_the_publisher Examples.no_services
           "rajibsalui/my-express-server" "abc1234" Examples.checkout).
  right. reflexivity.
Defined.

(** A manifest that lists nothing. *)
Example nothing_to_build :
  fst (run (build_and_push Examples.no_services "./build-and-push.sh" [])
           Examples.checkout) = 1%Z
  /\ fs (snd (run (build_and_push Examples.no_services
                     "./build-and-push.sh" []) Examples.checkout))
     = fs Examples.checkout.
Proof. split; vm_compute; reflexivity. Qed.

End Admission.

(** ** The Image Publisher: nothing leaves before the login *)
Module Guard.
Import Shell Publisher Spec ShellFacts Frames.

#[global] Instance nothing_published_preorder : PreOrder nothing_published.
Proof.
  split.
  - intros s. split; [|reflexivity]. exists []. rewrite app_nil_r. auto.
  - intros a b c [(t1 & Ht1 & Hq1) Hf1] [(t2 & Ht2 & Hq2) Hf2]. split.
    + exists (t1 ++ t2). rewrite Ht2, Ht1, app_assoc, forallb_app, Hq1, Hq2.
      auto.
    + intros q Hq. rewrite (Hf2 q Hq). apply Hf1, Hq.
Qed.

Section Generic.
Context (R : relation State) `{!PreOrder R}.

Lemma preserves_ext {A} (m m' : Sh A) :
  (forall s, m s = m' s) -> preserves R m' -> preserves R m.
Proof. intros Heq H s. rewrite Heq. apply H. Qed.

(** [if refused; then p; exit c; fi] followed by [k]. *)
Lemma preserves_check {B} (refused : bool) (p : Sh unit) c (k : Sh B) :
  preserves R p ->
  (refused = false -> preserves R k) ->
  preserves R ((if refused then p;; exit c else mret tt);; k).
Proof.
  intros Hp Hk. destruct refused.
  - intros s. specialize (Hp s). unfold mbind, Sh_bind, bind, exit.
    destruct (p s) as [[[]|c'] s1]; exact Hp.
  - intros s. apply (Hk eq_refl).
Qed.

Lemma preserves_unless C {A} (m : Sh A) :
  preserves R m -> preserves (unless C R) m.
Proof. intros H s. right. apply H. Qed.

Lemma preserves_when C {A} (m : Sh A) : C -> preserves (unless C R) m.
Proof. intros H s. left. exact H. Qed.

End Generic.

Lemma quiet_emit e : is_push e = false -> preserves nothing_published (emit e).
Proof.
  intros He s. split; [|reflexivity]. exists [e]. split; [reflexivity|].
  cbn. rewrite He. reflexivity.
Qed.

Lemma quiet_external loud c st :
  (forall i, c <> DockerPush i) ->
  preserves nothing_published (external loud c st).
Proof.
  intros Hc. frame preserves_external; apply quiet_emit; [|reflexivity].
  destruct c; try reflexivity. exfalso. exact (Hc _ eq_refl).
Qed.

Lemma quiet_log msg : preserves nothing_published (log msg).
Proof. unfold log. frame preserves_then; apply quiet_emit; reflexivity. Qed.

Lemma quiet_err msg : preserves nothing_published (err msg).
Proof. unfold err. frame preserves_then; apply quiet_emit; reflexivity. Qed.

Lemma quiet_echo l : preserves nothing_published (echo l).
Proof. apply quiet_emit. reflexivity. Qed.

Lemma quiet_echo_all ls : preserves nothing_published (echo_all ls).
Proof.
  induction ls as [|l ls IH]; cbn [echo_all]; [frame preserves_ret|].
  frame preserves_then; [apply quiet_echo|exact IH].
Qed.

Lemma quiet_write content :
  preserves nothing_published (write_file OVERRIDE_FILE content).
Proof.
  intros s. split.
  - exists []. cbn. rewrite app_nil_r. auto.
  - intros q Hq. cbn. apply lookup_insert_ne. congruence.
Qed.

Lemma quiet_append content :
  preserves nothing_published (append_file OVERRIDE_FILE content).
Proof.
  intros s. split.
  - exists []. cbn. rewrite app_nil_r. auto.
  - intros q Hq. cbn. apply lookup_insert_ne. congruence.
Qed.

(** Brings the first command of a nested sequence to the front. *)
Ltac reassoc :=
  eapply preserves_ext; [intros ?; apply bind_assoc_at|];
  cbv beta.

Section Script.
Variable E : Env.

Lemma quiet_parse_args argv0 : forall n args wf,
  length args <= n -> preserves nothing_published (parse_args argv0 args wf).
Proof.
  induction n as [|n IH]; intros args wf Hlen.
  - destruct args; [frame preserves_ret|cbn in Hlen; lia].
  - destruct args as [|a rest]; [frame preserves_ret|]. cbn [parse_args].
    frame preserves_if; [|frame preserves_if].
    + destruct rest as [|v rest'].
      * frame preserves_then; [apply quiet_emit; reflexivity
                              |frame preserves_exit].
      * apply IH. cbn in Hlen. lia.
    + frame preserves_then; [apply quiet_echo|frame preserves_exit].
    + frame preserves_then; [apply quiet_echo|frame preserves_exit].
Qed.

Lemma quiet_resolve_tag : preserves nothing_published (resolve_tag E).
Proof.
  unfold resolve_tag. frame preserves_if; [frame preserves_ret|].
  frame preserves_bind.
  { frame preserves_if; [|frame preserves_ret].
    frame preserves_bind; [apply quiet_external; discriminate|].
    intros st. frame preserves_ret. }
  intros inside. frame preserves_if; [|frame preserves_ret].
  frame preserves_bind; [apply quiet_external; discriminate|].
  intros st. frame preserves_if; [frame preserves_ret|frame preserves_exit].
Qed.

Lemma quiet_tag_services repo TAG ss :
  preserves nothing_published (tag_services repo TAG ss).
Proof.
  induction ss as [|x ss IH]; cbn [tag_services]; [frame preserves_ret|].
  cbv zeta. frame preserves_then; [apply quiet_append|].
  frame preserves_then; [apply quiet_log|exact IH].
Qed.

Lemma quiet_write_override repo TAG :
  preserves nothing_published (write_override E repo TAG).
Proof.
  unfold write_override, list_services.
  frame preserves_then; [apply quiet_log|].
  frame preserves_bind.
  { frame preserves_bind; [apply quiet_external; discriminate|].
    intros st. frame preserves_if; [frame preserves_ret|frame preserves_exit]. }
  intros SERVICES. frame preserves_then.
  { frame preserves_if; [|frame preserves_ret].
    frame preserves_then; [apply quiet_err|frame preserves_exit]. }
  frame preserves_then; [apply quiet_log|].
  frame preserves_then; [apply quiet_echo_all|].
  frame preserves_then; [apply quiet_log|].
  frame preserves_then; [apply quiet_write|].
  frame preserves_then; [|frame preserves_ret].
  frame preserves_if; [|apply quiet_tag_services].
  cbv zeta. frame preserves_then; [apply quiet_append|apply quiet_log].
Qed.

(** The whole script, with the pushes and the workflow patch under the
    guard of the checks and of the two commands that precede them. *)
Lemma guarded_build_and_push argv0 args :
  preserves (unless (ready_to_push E) nothing_published)
            (build_and_push E argv0 args).
Proof.
  unfold build_and_push, publish.
  reassoc.
  frame preserves_bind;
    [apply preserves_unless, (quiet_parse_args argv0 (length args)); lia|].
  intros wf. unfold validate_env.
  reassoc.
  reassoc.
  frame preserves_check; [apply preserves_unless, quiet_echo|intros Hrepo].
  frame preserves_check; [apply preserves_unless, quiet_echo|intros Hcred].
  apply orb_false_elim in Hcred as [Huser Htoken].
  reassoc.
  frame preserves_bind; [apply preserves_unless, quiet_resolve_tag|].
  intros TAG.
  do 2 (reassoc;
        frame preserves_then; [apply preserves_unless, quiet_log|]).
  reassoc.
  frame preserves_bind; [apply preserves_unless, quiet_write_override|].
  intros SERVICES. unfold docker_build, docker_login.
  do 2 (reassoc).
  frame preserves_then; [apply preserves_unless, quiet_log|].
  frame preserves_guarded;
    [apply preserves_unless, quiet_external; discriminate|intros Hbuild].
  do 2 (reassoc).
  frame preserves_then; [apply preserves_unless, quiet_log|].
  frame preserves_guarded;
    [apply preserves_unless, quiet_external; discriminate|intros Hlogin].
  apply preserves_when. repeat split; assumption.
Qed.

End Script.

(** X16: unless the repository coordinate and the credentials are
    given, the build succeeds and the login succeeds, a run of the Image
    Publisher pushes no image and leaves every file other than its
    tagging override as it was: the workflow file is never patched with
    the tag of an image that was not pushed. *)
Theorem nothing_is_published_before_the_login E argv0 args s :
  ~ ready_to_push E ->
  nothing_published s (snd (run (build_and_push E argv0 args) s)).
Proof.
  intros Hnot. rewrite run_snd.
  destruct (guarded_build_and_push E argv0 args s) as [Hready|Hquiet];
    [contradiction|exact Hquiet].
Qed.

Lemma nothing_is_published_by_a_failed_build :
  nothing_published Examples.checkout
    (snd (run (build_and_push Examples.build_fails "./build-and-push.sh"
                 ["--workflow-file"; ".github/workflows/deploy.yml"])
              Examples.checkout)).
Proof.
  apply (nothing_is_published_before_the_login Examples.build_fails
           "./build-and-push.sh"
           ["--workflow-file"; ".github/workflows/deploy.yml"]
           Examples.checkout).
  intros (_ & _ & _ & Hbuild & _). discriminate Hbuild.
Defined.

End Guard.

(** ** The Image Publisher: a run that goes through *)
Module Delivery.
Import Shell Publisher Spec ShellFacts Frames.

Lemma hands_over_bind {A B} (m : Sh A) (k : A -> Sh B) f a cs1 f1 b cs2 f2 :
  hands_over m f a cs1 f1 ->
  hands_over (k a) f1 b cs2 f2 ->
  hands_over (m ≫= k) f b (cs1 ++ cs2) f2.
Proof.
  intros Hm Hk s Hs. destruct (Hm s Hs) as (s1 & Hm1 & Hc1 & Hf1).
  destruct (Hk s1 Hf1) as (s2 & Hk2 & Hc2 & Hf2).
  exists s2. rewrite (bind_next _ _ _ _ _ Hm1), Hk2.
  split; [reflexivity|]. split; [|exact Hf2].
  rewrite Hc2, Hc1, app_assoc. reflexivity.
Qed.

Lemma hands_over_as {A} (m : Sh A) f a cs cs' f1 f1' :
  hands_over m f a cs f1 -> cs = cs' -> f1 = f1' -> hands_over m f a cs' f1'.
Proof. intros H <- <-. exact H. Qed.

Lemma hands_over_ret {A} (a : A) f : hands_over (mret a : Sh A) f a [] f.
Proof. intros s Hs. exists s. rewrite app_nil_r. repeat split. exact Hs. Qed.

Lemma hands_over_emit e f :
  (forall c, e <> Run c) -> hands_over (emit e) f tt [] f.
Proof.
  intros He s Hs. eexists. split; [reflexivity|]. cbn. split; [|exact Hs].
  rewrite commands_app. destruct e; cbn; rewrite ?app_nil_r; try reflexivity.
  exfalso. exact (He c eq_refl).
Qed.

Lemma hands_over_log msg f : hands_over (log msg) f tt [] f.
Proof.
  unfold log. apply (hands_over_bind _ _ f tt [] f tt [] f);
    apply hands_over_emit; discriminate.
Qed.

Lemma hands_over_echo_all ls f : hands_over (echo_all ls) f tt [] f.
Proof.
  induction ls as [|l ls IH]; cbn [echo_all]; [apply hands_over_ret|].
  apply (hands_over_bind _ _ f tt [] f tt [] f); [|exact IH].
  apply hands_over_emit. discriminate.
Qed.

(** A command in errexit position that succeeds. *)
Lemma hands_over_command loud c f :
  hands_over (errexit (external loud c 0)) f tt [c] f.
Proof.
  intros s Hs. eexists. unfold errexit, external. rewrite andb_false_r.
  split; [reflexivity|]. cbn. split; [|exact Hs].
  rewrite !commands_app. reflexivity.
Qed.

Lemma hands_over_write path content f :
  hands_over (write_file path content) f tt [] (<[path := content]> f).
Proof.
  intros s Hs. eexists. split; [reflexivity|]. cbn. rewrite app_nil_r, Hs.
  split; reflexivity.
Qed.

Lemma hands_over_append path text content f :
  f !! path = Some text ->
  hands_over (append_file path content) f tt []
             (<[path := text +:+ content]> f).
Proof.
  intros Hfile s Hs. eexists. split; [reflexivity|]. cbn.
  rewrite app_nil_r, Hs, Hfile. split; reflexivity.
Qed.

Lemma hands_over_remove path f :
  hands_over (rm_f path) f tt [] (delete path f).
Proof.
  intros s Hs. eexists. split; [reflexivity|]. cbn. rewrite app_nil_r, Hs.
  split; reflexivity.
Qed.

(** Chains the next step of a sequence. *)
Ltac next_step := eapply hands_over_bind.

Section Run.
Variable E : Env.

Lemma validate_env_run f :
  Text.is_null (or_empty (DOCKERHUB_REPO E)) = false ->
  Text.is_null (or_empty (DOCKERHUB_USERNAME E)) = false ->
  Text.is_null (or_empty (DOCKERHUB_TOKEN E)) = false ->
  hands_over (validate_env E) f tt [] f.
Proof.
  intros H1 H2 H3. unfold validate_env. rewrite H1, H2, H3.
  apply (hands_over_bind _ _ f tt [] f tt [] f); apply hands_over_ret.
Qed.

Lemma resolve_tag_run f :
  tag_resolves E ->
  hands_over (resolve_tag E) f (preferred_tag E) (tag_commands E) f.
Proof.
  unfold tag_resolves, resolve_tag, preferred_tag, commit_available,
    git_usable, tag_commands, hands_over.
  destruct (Text.is_null (or_empty (GITHUB_SHA E))) eqn:Hsha; cbn [negb].
  - destruct (git_on_path E); cbn [andb].
    + destruct (inside_work_tree E =? 0)%Z eqn:Hin.
      * intros Hvalid s Hs. pose proof (Hvalid eq_refl eq_refl) as Hst.
        eexists. sh_cases. split; [reflexivity|]. cbn.
        rewrite !commands_app. cbn. rewrite <- ?app_assoc. auto.
      * intros _ s Hs. eexists. sh_cases. split; [reflexivity|]. cbn.
        rewrite !commands_app. cbn. rewrite <- ?app_assoc. auto.
    + intros _ s Hs. eexists. sh_cases. split; [reflexivity|].
      rewrite app_nil_r. auto.
  - intros _ s Hs. eexists. sh_cases. split; [reflexivity|].
    rewrite app_nil_r. auto.
Qed.

Lemma list_services_run f :
  fst (config_services E) = 0%Z ->
  hands_over (list_services E) f
    (Text.strip_trailing_newlines (snd (config_services E)))
    [ComposeConfigServices] f.
Proof.
  intros Hst s Hs. unfold list_services. eexists. sh_cases.
  split; [reflexivity|]. cbn. rewrite !commands_app. cbn.
  rewrite <- ?app_assoc. auto.
Qed.

(** The entries are appended one after the other to what the file holds. *)
Lemma tag_services_run repo TAG ss : forall f text,
  f !! OVERRIDE_FILE = Some text ->
  hands_over (tag_services repo TAG ss) f tt []
    (<[OVERRIDE_FILE :=
         text +:+ entries_text
                    (map (fun x => (x, image_name repo TAG x)) ss)]> f).
Proof.
  induction ss as [|x ss IH]; intros f text Hfile; cbn [tag_services].
  - eapply hands_over_as; [apply hands_over_ret|reflexivity|].
    cbn. rewrite sapp_nil_r. symmetry. apply insert_id, Hfile.
  - cbv zeta. eapply hands_over_as.
    + next_step; [apply (hands_over_append _ _ _ _ Hfile)|].
      next_step; [apply hands_over_log|].
      apply IH. apply lookup_insert_eq.
    + reflexivity.
    + cbn [map entries_text fold_right fst snd].
      rewrite insert_insert_eq, sapp_assoc. reflexivity.
Qed.

Lemma write_override_run repo TAG f :
  fst (config_services E) = 0%Z ->
  Text.is_null (Text.strip_trailing_newlines (snd (config_services E)))
  = false ->
  hands_over (write_override E repo TAG) f
    (Text.strip_trailing_newlines (snd (config_services E)))
    [ComposeConfigServices]
    (<[OVERRIDE_FILE :=
         override_text repo TAG
           (Text.strip_trailing_newlines (snd (config_services E)))]> f).
Proof.
  intros Hst Hnull. unfold write_override, override_text, tagged_services.
  set (SERVICES := Text.strip_trailing_newlines (snd (config_services E))) in *.
  destruct (NUM_SERVICES SERVICES =? 1) eqn:Hnum.
  - eapply hands_over_as.
    + next_step; [apply hands_over_log|].
      next_step; [apply (list_services_run _ Hst)|]. fold SERVICES.
      rewrite Hnull, Hnum.
      next_step; [apply hands_over_ret|].
      next_step; [apply hands_over_log|].
      next_step; [apply hands_over_echo_all|].
      next_step; [apply hands_over_log|].
      next_step; [apply hands_over_write|].
      next_step; [|apply hands_over_ret].
      cbv zeta.
      next_step; [apply (hands_over_append _ override_header)|
                  apply hands_over_log].
      apply lookup_insert_eq.
    + reflexivity.
    + cbn [entries_text fold_right fst snd].
      rewrite insert_insert_eq, sapp_nil_r. reflexivity.
  - eapply hands_over_as.
    + next_step; [apply hands_over_log|].
      next_step; [apply (list_services_run _ Hst)|]. fold SERVICES.
      rewrite Hnull, Hnum.
      next_step; [apply hands_over_ret|].
      next_step; [apply hands_over_log|].
      next_step; [apply hands_over_echo_all|].
      next_step; [apply hands_over_log|].
      next_step; [apply hands_over_write|].
      next_step; [|apply hands_over_ret].
      apply (tag_services_run _ _ _ _ override_header), lookup_insert_eq.
    + reflexivity.
    + rewrite insert_insert_eq. reflexivity.
Qed.

Lemma push_all_run images : forall f,
  (forall i, In i images -> push_status E i = 0%Z) ->
  hands_over (push_all E images) f tt (map DockerPush images) f.
Proof.
  induction images as [|x images IH]; intros f Hok; cbn [push_all map].
  - apply hands_over_ret.
  - eapply hands_over_as.
    + next_step; [apply hands_over_log|].
      next_step; [|apply IH; intros i Hi; apply Hok; right; exact Hi].
      rewrite (Hok x (or_introl eq_refl)). apply hands_over_command.
    + reflexivity.
    + reflexivity.
Qed.

(** The pushes stop at the first one that fails. *)
Lemma push_all_stops pre x post : forall s,
  (forall i, In i pre -> push_status E i = 0%Z) ->
  push_status E x <> 0%Z ->
  exists s',
    push_all E (pre ++ x :: post) s = (Exit (push_status E x), s')
    /\ commands (trace s')
       = commands (trace s) ++ map DockerPush (pre ++ [x])
    /\ fs s' = fs s.
Proof.
  induction pre as [|p pre IH]; intros s Hok Hx.
  - cbn [app push_all map]. apply Z.eqb_neq in Hx. sh_cases.
    eexists. split; [reflexivity|]. cbn. autorewrite with trace. cbn.
    rewrite <- ?app_assoc. auto.
  - cbn [app push_all map].
    pose proof (Hok p (or_introl eq_refl)) as Hp. sh_cases.
    match goal with |- context [push_all E (pre ++ x :: post) ?s1] =>
      destruct (IH s1 (fun i Hi => Hok i (or_intror Hi)) Hx)
        as (s' & Hrun & Hc & Hf)
    end.
    exists s'. split; [exact Hrun|]. rewrite Hc, Hf. cbn.
    autorewrite with trace. cbn. rewrite <- ?app_assoc. auto.
Qed.

End Run.

(** *** What a run that hands over has been through *)

Lemma bind_next_inv {A B} (m : Sh A) (k : A -> Sh B) s b s2 :
  (m ≫= k) s = (Next b, s2) ->
  exists a s1, m s = (Next a, s1) /\ k a s1 = (Next b, s2).
Proof.
  unfold mbind, Sh_bind, bind. destruct (m s) as [[a|c] s1]; [eauto|].
  discriminate.
Qed.

Lemma command_next loud c st s s1 :
  errexit (external loud c st) s = (Next tt, s1) -> st = 0%Z.
Proof.
  unfold errexit. intros H. apply bind_next_inv in H as (a & s0 & Hext & H).
  assert (a = st) as ->.
  { unfold external in Hext. revert Hext. sh_simpl.
    destruct (loud && negb (st =? 0)%Z); cbn; congruence. }
  destruct (Z.eqb_spec st 0); [assumption|discriminate H].
Qed.

Section Stages.
Variable E : Env.

Lemma validate_env_next s s1 :
  validate_env E s = (Next tt, s1) ->
  Text.is_null (or_empty (DOCKERHUB_REPO E)) = false
  /\ Text.is_null (or_empty (DOCKERHUB_USERNAME E)) = false
  /\ Text.is_null (or_empty (DOCKERHUB_TOKEN E)) = false.
Proof.
  unfold validate_env.
  destruct (Text.is_null (or_empty (DOCKERHUB_REPO E))); [discriminate|].
  destruct (Text.is_null (or_empty (DOCKERHUB_USERNAME E))); [discriminate|].
  destruct (Text.is_null (or_empty (DOCKERHUB_TOKEN E))); [discriminate|].
  auto.
Qed.

Lemma resolve_tag_next s TAG s1 :
  resolve_tag E s = (Next TAG, s1) -> tag_resolves E /\ TAG = preferred_tag E.
Proof.
  unfold tag_resolves, resolve_tag, preferred_tag, commit_available,
    git_usable.
  destruct (Text.is_null (or_empty (GITHUB_SHA E))) eqn:Hsha; cbn [negb].
  - destruct (git_on_path E); cbn [andb].
    + destruct (inside_work_tree E =? 0)%Z eqn:Hin.
      * destruct (fst (rev_parse_short E) =? 0)%Z eqn:Hrev; sh_cases;
          intros H; [|discriminate H].
        apply Z.eqb_eq in Hrev. split; [auto|congruence].
      * sh_cases. intros H. split; [discriminate|congruence].
    + sh_cases. intros H. split; [discriminate|congruence].
  - sh_cases. intros H. split; [discriminate|congruence].
Qed.

Lemma write_override_next repo TAG s SERVICES s1 :
  write_override E repo TAG s = (Next SERVICES, s1) ->
  fst (config_services E) = 0%Z
  /\ SERVICES = Text.strip_trailing_newlines (snd (config_services E))
  /\ Text.is_null SERVICES = false.
Proof.
  unfold write_override. intros H.
  apply bind_next_inv in H as ([] & s2 & _ & H).
  apply bind_next_inv in H as (S0 & s3 & Hlist & H).
  apply bind_next_inv in H as ([] & s4 & Hcheck & H).
  assert (Hst : fst (config_services E) = 0%Z
                /\ S0 = Text.strip_trailing_newlines (snd (config_services E))).
  { unfold list_services in Hlist. revert Hlist.
    destruct (fst (config_services E) =? 0)%Z eqn:Hst; sh_cases;
      intros Hlist; [|discriminate Hlist].
    apply Z.eqb_eq in Hst. split; [exact Hst|congruence]. }
  assert (Hnull : Text.is_null S0 = false).
  { destruct (Text.is_null S0); [|reflexivity].
    revert Hcheck. sh_simpl. discriminate. }
  do 5 (apply bind_next_inv in H as (? & ? & _ & H)).
  unfold mret, Sh_ret, ret in H. injection H as <- _.
  destruct Hst as [Hst ->]. auto.
Qed.

Lemma push_all_next images : forall s s1,
  push_all E images s = (Next tt, s1) ->
  forall i, In i images -> push_status E i = 0%Z.
Proof.
  induction images as [|x images IH]; intros s s1 H i Hi; [contradiction|].
  cbn [push_all] in H.
  apply bind_next_inv in H as ([] & s2 & _ & H).
  apply bind_next_inv in H as ([] & s3 & Hcmd & H).
  destruct Hi as [<-|Hi].
  - exact (command_next _ _ _ _ _ Hcmd).
  - exact (IH _ _ H i Hi).
Qed.

(** A run without a workflow file that hands over to the workflow step
    has met every condition of a sound run. *)
Lemma publish_next argv0 s r s1 :
  publish E argv0 [] s = (Next r, s1) -> sound_run E.
Proof.
  unfold publish. intros H.
  apply bind_next_inv in H as (wf & s2 & _ & H).
  apply bind_next_inv in H as ([] & s3 & Hval & H).
  apply bind_next_inv in H as (TAG & s4 & Htag & H).
  apply bind_next_inv in H as ([] & s5 & _ & H).
  apply bind_next_inv in H as ([] & s6 & _ & H).
  apply bind_next_inv in H as (SERVICES & s7 & Hover & H).
  apply bind_next_inv in H as ([] & s8 & Hbuild & H).
  apply bind_next_inv in H as ([] & s9 & Hlogin & H).
  apply bind_next_inv in H as ([] & s10 & Hpush & H).
  apply validate_env_next in Hval as (Hrepo & Huser & Htoken).
  apply resolve_tag_next in Htag as (Hres & ->).
  apply write_override_next in Hover as (Hst & -> & Hnull).
  unfold docker_build in Hbuild.
  apply bind_next_inv in Hbuild as ([] & ? & _ & Hbuild).
  apply command_next in Hbuild.
  unfold docker_login in Hlogin.
  apply bind_next_inv in Hlogin as ([] & ? & _ & Hlogin).
  apply command_next in Hlogin.
  unfold push_stage in Hpush.
  apply bind_next_inv in Hpush as ([] & ? & _ & Hpush).
  apply bind_next_inv in Hpush as ([] & ? & Hpush & _).
  repeat split; try assumption.
  exact (push_all_next _ _ _ Hpush).
Qed.

End Stages.

(** X17: the images are pushed one by one in the order of the list, and
    the first push that fails ends the script with its status: the
    images after it are not pushed, those before it stay pushed. *)
Theorem the_first_failed_push_ends_the_run E pre x post s :
  (forall i, In i pre -> push_status E i = 0%Z) ->
  push_status E x <> 0%Z ->
  fst (push_all E (pre ++ x :: post) s) = Exit (push_status E x)
  /\ commands (trace (snd (push_all E (pre ++ x :: post) s)))
     = commands (trace s) ++ map DockerPush (pre ++ [x])
  /\ fs (snd (push_all E (pre ++ x :: post) s)) = fs s.
Proof.
  intros Hok Hx.
  destruct (push_all_stops E pre x post s Hok Hx) as (s' & Hrun & Hc & Hf).
  rewrite Hrun. auto.
Qed.

(** The tagging override on a host that refuses nothing. *)
Lemma write_override_result E repo TAG s :
  fst (config_services E) = 0%Z ->
  Text.is_null (Text.strip_trailing_newlines (snd (config_services E)))
  = false ->
  fst (write_override E repo TAG s)
  = Next (Text.strip_trailing_newlines (snd (config_services E)))
  /\ fs (snd (write_override E repo TAG s))
     = <[OVERRIDE_FILE :=
           override_text repo TAG
             (Text.strip_trailing_newlines (snd (config_services E)))]> (fs s)
  /\ map snd (tagged_services repo TAG
                (Text.strip_trailing_newlines (snd (config_services E))))
     = image_names repo TAG
         (Text.strip_trailing_newlines (snd (config_services E))).
Proof.
  intros Hst Hnull.
  destruct (write_override_run E repo TAG (fs s) Hst Hnull s eq_refl)
    as (s' & Hrun & _ & Hf).
  rewrite Hrun. cbn [fst snd]. split; [reflexivity|]. split; [exact Hf|].
  unfold tagged_services, image_names.
  destruct (NUM_SERVICES _ =? 1); [reflexivity|].
  rewrite map_map. reflexivity.
Qed.

(** The Image Publisher run without arguments on a host that refuses
    nothing. *)
Lemma sound_run_exit_status E argv0 s :
  (fst (run (build_and_push E argv0 []) s) = 0%Z <-> sound_run E)
  /\ (sound_run E ->
      commands (trace (snd (run (build_and_push E argv0 []) s)))
      = commands (trace s) ++ tag_commands E
        ++ [ComposeConfigServices; ComposeBuild OVERRIDE_FILE;
            DockerLogin (or_empty (DOCKERHUB_USERNAME E))]
        ++ map DockerPush
             (image_names (or_empty (DOCKERHUB_REPO E)) (preferred_tag E)
                (Text.strip_trailing_newlines (snd (config_services E))))
      /\ fs (snd (run (build_and_push E argv0 []) s))
         = delete OVERRIDE_FILE (fs s)).
Proof.
  assert (Hsound : sound_run E ->
            hands_over (build_and_push E argv0 []) (fs s) tt
              (tag_commands E
               ++ [ComposeConfigServices; ComposeBuild OVERRIDE_FILE;
                   DockerLogin (or_empty (DOCKERHUB_USERNAME E))]
               ++ map DockerPush
                    (image_names (or_empty (DOCKERHUB_REPO E))
                       (preferred_tag E)
                       (Text.strip_trailing_newlines
                          (snd (config_services E)))))
              (delete OVERRIDE_FILE (fs s))).
  { intros ((Hrepo & Huser & Htoken & Hbuild & Hlogin) & Htag & Hst & Hnull
            & Hpush).
    unfold build_and_push, publish. eapply hands_over_as.
    - next_step.
      + next_step; [apply hands_over_ret|].
        next_step; [apply validate_env_run; assumption|].
        next_step; [apply resolve_tag_run, Htag|].
        next_step; [apply hands_over_log|].
        next_step; [apply hands_over_log|].
        next_step; [apply write_override_run; assumption|].
        next_step.
        { unfold docker_build. next_step; [apply hands_over_log|].
          rewrite Hbuild. apply hands_over_command. }
        next_step.
        { unfold docker_login. next_step; [apply hands_over_log|].
          rewrite Hlogin. apply hands_over_command. }
        next_step; [|apply hands_over_ret].
        unfold push_stage. next_step; [apply hands_over_log|].
        next_step; [apply push_all_run, Hpush|].
        next_step; [apply hands_over_log|apply hands_over_echo_all].
      + cbn [fst snd]. next_step.
        { unfold update_workflow. cbn [Text.is_null negb].
          apply hands_over_log. }
        unfold cleanup. next_step; [apply hands_over_log|].
        next_step; [apply hands_over_remove|apply hands_over_log].
    - cbn [app]. rewrite ?app_nil_r. reflexivity.
    - apply delete_insert_eq. }
  split; [split|].
  - intros Hzero. unfold run, build_and_push in Hzero.
    destruct (publish E argv0 [] s) as [[r|c] s1] eqn:Hp.
    + exact (publish_next E argv0 s r s1 Hp).
    + rewrite (bind_exit _ _ _ _ _ Hp) in Hzero. cbn [fst] in Hzero.
      destruct (Publishing.publish_cases E argv0 [] s) as [_ Hexit].
      rewrite Hp in Hexit.
      destruct (Hexit c eq_refl Hzero) as [[]|[]].
  - intros H. destruct (Hsound H s eq_refl) as (s' & Hs' & _).
    unfold run. rewrite Hs'. reflexivity.
  - intros H. destruct (Hsound H s eq_refl) as (s' & Hs' & Hc & Hf).
    unfold run. rewrite Hs'. cbn [snd]. rewrite Hc, Hf. auto.
Qed.

Lemma the_second_of_three_pushes_fails :
  fst (push_all Examples.second_push_fails
         (["rajibsalui/my-express-server-web-:9fceb02"]
          ++ "rajibsalui/my-express-server-a--b-:9fceb02"
          :: ["rajibsalui/my-express-server-db-:9fceb02"]) Examples.checkout)
  = Exit (push_status Examples.second_push_fails
            "rajibsalui/my-express-server-a--b-:9fceb02")
  /\ commands
       (trace (snd (push_all Examples.second_push_fails
                      (["rajibsalui/my-express-server-web-:9fceb02"]
                       ++ "rajibsalui/my-express-server-a--b-:9fceb02"
                       :: ["rajibsalui/my-express-server-db-:9fceb02"])
                      Examples.checkout)))
     = commands (trace Examples.checkout)
       ++ map DockerPush (["rajibsalui/my-express-server-web-:9fceb02"]
                          ++ ["rajibsalui/my-express-server-a--b-:9fceb02"])
  /\ fs (snd (push_all Examples.second_push_fails
                 (["rajibsalui/my-express-server-web-:9fceb02"]
                  ++ "rajibsalui/my-express-server-a--b-:9fceb02"
                  :: ["rajibsalui/my-express-server-db-:9fceb02"])
                 Examples.checkout))
     = fs Examples.checkout.
Proof.
  apply (the_first_failed_push_ends_the_run Examples.second_push_fails
           ["rajibsalui/my-express-server-web-:9fceb02"]
           "rajibsalui/my-express-server-a--b-:9fceb02"
           ["rajibsalui/my-express-server-db-:9fceb02"] Examples.checkout).
  - intros i [<-|[]]. reflexivity.
  - cbn. discriminate.
Defined.

(** The whole script on that manifest: two pushes, status 1. *)
Example the_third_image_is_not_pushed :
  fst (run (build_and_push Examples.second_push_fails "./build-and-push.sh" [])
           Examples.checkout) = 1%Z
  /\ commands
       (trace (snd (run (build_and_push Examples.second_push_fails
                           "./build-and-push.sh" []) Examples.checkout)))
     = [GitIsInsideWorkTree; GitRevParseShort; ComposeConfigServices;
        ComposeBuild OVERRIDE_FILE; DockerLogin "rajibsalui";
        DockerPush "rajibsalui/my-express-server-web-:9fceb02";
        DockerPush "rajibsalui/my-express-server-a--b-:9fceb02"].
Proof. split; vm_compute; reflexivity. Qed.

Example the_override_text_of_two_services :
  override_text "rajibsalui/my-express-server" "9fceb02"
    (Text.strip_trailing_newlines (snd (config_services Examples.two_services)))
  = "version: " +:+ Text.dquote +:+ "3.8" +:+ Text.dquote +:+ Text.nl
    +:+ "services:" +:+ Text.nl
    +:+ "  web:" +:+ Text.nl
    +:+ "    image: rajibsalui/my-express-server-web-:9fceb02" +:+ Text.nl
    +:+ "  a__b:" +:+ Text.nl
    +:+ "    image: rajibsalui/my-express-server-a--b-:9fceb02" +:+ Text.nl.
Proof. vm_compute. reflexivity. Qed.

(** That environment is sound, and the run pushes the two images. *)
Example a_sound_local_run_in_full :
  sound_run Examples.two_services
  /\ commands
       (trace (snd (run (build_and_push Examples.two_services
                           "./build-and-push.sh" []) Examples.checkout)))
     = [GitIsInsideWorkTree; GitRevParseShort; ComposeConfigServices;
        ComposeBuild OVERRIDE_FILE; DockerLogin "rajibsalui";
        DockerPush "rajibsalui/my-express-server-web-:9fceb02";
        DockerPush "rajibsalui/my-express-server-a--b-:9fceb02"].
Proof.
  split; [|vm_compute; reflexivity].
  repeat split.
Qed.

End Delivery.

(** ** Names and references *)
Module Naming.
Import Shell Publisher Spec ShellFacts TextFacts.

Lemma sapp_cancel_l a : forall x y, a +:+ x = a +:+ y -> x = y.
Proof.
  induction a as [|c a IH]; intros x y H; [exact H|].
  rewrite !sapp_cons in H. injection H as H. apply IH, H.
Qed.

Lemma sapp_cancel_r c : forall x y, x +:+ c = y +:+ c -> x = y.
Proof.
  intros x y H.
  assert (Hlen : String.length x = String.length y).
  { apply (f_equal String.length) in H. rewrite !sapp_length in H. lia. }
  revert y H Hlen. induction x as [|a x IH]; intros [|b y] H Hlen;
    try discriminate Hlen; [reflexivity|].
  rewrite !sapp_cons in H. injection H as -> H. f_equal.
  apply IH; [exact H|]. cbn in Hlen. lia.
Qed.

Lemma to_lower_twice c : to_lower (to_lower c) = to_lower c.
Proof. destruct c as [[] [] [] [] [] [] [] []]; reflexivity. Qed.

(** Two references agree exactly when their suffixes do. *)
Lemma same_reference repo tag a b :
  image_name repo tag a = image_name repo tag b <-> S_SAFE a = S_SAFE b.
Proof.
  unfold image_name. split; [|intros ->; reflexivity]. intros H.
  apply sapp_cancel_l, sapp_cancel_l in H.
  apply sapp_cancel_r in H. exact H.
Qed.

(** The suffix of a name that [echo] takes for options: nothing under
    the option n, else the hyphen made of the newline. *)
Lemma S_SAFE_option s :
  Text.echo_option s = true ->
  S_SAFE s = if Text.has_flag_n s then "" else "-".
Proof.
  intros Hs. unfold S_SAFE, Text.echo_output. rewrite Hs.
  destruct (Text.has_flag_n s); reflexivity.
Qed.

Lemma tr_filters_length s :
  String.length (tr_filters s) = String.length s.
Proof.
  unfold tr_filters. induction s as [|c s IH]; [reflexivity|].
  cbn. rewrite IH. reflexivity.
Qed.

(** X20: in a manifest of several services, two services whose names
    [echo] prints as they are get the same image reference exactly when
    the names agree once put in lower case with every character other
    than a letter, a digit or a hyphen turned into a hyphen: names that
    differ only in case, or only in which special character they use,
    share one reference.  The names that [echo] takes for options share
    two references between them, one for those with the option n and one
    for the others, and none with a name that is printed. *)
Theorem like_names_share_a_reference repo tag a b :
  (Text.echo_option a = false -> Text.echo_option b = false ->
   (image_name repo tag a = image_name repo tag b
    <-> tr_filters a = tr_filters b))
  /\ tr_filters (Text.smap to_lower a) = tr_filters a
  /\ (Text.echo_option a = true -> Text.echo_option b = true ->
      (image_name repo tag a = image_name repo tag b
       <-> Text.has_flag_n a = Text.has_flag_n b))
  /\ (Text.echo_option a = false -> Text.is_null a = false ->
      Text.echo_option b = true ->
      image_name repo tag a <> image_name repo tag b).
Proof.
  split; [|split; [|split]].
  - intros Ha Hb. rewrite same_reference, !Tagging.S_SAFE_exact by assumption.
    split; [apply sapp_cancel_r|intros ->; reflexivity].
  - unfold tr_filters. f_equal. induction a as [|c a IH]; [reflexivity|].
    cbn. rewrite to_lower_twice, IH. reflexivity.
  - intros Ha Hb. rewrite same_reference, !S_SAFE_option by assumption.
    destruct (Text.has_flag_n a), (Text.has_flag_n b); split;
      try reflexivity; discriminate.
  - intros Ha Hnull Hb. rewrite same_reference.
    rewrite (Tagging.S_SAFE_exact a Ha), (S_SAFE_option b Hb). intros H.
    apply (f_equal String.length) in H.
    rewrite sapp_length, tr_filters_length in H.
    destruct a; [discriminate|].
    destruct (Text.has_flag_n b); cbn in H; lia.
Qed.

Example two_services_one_reference :
  image_name "rajibsalui/my-express-server" "9fceb02" "Api_v2"
  = image_name "rajibsalui/my-express-server" "9fceb02" "api.v2".
Proof. reflexivity. Qed.

(** Api_v2 and api.v2 share a reference, -n and -nE share another, and
    neither is the one of web. *)
Lemma names_that_share_a_reference :
  image_name "rajibsalui/my-express-server" "9fceb02" "Api_v2"
  = image_name "rajibsalui/my-express-server" "9fceb02" "api.v2"
  /\ image_name "rajibsalui/my-express-server" "9fceb02" "-n"
     = image_name "rajibsalui/my-express-server" "9fceb02" "-nE"
  /\ image_name "rajibsalui/my-express-server" "9fceb02" "web"
     <> image_name "rajibsalui/my-express-server" "9fceb02" "-n".
Proof.
  split; [|split].
  - apply (proj1 (like_names_share_a_reference
                    "rajibsalui/my-express-server" "9fceb02"
                    "Api_v2" "api.v2")); reflexivity.
  - apply (proj1 (proj2 (proj2 (like_names_share_a_reference
                    "rajibsalui/my-express-server" "9fceb02" "-n" "-nE"))));
      reflexivity.
  - apply (proj2 (proj2 (proj2 (like_names_share_a_reference
                    "rajibsalui/my-express-server" "9fceb02" "web" "-n"))));
      reflexivity.
Defined.

Example options_share_a_reference :
  image_name "rajibsalui/my-express-server" "9fceb02" "-n"
  = image_name "rajibsalui/my-express-server" "9fceb02" "-nE".
Proof. reflexivity. Qed.

Lemma split_on_length p s :
  length (Text.split_on p s) = S (String.length (Text.sfilter p s)).
Proof.
  induction s as [|c s IH]; [reflexivity|]. cbn.
  destruct (p c); cbn; [rewrite IH; reflexivity|].
  destruct (Text.split_on p s) as [|w ws]; [discriminate IH|exact IH].
Qed.

(** A text followed by a separator: one more piece, the empty one. *)
Lemma split_on_snoc p c s :
  p c = true ->
  Text.split_on p (s +:+ String c "") = Text.split_on p s ++ [""].
Proof.
  intros Hc. induction s as [|d s IH].
  - rewrite sapp_nil_l. cbn. rewrite Hc. reflexivity.
  - rewrite sapp_cons. cbn. rewrite IH.
    destruct (p d); [reflexivity|].
    pose proof (split_on_length p s) as Hlen.
    destruct (Text.split_on p s) as [|w ws]; [discriminate Hlen|].
    reflexivity.
Qed.

(** [sed] reads the output of [echo] of a text that is printed as it is
    line by line. *)
Lemma stream_lines_echo s :
  Text.stream_lines (s +:+ Text.nl) = Text.lines s.
Proof.
  unfold Text.stream_lines, Text.lines, Text.nl.
  rewrite (split_on_snoc Text.is_newline "010" s eq_refl).
  rewrite last_last, removelast_last. reflexivity.
Qed.

(** X21: the number of services that the script announces is the number
    of lines that it prints as the listing.  For a listing that [echo]
    prints as it is, that is the number of its lines, at least 1; the
    number is 0 exactly for a listing that [echo] takes for options, n
    among them. *)
Theorem the_services_are_counted_by_line SERVICES :
  NUM_SERVICES SERVICES
  = length (Text.stream_lines (Text.echo_output SERVICES))
  /\ (Text.echo_option SERVICES = false ->
      NUM_SERVICES SERVICES = length (Text.lines SERVICES)
      /\ 1 <= NUM_SERVICES SERVICES)
  /\ (NUM_SERVICES SERVICES = 0
      <-> Text.echo_option SERVICES = true
          /\ Text.has_flag_n SERVICES = true).
Proof.
  assert (Hplain : Text.wc_l (SERVICES +:+ Text.nl)
                   = length (Text.lines SERVICES)).
  { unfold Text.lines. rewrite split_on_length.
    unfold Text.wc_l. rewrite sfilter_app, sapp_length. cbn. lia. }
  unfold NUM_SERVICES, Text.echo_output.
  destruct (Text.echo_option SERVICES) eqn:Hopt.
  - destruct (Text.has_flag_n SERVICES); cbn.
    + repeat split; try discriminate; auto.
    + repeat split; try discriminate. intros [_ H]. discriminate H.
  - rewrite stream_lines_echo, Hplain. split; [reflexivity|].
    pose proof (split_on_length Text.is_newline SERVICES) as Hlen.
    fold (Text.lines SERVICES) in Hlen.
    split; [intros _; split; [reflexivity|lia]|].
    split; [lia|]. intros [H _]. discriminate H.
Qed.

(** Two services are announced as 2, the lone service -n as 0. *)
Lemma services_counted :
  NUM_SERVICES ("web" +:+ Text.nl +:+ "a__b") = 2
  /\ NUM_SERVICES "-n" = 0.
Proof.
  split.
  - rewrite (proj1 (proj1 (proj2 (the_services_are_counted_by_line
                                    ("web" +:+ Text.nl +:+ "a__b")))
                      eq_refl)).
    reflexivity.
  - apply (proj2 (proj2 (the_services_are_counted_by_line "-n"))).
    split; reflexivity.
Defined.

End Naming.

(** ** The workflow patch works once *)
Module PatchOnce.
Import Shell Publisher Spec ShellFacts TextFacts WorkflowPatch Separators.

Lemma prefix_app_r tok : forall x y,
  String.prefix tok x = true -> String.prefix tok (x +:+ y) = true.
Proof.
  induction tok as [|c tok IH]; intros x y H; [apply prefix_nil|].
  destruct x as [|d x]; [discriminate H|]. rewrite sapp_cons. cbn in H |- *.
  destruct (ascii_dec c d); [apply IH, H|discriminate H].
Qed.

(** An occurrence that lies inside a stretch starts inside it whatever
    follows. *)
Lemma starts_inside_app tok seg : forall follow,
  starts_inside tok seg "" = true -> starts_inside tok seg follow = true.
Proof.
  induction seg as [|c seg IH]; intros follow H; [discriminate H|].
  cbn [starts_inside] in H |- *. rewrite sapp_nil_r in H.
  apply orb_true_iff in H as [H|H]; apply orb_true_iff.
  - left. apply prefix_app_r, H.
  - right. apply IH, H.
Qed.

Lemma contains_app tok seg : forall w,
  Text.contains tok (seg +:+ w)
  = starts_inside tok seg w || Text.contains tok w.
Proof.
  induction seg as [|c seg IH]; intros w; [reflexivity|].
  rewrite sapp_cons. cbn [Text.contains starts_inside].
  rewrite IH, <- sapp_cons, orb_assoc. reflexivity.
Qed.

Section Apart.
Variables tok tag : string.
Hypothesis tok_nonnull : Text.is_null tok = false.
Hypothesis tag_nonnull : Text.is_null tag = false.
Hypothesis apart : shares_no_character tag tok = true.

(** Nothing that starts with a character of the tag starts with the
    token. *)
Lemma no_prefix_at_tag_character c w :
  Text.sforall (fun d => negb (Ascii.eqb d c)) tok = true ->
  String.prefix tok (String c w) = false.
Proof.
  intros Hc. destruct tok as [|d t]; [discriminate tok_nonnull|].
  cbn in Hc |- *. apply andb_true_iff in Hc as [Hd _].
  apply negb_true_iff, Ascii.eqb_neq in Hd.
  destruct (ascii_dec d c); [contradiction|reflexivity].
Qed.

Lemma no_occurrence_starts_in_the_tag : forall t w,
  shares_no_character t tok = true -> starts_inside tok t w = false.
Proof.
  induction t as [|c t IH]; intros w Ht; [reflexivity|].
  cbn in Ht. apply andb_true_iff in Ht as [Hc Ht].
  cbn [starts_inside]. rewrite sapp_cons, (no_prefix_at_tag_character c _ Hc).
  apply IH, Ht.
Qed.

(** Before the tag, an occurrence has to fit in the stretch. *)
Lemma starts_inside_before_the_tag seg : forall w,
  starts_inside tok seg (tag +:+ w) = starts_inside tok seg "".
Proof.
  destruct tag as [|c t] eqn:Htag; [discriminate tag_nonnull|].
  pose proof apart as Hc. cbn in Hc. apply andb_true_iff in Hc as [Hc _].
  induction seg as [|d seg IH]; intros w; [reflexivity|].
  cbn [starts_inside]. rewrite IH, sapp_nil_r. f_equal.
  rewrite sapp_cons.
  apply (prefix_before_separator tok c (String d seg) (t +:+ w) Hc
           tok_nonnull).
Qed.

(** Once every occurrence found by the scan is replaced, none is left. *)
Lemma no_token_left segs :
  separated tok segs = true -> Text.contains tok (Text.join tag segs) = false.
Proof.
  induction segs as [|seg rest IH]; intros Hsep.
  - cbn. destruct tok; [discriminate tok_nonnull|reflexivity].
  - destruct rest as [|seg' rest'].
    + cbn in Hsep |- *. rewrite (contains_starts_inside tok seg tok_nonnull).
      apply negb_true_iff, Hsep.
    + change (separated tok (seg :: seg' :: rest'))
        with (negb (starts_inside tok seg tok)
              && separated tok (seg' :: rest')) in Hsep.
      apply andb_true_iff in Hsep as [Hseg Hrest].
      apply negb_true_iff in Hseg.
      change (Text.join tag (seg :: seg' :: rest'))
        with (seg +:+ tag +:+ Text.join tag (seg' :: rest')).
      rewrite contains_app, starts_inside_before_the_tag.
      assert (Hin : starts_inside tok seg "" = false).
      { destruct (starts_inside tok seg "") eqn:H; [|reflexivity].
        rewrite (starts_inside_app tok seg tok H) in Hseg. discriminate. }
      rewrite Hin, contains_app, (no_occurrence_starts_in_the_tag _ _ apart).
      apply IH, Hrest.
Qed.

End Apart.

(** Commit ids and timestamps have no character in common with the
    placeholder, which is made of capitals and underscores. *)
Lemma lower_case_tags_are_apart TAG :
  Text.sforall (fun c => Text.is_lower c || Text.is_digit c) TAG = true ->
  shares_no_character TAG placeholder = true
  /\ sed_safe TAG = true.
Proof.
  intros H. split.
  - unfold shares_no_character. induction TAG as [|c TAG IH]; [reflexivity|].
    cbn [Text.sforall] in H |- *. apply andb_true_iff in H as [Hc H].
    rewrite (IH H), andb_true_r.
    destruct c as [[] [] [] [] [] [] [] []]; try reflexivity; discriminate Hc.
  - apply alnum_sed_safe. induction TAG as [|c TAG IH]; [reflexivity|].
    cbn [Text.sforall] in H |- *. apply andb_true_iff in H as [Hc H].
    rewrite (IH H), andb_true_r. unfold Text.is_alnum.
    apply orb_true_iff in Hc as [Hc|Hc]; rewrite Hc, ?orb_true_r; reflexivity.
Qed.

Lemma terminated_text_holds_no_token text :
  Text.contains placeholder text = false ->
  Text.contains placeholder (terminate_last_line text) = false.
Proof.
  intros H. unfold terminate_last_line.
  destruct (Text.is_null text || ends_in_newline text); [exact H|].
  unfold Text.nl.
  rewrite (contains_across_separator placeholder "010" text ""
             eq_refl eq_refl), H.
  reflexivity.
Qed.



End PatchOnce.

(** ** When a rollout succeeds *)
Module Outcome.
Import Shell Deploy Spec ShellFacts Frames.

Lemma read_as_200 r : status_code_of r = "200" -> healthy_reply r.
Proof.
  intros H. destruct r as [st out]. destruct (Z.eq_dec st 0%Z) as [->|Hne].
  - split; [reflexivity|exact H].
  - exfalso. exact (Rollout.failed_curl_never_200 st out Hne H).
Qed.

(** Either no poll of the first [n] is read as 200, or there is a first
    one that is. *)
Lemma first_200 (reply : nat -> Z * string) n :
  (forall i, i < n -> status_code_of (reply i) <> "200")
  \/ exists k, k < n /\ status_code_of (reply k) = "200"
               /\ forall i, i < k -> status_code_of (reply i) <> "200".
Proof.
  induction n as [|n IH].
  - left. intros i Hi. lia.
  - destruct IH as [Hnone|(k & Hk & H200 & Hfirst)].
    + destruct (String.eqb_spec (status_code_of (reply n)) "200") as [Heq|Hne].
      * right. exists n. repeat split; [lia|exact Heq|exact Hnone].
      * left. intros i Hi. destruct (Nat.eq_dec i n) as [->|Hin];
          [exact Hne|apply Hnone; lia].
    + right. exists k. repeat split; [lia|exact H200|exact Hfirst].
Qed.

Section Script.
Variable cfg : Config.
Variable E : Env.

Lemma health_check_without_budget s :
  HEALTH_RETRIES cfg = 0 -> fst (health_check cfg E s) = Exit 1%Z.
Proof.
  intros HR. unfold health_check. rewrite Rollout.echo_then, HR. reflexivity.
Qed.

(** The health gate passes exactly when one of the polls it may make
    gets a 200. *)
Lemma health_check_passes s :
  curl_calls (trace s) = 0 ->
  (exists c, fst (health_check cfg E s) = Exit c /\ c <> 0%Z
             /\ forall k, k < HEALTH_RETRIES cfg -> ~ healthy_reply (curl E k))
  \/ (exists s', health_check cfg E s = (Next tt, s')
                 /\ exists k, k < HEALTH_RETRIES cfg /\ healthy_reply (curl E k)).
Proof.
  intros H0.
  destruct (first_200 (curl E) (HEALTH_RETRIES cfg))
    as [Hnone|(k & Hk & H200 & Hfirst)].
  - left.
    assert (Hunhealthy : forall k, k < HEALTH_RETRIES cfg ->
                                   ~ healthy_reply (curl E k)).
    { intros k Hk Hh. apply (Hnone k Hk), Rollout.healthy_reply_status, Hh. }
    destruct (Nat.eq_dec (HEALTH_RETRIES cfg) 0) as [HR|HR].
    + exists 1%Z. rewrite (health_check_without_budget s HR).
      repeat split; [discriminate|exact Hunhealthy].
    + destruct (Rollout.health_check_exhausted cfg E s ltac:(lia))
        as (c & s' & Hrun & Hc & _).
      { intros i Hi. rewrite H0. apply Hnone, Hi. }
      exists c. rewrite Hrun. repeat split; [exact Hc|exact Hunhealthy].
  - right.
    destruct (Rollout.health_check_healthy cfg E k s Hk) as (s' & Hrun & _).
    { intros i Hi. rewrite H0. apply Hfirst, Hi. }
    { rewrite H0. exact H200. }
    exists s'. split; [exact Hrun|]. exists k. split; [exact Hk|].
    apply read_as_200, H200.
Qed.

End Script.

(** The exit status of scripts/deploy.sh on a host that refuses nothing. *)
Lemma rollout_exit_status cfg E argv0 args s :
  curl_calls (trace s) = 0 ->
  fst (run (deploy cfg E argv0 args) s) = 0%Z
  <-> Text.is_null (param_or args 0 "") = false
      /\ pull_status E (param_or args 0 "") = 0%Z
      /\ up_status E = 0%Z
      /\ (exists k, k < HEALTH_RETRIES cfg /\ healthy_reply (curl E k))
      /\ prune_status E = 0%Z.
Proof.
  intros H0.
  destruct (Text.is_null (param_or args 0 "")) eqn:Himg.
  { split; [|intros (H & _); discriminate H].
    unfold run, deploy, usage. rewrite Himg. sh_simpl. discriminate. }
  destruct (Z.eq_dec (pull_status E (param_or args 0 "")) 0%Z) as [Hpull|Hpull].
  2:{ split; [|intros (_ & H & _); contradiction].
      assert (Hp := Hpull). apply Z.eqb_neq in Hp.
      unfold run, deploy. rewrite Himg. unfold announce, docker_pull.
      sh_cases. intros H. contradiction. }
  destruct (Z.eq_dec (up_status E) 0%Z) as [Hup|Hup].
  2:{ split; [|intros (_ & _ & H & _); contradiction].
      destruct (RolloutSteps.deploy_pins cfg E argv0 args s Himg Hpull)
        as (t & Heq & _).
      assert (Hu := Hup). apply Z.eqb_neq in Hu.
      unfold run. rewrite Heq.
      match goal with |- context [(errexit _ ≫= _) ?s1] =>
        rewrite (bind_exit _ _ s1 (up_status E) _
                   ltac:(rewrite (RolloutSteps.up_step E s1), Hu; reflexivity))
      end.
      cbn [fst]. intros H. contradiction. }
  destruct (Rollout.deploy_reaches_health_check cfg E argv0 args s
              Himg Hpull Hup) as (s1 & Heq & _ & Hk1).
  rewrite H0 in Hk1.
  unfold run. rewrite Heq.
  destruct (health_check_passes cfg E s1 Hk1)
    as [(c & Hrun & Hc & Hnone)|(s2 & Hrun & Hsome)].
  - destruct (health_check cfg E s1) as [[[]|c'] s2] eqn:Hh;
      cbn [fst] in Hrun; [discriminate|]. injection Hrun as ->.
    rewrite (bind_exit _ _ _ _ _ Hh). cbn [fst].
    split; [intros H; contradiction|].
    intros (_ & _ & _ & (k & Hk & Hhealthy) & _).
    exfalso. exact (Hnone k Hk Hhealthy).
  - rewrite (bind_next _ _ _ _ _ Hrun).
    destruct (Rollout.cleanup_run E s2) as (o & s3 & Hcl & Hst & _).
    rewrite Hcl. destruct o as [[]|c]; cbn [fst] in *.
    + split; [intros _; repeat split; auto|reflexivity].
    + split; [intros ->; repeat split; auto|].
      intros (_ & _ & _ & _ & Hp). congruence.
Qed.

(** *** The strict variant *)

Lemma no_curl_in_removals names :
  List.filter (fun c => match c with Curl _ => true | _ => false end)
              (removal_attempts names) = [].
Proof.
  unfold removal_attempts. induction names as [|n names IH]; [reflexivity|].
  cbn [flat_map]. rewrite List.filter_app, IH, app_nil_r.
  destruct (Text.is_null n); reflexivity.
Qed.

Section Strict.
Variable cfg : Config.
Variable E : Env.

Lemma supersede_polls_nothing s :
  exists s', supersede E s = (Next tt, s')
             /\ curl_calls (trace s') = curl_calls (trace s).
Proof.
  destruct (Supersession.supersede_hands_over E s)
    as (s' & t & cs & Hrun & Ht & _ & Hc & _).
  exists s'. split; [exact Hrun|].
  rewrite Ht, curl_calls_app, (FirstVersion.curl_calls_of_commands t), Hc.
  cbn [List.filter]. rewrite List.filter_app, no_curl_in_removals.
  cbn [List.filter app]. rewrite List.filter_app, no_curl_in_removals.
  cbn. lia.
Qed.

(** The strict variant up to the start step, once the image is pulled. *)
Lemma strict_reaches_the_start argv0 args s dir :
  app_dir_or_home E args s = (Next dir, s) ->
  Text.is_null (param_or args 0 "") = false ->
  pull_status E (param_or args 0 "") = 0%Z ->
  exists s1,
    deploy_strict cfg E argv0 args s
    = (errexit (docker_compose_up E);; health_check cfg E;; cleanup E) s1
    /\ curl_calls (trace s1) = curl_calls (trace s).
Proof.
  intros Hdir Himg Hpull. unfold deploy_strict.
  rewrite (bind_next _ _ _ _ _ Hdir), Himg.
  set (tail := (errexit (docker_compose_up E);; health_check cfg E;;
                cleanup E)).
  clearbody tail. unfold announce, docker_pull. sh_cases.
  match goal with |- context [supersede E ?s0] =>
    destruct (supersede_polls_nothing s0) as (s1 & Hrun & Hk)
  end.
  rewrite Hrun. eexists. split; [reflexivity|].
  cbn [trace] in Hk |- *. rewrite curl_calls_app, Hk.
  autorewrite with trace. cbn. lia.
Qed.

Lemma app_dir_cases args s :
  (exists dir, app_dir_or_home E args s = (Next dir, s))
  \/ (fst (app_dir_or_home E args s) = Exit 1%Z
      /\ HOME E = None /\ Text.is_null (param_or args 1 "") = true).
Proof.
  unfold app_dir_or_home, param_or.
  destruct (args !! 1) as [a|]; [destruct (Text.is_null a) eqn:Ha|];
    try (destruct (HOME E) as [h|]); eauto.
Qed.

End Strict.

(** The exit status of the strict variant on a host that refuses
    nothing. *)
Lemma strict_exit_status cfg E argv0 args s :
  curl_calls (trace s) = 0 ->
  fst (run (deploy_strict cfg E argv0 args) s) = 0%Z
  <-> (is_Some (HOME E) \/ Text.is_null (param_or args 1 "") = false)
      /\ Text.is_null (param_or args 0 "") = false
      /\ pull_status E (param_or args 0 "") = 0%Z
      /\ up_status E = 0%Z
      /\ (exists k, k < HEALTH_RETRIES cfg /\ healthy_reply (curl E k))
      /\ prune_status E = 0%Z.
Proof.
  intros H0.
  destruct (app_dir_cases E args s) as [(dir & Hdir)|(Hexit & Hhome & Harg)].
  2:{ split.
      - unfold run, deploy_strict.
        destruct (app_dir_or_home E args s) as [[d|c] s'] eqn:Hd;
          cbn [fst] in Hexit; [discriminate|]. injection Hexit as ->.
        rewrite (bind_exit _ _ _ _ _ Hd). cbn. discriminate.
      - intros ([[h Hh]|Hgiven] & _); congruence. }
  assert (Hknown : is_Some (HOME E)
                   \/ Text.is_null (param_or args 1 "") = false).
  { destruct (HOME E) as [h|] eqn:Hh; [left; eauto|right].
    unfold app_dir_or_home, param_or in *. rewrite Hh in Hdir.
    destruct (args !! 1) as [a|]; [destruct (Text.is_null a) eqn:Ha|];
      [|exact Ha|];
      unfold mbind, Sh_bind, bind, emit, exit in Hdir; discriminate Hdir. }
  destruct (Text.is_null (param_or args 0 "")) eqn:Himg.
  { split; [|intros (_ & H & _); discriminate H].
    unfold run, deploy_strict, usage.
    rewrite (bind_next _ _ _ _ _ Hdir), Himg. sh_simpl. discriminate. }
  destruct (Z.eq_dec (pull_status E (param_or args 0 "")) 0%Z) as [Hpull|Hpull].
  2:{ split; [|intros (_ & _ & H & _); contradiction].
      assert (Hp := Hpull). apply Z.eqb_neq in Hp.
      unfold run, deploy_strict. rewrite (bind_next _ _ _ _ _ Hdir), Himg.
      unfold announce, docker_pull. sh_cases. intros H. contradiction. }
  destruct (strict_reaches_the_start cfg E argv0 args s dir Hdir Himg Hpull)
    as (s1 & Heq & Hk1).
  rewrite H0 in Hk1. unfold run. rewrite Heq.
  pose proof (RolloutSteps.up_step E s1) as Hstep.
  destruct (Z.eq_dec (up_status E) 0%Z) as [Hup|Hup].
  2:{ split; [|intros (_ & _ & _ & H & _); contradiction].
      assert (Hu := Hup). apply Z.eqb_neq in Hu. rewrite Hu in Hstep.
      rewrite (bind_exit _ _ _ _ _ Hstep). cbn [fst]. intros H. contradiction. }
  rewrite Hup in Hstep. cbn [Z.eqb] in Hstep.
  rewrite (bind_next _ _ _ _ _ Hstep).
  match goal with |- context [(health_check cfg E ≫= _) ?s2] =>
    destruct (health_check_passes cfg E s2)
      as [(c & Hrun & Hc & Hnone)|(s3 & Hrun & Hsome)]
  end.
  { cbn [trace]. rewrite curl_calls_app, Hk1. reflexivity. }
  - match goal with |- context [(health_check cfg E ≫= _) ?s2] =>
      destruct (health_check cfg E s2) as [[[]|c'] s3] eqn:Hh
    end; cbn [fst] in Hrun; [discriminate|]. injection Hrun as ->.
    rewrite (bind_exit _ _ _ _ _ Hh). cbn [fst].
    split; [intros H; contradiction|].
    intros (_ & _ & _ & _ & (k & Hk & Hhealthy) & _).
    exfalso. exact (Hnone k Hk Hhealthy).
  - rewrite (bind_next _ _ _ _ _ Hrun).
    destruct (Rollout.cleanup_run E s3) as (o & s4 & Hcl & Hst & _).
    rewrite Hcl. destruct o as [[]|c]; cbn [fst] in *.
    + split; [intros _; repeat split; auto|reflexivity].
    + split; [intros ->; repeat split; auto|].
      intros (_ & _ & _ & _ & _ & Hp). congruence.
Qed.

End Outcome.

(** ** Where the host refuses nothing *)
Module Willing.
Import Shell Deploy Spec ShellFacts Frames.

Lemma write_to_willing H path content :
  Local.open_error H path = None ->
  Local.write_to H path content = write_file path content.
Proof. unfold Local.write_to. intros ->. reflexivity. Qed.

Lemma append_to_willing H path content :
  Local.open_error H path = None ->
  Local.append_to H path content = append_file path content.
Proof. unfold Local.append_to. intros ->. reflexivity. Qed.

Lemma enter_willing H dir :
  Local.cd_error H dir = None -> Local.enter H dir = cd dir.
Proof. unfold Local.enter. intros ->. reflexivity. Qed.

Lemma remove_willing H path :
  Local.rm_error H path = None -> Local.remove H path = rm_f path.
Proof. unfold Local.remove. intros ->. reflexivity. Qed.

(** A refusal ends the script with status 1, the host as it was. *)
Lemma refused_run {A} msg s :
  (Local.refused msg : Sh A) s
  = (Exit 1%Z,
     {| fs := fs s; cwd := cwd s; containers := containers s;
        trace := trace s ++ [ErrOut msg] |}).
Proof. reflexivity. Qed.

Lemma deploy_willing H cfg E argv0 args :
  Local.open_error H (override_path (param_or args 1 "/root/server")) = None ->
  Local.cd_error H (param_or args 1 "/root/server") = None ->
  Local.deploy H cfg E argv0 args = deploy cfg E argv0 args.
Proof.
  intros Ho Hc. unfold Local.deploy, deploy. cbv zeta.
  rewrite (write_to_willing _ _ _ Ho), (enter_willing _ _ Hc). reflexivity.
Qed.

Lemma deploy_strict_willing H cfg E argv0 args s dir :
  app_dir_or_home E args s = (Next dir, s) ->
  Local.open_error H (override_path dir) = None ->
  Local.cd_error H dir = None ->
  Local.deploy_strict H cfg E argv0 args s = deploy_strict cfg E argv0 args s.
Proof.
  intros Hd Ho Hc. unfold Local.deploy_strict, deploy_strict.
  rewrite !(bind_next _ _ _ _ _ Hd). cbv zeta.
  rewrite (write_to_willing _ _ _ Ho), (enter_willing _ _ Hc). reflexivity.
Qed.

Lemma deploy_down_willing H E argv0 args s dir :
  app_dir_or_home E args s = (Next dir, s) ->
  Local.open_error H (override_path dir) = None ->
  Local.cd_error H dir = None ->
  Local.deploy_down H E argv0 args s = Variants.deploy_down E argv0 args s.
Proof.
  intros Hd Ho Hc. unfold Local.deploy_down, Variants.deploy_down.
  rewrite !(bind_next _ _ _ _ _ Hd). cbv zeta.
  rewrite (write_to_willing _ _ _ Ho), (enter_willing _ _ Hc). reflexivity.
Qed.

Lemma run_ext (m m' : Sh unit) s : m s = m' s -> run m s = run m' s.
Proof. unfold run. intros ->. reflexivity. Qed.

(** The directory is known exactly when its expansion hands over. *)
Lemma known_dir_resolves E args s :
  app_dir_or_home E args s
  = match known_dir E args with
    | Some dir => (Next dir, s)
    | None =>
        (Exit 1%Z,
         {| fs := fs s; cwd := cwd s; containers := containers s;
            trace := trace s ++ [ErrOut "HOME: unbound variable"] |})
    end.
Proof.
  unfold app_dir_or_home, known_dir, param_or.
  destruct (args !! 1) as [a|]; [destruct (Text.is_null a) eqn:Ha|];
    cbn [Text.is_null]; rewrite ?Ha; destruct (HOME E); reflexivity.
Qed.

End Willing.

(** ** When a rollout succeeds on a host that can refuse *)
Module Refusals.
Import Shell Deploy Spec ShellFacts Frames Willing.

(** A refused override or directory ends scripts/deploy.sh with a status
    that is not 0. *)
Lemma refused_rollout H cfg E argv0 args s :
  Local.open_error H (override_path (param_or args 1 "/root/server")) <> None
  \/ Local.cd_error H (param_or args 1 "/root/server") <> None ->
  fst (run (Local.deploy H cfg E argv0 args) s) <> 0%Z.
Proof.
  intros Href. unfold run, Local.deploy. cbv zeta.
  destruct (Text.is_null (param_or args 0 "")) eqn:Himg.
  { unfold usage. sh_simpl. discriminate. }
  unfold announce, docker_pull, Local.write_to, Local.enter.
  destruct (pull_status E (param_or args 0 "") =? 0)%Z eqn:Hpull; sh_cases.
  2:{ apply Z.eqb_neq, Hpull. }
  destruct (Local.open_error H _) as [msg|] eqn:Ho.
  { sh_simpl. discriminate. }
  destruct (Local.cd_error H _) as [msg|] eqn:Hc.
  { sh_simpl. discriminate. }
  destruct Href as [Hr|Hr]; congruence.
Qed.

(** X23: the exit status of scripts/deploy.sh.  A run ends with status 0
    exactly when an image is given, the pull succeeds, the override can
    be written, the application directory can be entered, the start
    succeeds, one of the HEALTH_RETRIES polls gets a 200 from a curl
    that succeeded, and the prune succeeds. *)
Theorem a_rollout_succeeds_exactly_when H cfg E argv0 args s :
  curl_calls (trace s) = 0 ->
  fst (run (Local.deploy H cfg E argv0 args) s) = 0%Z
  <-> Text.is_null (param_or args 0 "") = false
      /\ pull_status E (param_or args 0 "") = 0%Z
      /\ Local.open_error H (override_path (param_or args 1 "/root/server"))
         = None
      /\ Local.cd_error H (param_or args 1 "/root/server") = None
      /\ up_status E = 0%Z
      /\ (exists k, k < HEALTH_RETRIES cfg /\ healthy_reply (curl E k))
      /\ prune_status E = 0%Z.
Proof.
  intros H0.
  destruct (Local.open_error H (override_path (param_or args 1 "/root/server")))
    as [msg|] eqn:Ho.
  { split; [|intros (_ & _ & Hn & _); discriminate Hn].
    intros Hz. exfalso. revert Hz. apply refused_rollout. left. congruence. }
  destruct (Local.cd_error H (param_or args 1 "/root/server")) as [msg|] eqn:Hc.
  { split; [|intros (_ & _ & _ & Hn & _); discriminate Hn].
    intros Hz. exfalso. revert Hz. apply refused_rollout. right. congruence. }
  rewrite (deploy_willing H cfg E argv0 args Ho Hc).
  rewrite (Outcome.rollout_exit_status cfg E argv0 args s H0). tauto.
Qed.

Lemma refused_strict_rollout H cfg E argv0 args s dir :
  app_dir_or_home E args s = (Next dir, s) ->
  Local.open_error H (override_path dir) <> None
  \/ Local.cd_error H dir <> None ->
  fst (run (Local.deploy_strict H cfg E argv0 args) s) <> 0%Z.
Proof.
  intros Hd Href. unfold run, Local.deploy_strict.
  rewrite (bind_next _ _ _ _ _ Hd). cbv zeta.
  destruct (Text.is_null (param_or args 0 "")) eqn:Himg.
  { unfold usage. sh_simpl. discriminate. }
  unfold announce, docker_pull, Local.write_to, Local.enter.
  destruct (pull_status E (param_or args 0 "") =? 0)%Z eqn:Hpull; sh_cases.
  2:{ apply Z.eqb_neq, Hpull. }
  destruct (Local.open_error H _) as [msg|] eqn:Ho.
  { sh_simpl. discriminate. }
  destruct (Local.cd_error H _) as [msg|] eqn:Hc.
  { sh_simpl. discriminate. }
  destruct Href as [Hr|Hr]; congruence.
Qed.

Lemma known_dir_given E args dir :
  known_dir E args = Some dir ->
  is_Some (HOME E) \/ Text.is_null (param_or args 1 "") = false.
Proof.
  unfold known_dir. destruct (Text.is_null (param_or args 1 "")); [|auto].
  destruct (HOME E); [eauto|discriminate].
Qed.

(** X24: the exit status of the strict variant.  A run ends with status 0
    exactly when the application directory is known (it is given, or
    [HOME] is set), an image is given, the pull succeeds, the override
    can be written, the directory can be entered, the start succeeds,
    one of the HEALTH_RETRIES polls gets a 200 from a curl that
    succeeded, and the prune succeeds.  What the supersession finds, and
    whether its listings, stops, removals and [down] succeed, plays no
    part. *)
Theorem a_strict_rollout_succeeds_exactly_when H cfg E argv0 args s :
  curl_calls (trace s) = 0 ->
  fst (run (Local.deploy_strict H cfg E argv0 args) s) = 0%Z
  <-> exists dir,
        known_dir E args = Some dir
        /\ Text.is_null (param_or args 0 "") = false
        /\ pull_status E (param_or args 0 "") = 0%Z
        /\ Local.open_error H (override_path dir) = None
        /\ Local.cd_error H dir = None
        /\ up_status E = 0%Z
        /\ (exists k, k < HEALTH_RETRIES cfg /\ healthy_reply (curl E k))
        /\ prune_status E = 0%Z.
Proof.
  intros H0. pose proof (known_dir_resolves E args s) as Hd.
  destruct (known_dir E args) as [dir|] eqn:Hknown.
  2:{ split; [|intros (dir & Hn & _); discriminate Hn].
      unfold run, Local.deploy_strict. rewrite (bind_exit _ _ _ _ _ Hd).
      cbn. discriminate. }
  destruct (Local.open_error H (override_path dir)) as [msg|] eqn:Ho.
  { split.
    - intros Hz. exfalso. revert Hz.
      apply (refused_strict_rollout H cfg E argv0 args s dir Hd).
      left. congruence.
    - intros (dir' & Hk & _ & _ & Hn & _). injection Hk as <-. congruence. }
  destruct (Local.cd_error H dir) as [msg|] eqn:Hc.
  { split.
    - intros Hz. exfalso. revert Hz.
      apply (refused_strict_rollout H cfg E argv0 args s dir Hd).
      right. congruence.
    - intros (dir' & Hk & _ & _ & _ & Hn & _). injection Hk as <-.
      congruence. }
  rewrite (run_ext _ _ _
             (deploy_strict_willing H cfg E argv0 args s dir Hd Ho Hc)).
  rewrite (Outcome.strict_exit_status cfg E argv0 args s H0).
  pose proof (known_dir_given E args dir Hknown) as Hgiven.
  split.
  - intros (_ & H1 & H2 & H3 & H4 & H5). exists dir. auto 10.
  - intros (dir' & _ & H1 & H2 & _ & _ & H3 & H4 & H5). auto 10.
Qed.


(** The service is up at the second poll: the rollout succeeds on a host
    that refuses nothing, and fails where the application directory is
    missing. *)
Lemma a_rollout_that_succeeds_at_the_second_poll :
  fst (run (Local.deploy Examples.willing_host config
              Examples.up_at_second_poll "./deploy.sh"
              ["rajibsalui/my-express-server:abc1234"])
           Examples.running_host) = 0%Z
  /\ fst (run (Local.deploy Examples.no_app_dir config
                 Examples.up_at_second_poll "./deploy.sh"
                 ["rajibsalui/my-express-server:abc1234"; "/srv/app"])
              Examples.running_host) <> 0%Z.
Proof.
  split.
  - apply (a_rollout_succeeds_exactly_when Examples.willing_host config
             Examples.up_at_second_poll "./deploy.sh"
             ["rajibsalui/my-express-server:abc1234"] Examples.running_host
             eq_refl).
    repeat (split; [reflexivity|]). split; [|reflexivity].
    exists 1. split; [cbn; lia|split; reflexivity].
  - intros Hz.
    apply (a_rollout_succeeds_exactly_when Examples.no_app_dir config
             Examples.up_at_second_poll "./deploy.sh"
             ["rajibsalui/my-express-server:abc1234"; "/srv/app"]
             Examples.running_host eq_refl) in Hz.
    destruct Hz as (_ & _ & Ho & _). discriminate Ho.
Defined.

(** The run on the host without /srv/app, in full: the image is pulled,
    the redirection fails, and nothing else is done. *)
Example a_missing_directory_ends_the_run :
  run (Local.deploy Examples.no_app_dir config Examples.up_at_second_poll
         "./deploy.sh" ["rajibsalui/my-express-server:abc1234"; "/srv/app"])
      Examples.running_host
  = (1%Z,
     {| fs := fs Examples.running_host;
        cwd := cwd Examples.running_host;
        containers := containers Examples.running_host;
        trace :=
          [Out banner; Out "🚀 Starting deployment"; Out banner;
           Out "Image:   rajibsalui/my-express-server:abc1234";
           Out "App Dir: /srv/app"; Out "Service: app"; Out banner;
           Out "📦 Pulling image...";
           Run (DockerPull "rajibsalui/my-express-server:abc1234");
           Out "📝 Creating docker-compose override...";
           ErrOut "/srv/app/docker-compose.override.yml: No such file or directory"] |}).
Proof. vm_compute. reflexivity. Qed.

(** The previous release cannot be removed, and the strict rollout
    succeeds; it fails where the application directory is missing. *)
Lemma a_strict_rollout_over_a_stuck_container :
  fst (run (Local.deploy_strict Examples.willing_host strict_config
              Examples.stuck_container "./deploy.sh"
              ["rajibsalui/my-express-server:abc1234"])
           Examples.running_host) = 0%Z
  /\ fst (run (Local.deploy_strict Examples.no_app_dir strict_config
                 Examples.stuck_container "./deploy.sh"
                 ["rajibsalui/my-express-server:abc1234"; "/srv/app"])
              Examples.running_host) <> 0%Z.
Proof.
  split.
  - apply (a_strict_rollout_succeeds_exactly_when Examples.willing_host
             strict_config Examples.stuck_container "./deploy.sh"
             ["rajibsalui/my-express-server:abc1234"] Examples.running_host
             eq_refl).
    exists "/home/ubuntu/server". repeat (split; [reflexivity|]).
    split; [|reflexivity].
    exists 0. split; [cbn; lia|split; reflexivity].
  - intros Hz.
    apply (a_strict_rollout_succeeds_exactly_when Examples.no_app_dir
             strict_config Examples.stuck_container "./deploy.sh"
             ["rajibsalui/my-express-server:abc1234"; "/srv/app"]
             Examples.running_host eq_refl) in Hz.
    destruct Hz as (dir & Hk & _ & _ & Ho & _).
    injection Hk as <-. discriminate Ho.
Defined.


End Refusals.

(** ** The log of the supersession *)
Module SupersessionLog.
Import Shell Deploy Spec ShellFacts Frames Willing.

Section Log.
Variable E : Env.

Lemma stop_and_remove_log name s :
  stop_and_remove E name s
  = (Next tt,
     {| fs := fs s; cwd := cwd s;
        containers := after_attempt E name (containers s);
        trace := trace s ++ attempt_log E name |}).
Proof.
  unfold stop_and_remove, after_attempt, attempt_log, docker_stop, docker_rm_f.
  destruct (Text.is_null name); cbn [negb].
  - destruct s. cbn. rewrite app_nil_r. reflexivity.
  - destruct (stop_status E name =? 0)%Z eqn:Hs;
      destruct (rm_status E name =? 0)%Z eqn:Hr; sh_cases;
      rewrite <- ?app_assoc; reflexivity.
Qed.

Lemma while_read_log names : forall s,
  while_read E names s
  = (Next tt,
     {| fs := fs s; cwd := cwd s;
        containers := after_attempts E names (containers s);
        trace := trace s ++ attempts_log E names |}).
Proof.
  induction names as [|n names IH]; intros s.
  - destruct s. cbn. rewrite app_nil_r. reflexivity.
  - cbn [while_read].
    rewrite (bind_next _ _ _ _ _ (stop_and_remove_log n s)), IH.
    cbn [fs cwd containers trace]. unfold attempts_log, after_attempts.
    cbn [flat_map fold_left]. rewrite app_assoc. reflexivity.
Qed.

(** The supersession step in full: it always hands over, and its log is
    the one of the specification. *)
Lemma supersede_log s :
  supersede E s
  = (Next tt,
     {| fs := fs s; cwd := cwd s;
        containers :=
          down_containers E (fs s) (cwd s)
            (after_attempts E (second_names E (containers s))
               (after_attempts E (first_names E (containers s))
                  (containers s)));
        trace := trace s ++ supersession_log E (containers s) |}).
Proof.
  unfold supersede, port_holders, image_descendants, docker_compose_down,
    supersession_log, second_names.
  fold (first_names E (containers s)).
  destruct (ps_all_status E =? 0)%Z eqn:Hp;
    destruct (ps_ancestor_status E =? 0)%Z eqn:Ha; sh_cases;
    rewrite ?while_read_log; sh_cases; rewrite ?while_read_log; sh_cases;
    unfold first_names, names_on_8080, names_of_descendants, after_attempts,
      attempts_log;
    rewrite ?Hp; cbn [fold_left flat_map app];
    rewrite <- ?app_assoc; reflexivity.
Qed.

Lemma attempt_log_reports_nothing name :
  Forall (fun e => reports_removal_failure e = false) (attempt_log E name).
Proof.
  unfold attempt_log. destruct (Text.is_null name); [constructor|].
  destruct (stop_status E name =? 0)%Z, (rm_status E name =? 0)%Z;
    repeat constructor.
Qed.

Lemma attempts_log_reports_nothing names :
  Forall (fun e => reports_removal_failure e = false) (attempts_log E names).
Proof.
  induction names as [|n names IH]; [constructor|].
  unfold attempts_log. cbn [flat_map]. apply Forall_app.
  split; [apply attempt_log_reports_nothing|exact IH].
Qed.

Lemma supersession_log_reports_nothing cs :
  Forall (fun e => reports_removal_failure e = false) (supersession_log E cs).
Proof.
  unfold supersession_log.
  repeat (apply Forall_app; split);
    try apply attempts_log_reports_nothing;
    try (destruct (ps_all_status E =? 0)%Z);
    try (destruct (ps_ancestor_status E =? 0)%Z);
    repeat constructor.
Qed.

End Log.

(** C7 (amended): in the strict variant, once the image is pulled, the
    override written and the application directory entered, the start
    step [docker compose up] is always reached, right after the
    supersession and whatever its listings, stops, removals and
    [compose down] answer.  The supersession itself always hands over,
    and its log is the one of [supersession_log]: for every name read
    from the two listings (the second taken from the containers that the
    first loop left) the attempt is announced, then [docker stop] and
    [docker rm -f] are both tried; a failure of either leaves no report
    (the diagnostics are discarded). *)
Theorem supersession_never_aborts_the_rollout H cfg E argv0 args s dir :
  Text.is_null (param_or args 0 "") = false ->
  known_dir E args = Some dir ->
  pull_status E (param_or args 0 "") = 0%Z ->
  Local.open_error H (override_path dir) = None ->
  Local.cd_error H dir = None ->
  (exists before after,
     trace (snd (run (Local.deploy_strict H cfg E argv0 args) s))
     = trace s ++ before ++ supersession_log E (containers s)
       ++ Out "🔄 Deploying containers..." :: Run ComposeUp :: after
     /\ commands before = [DockerPull (param_or args 0 "")])
  /\ (forall cs,
        Forall (fun e => reports_removal_failure e = false)
               (supersession_log E cs))
  /\ (forall s0,
        fst (supersede E s0) = Next tt
        /\ trace (snd (supersede E s0))
           = trace s0 ++ supersession_log E (containers s0)).
Proof.
  intros Himg Hknown Hpull Ho Hc.
  split; [|split; [apply supersession_log_reports_nothing|]].
  2:{ intros s0. rewrite supersede_log. split; reflexivity. }
  pose proof (known_dir_resolves E args s) as Hd. rewrite Hknown in Hd.
  rewrite run_snd. unfold Local.deploy_strict.
  rewrite (bind_next _ _ _ _ _ Hd), Himg. cbv zeta.
  rewrite (write_to_willing _ _ _ Ho), (enter_willing _ _ Hc).
  set (tail := (health_check cfg E;; cleanup E)).
  assert (Hext : extends_trace tail)
    by (apply Supersession.extends_bind;
        [apply Supersession.extends_health_check
        |intros _; apply Supersession.extends_cleanup]).
  clearbody tail.
  remember (supersession_log E (containers s)) as log eqn:Hlog.
  unfold announce, docker_pull. sh_cases. rewrite supersede_log.
  cbn [fs cwd containers trace]. rewrite <- Hlog. clear Hlog.
  unfold docker_compose_up.
  exists [Out banner; Out "🚀 Starting deployment"; Out banner;
          Out ("Image:   " +:+ param_or args 0 "");
          Out ("App Dir: " +:+ dir);
          Out ("Service: " +:+ param_or args 2 "app"); Out banner;
          Out "📦 Pulling image..."; Run (DockerPull (param_or args 0 ""));
          Out "📝 Creating docker-compose override...";
          Out "🛑 Stopping existing containers..."].
  destruct (up_status E =? 0)%Z eqn:Hu; sh_cases.
  - match goal with |- context [tail ?s2] =>
      destruct (Hext s2) as (t2 & Ht2); rewrite Ht2; cbn [trace]
    end.
    exists t2. split; [|reflexivity].
    rewrite <- !app_assoc. cbn [app]. reflexivity.
  - exists [Diag ComposeUp]. split; [|reflexivity].
    rewrite <- !app_assoc. cbn [app]. reflexivity.
Qed.

(** A host whose previous release can be neither stopped nor removed. *)
Lemma supersession_over_a_stuck_container :
  (exists before after,
     trace (snd (run (Local.deploy_strict Examples.willing_host strict_config
                        Examples.stuck_container "deploy.sh"
                        ["rajibsalui/my-express-server:abc1234";
                         "/root/server"])
                      Examples.running_host))
     = trace Examples.running_host ++ before
       ++ supersession_log Examples.stuck_container
            (containers Examples.running_host)
       ++ Out "🔄 Deploying containers..." :: Run ComposeUp :: after
     /\ commands before
        = [DockerPull (param_or ["rajibsalui/my-express-server:abc1234";
                                 "/root/server"] 0 "")])
  /\ (forall cs,
        Forall (fun e => reports_removal_failure e = false)
               (supersession_log Examples.stuck_container cs))
  /\ (forall s0,
        fst (supersede Examples.stuck_container s0) = Next tt
        /\ trace (snd (supersede Examples.stuck_container s0))
           = trace s0
             ++ supersession_log Examples.stuck_container (containers s0)).
Proof.
  apply (supersession_never_aborts_the_rollout Examples.willing_host
           strict_config Examples.stuck_container "deploy.sh"
           ["rajibsalui/my-express-server:abc1234"; "/root/server"]
           Examples.running_host "/root/server"); reflexivity.
Defined.

(** The log of the supersession on that host: the two listings, and for
    the previous release, read by both loops, the announcement and the
    two attempts, with nothing about their failure. *)
Example the_log_of_a_stuck_container :
  supersession_log Examples.stuck_container
    (containers Examples.running_host)
  = [Out "   Removing all containers using port 8080...";
     Run DockerPsAll;
     Out "   Stopping and removing: server-app-1";
     Run (DockerStop "server-app-1"); Run (DockerRm "server-app-1");
     Out "   Removing containers with image: rajibsalui/my-express-server...";
     Run (DockerPsAncestor "rajibsalui/my-express-server");
     Out "   Stopping and removing: server-app-1";
     Run (DockerStop "server-app-1"); Run (DockerRm "server-app-1");
     Run ComposeDown].
Proof. vm_compute. reflexivity. Qed.

(** C7 as stated fails on that host: [docker stop server-app-1] is
    attempted and fails, and the trace of the whole run holds no
    diagnostic of it. *)
Lemma stuck_container_is_not_reported :
  ~ failures_logged Examples.stuck_container
      (trace (snd (run (Local.deploy_strict Examples.willing_host
                          strict_config Examples.stuck_container "deploy.sh"
                          ["rajibsalui/my-express-server:abc1234";
                           "/root/server"])
                       Examples.running_host))).
Proof.
  intros H. destruct (H "server-app-1") as [H1 _].
  assert (Hrun : In (Run (DockerStop "server-app-1"))
                    (trace (snd (run (Local.deploy_strict
                                        Examples.willing_host strict_config
                                        Examples.stuck_container "deploy.sh"
                                        ["rajibsalui/my-express-server:abc1234";
                                         "/root/server"])
                                     Examples.running_host)))).
  { vm_compute. do 14 right. left. reflexivity. }
  specialize (H1 Hrun ltac:(cbn; discriminate)).
  vm_compute in H1.
  repeat (destruct H1 as [H1|H1]; [discriminate H1|]). exact H1.
Qed.

End SupersessionLog.

(** ** The Image Publisher on a host that can refuse *)
Module LocalPublishing.
Import Shell Publisher Spec ShellFacts Frames Willing Publishing Delivery.

Lemma bind_ext_at {A B} (m m' : Sh A) (k k' : A -> Sh B) s :
  m s = m' s ->
  (forall a s1, m s = (Next a, s1) -> k a s1 = k' a s1) ->
  (m ≫= k) s = (m' ≫= k') s.
Proof.
  intros Hm Hk. unfold mbind, Sh_bind, bind. rewrite <- Hm.
  destruct (m s) as [[a|c] s1]; [apply Hk|]; reflexivity.
Qed.

Section Host.
Variable H : Local.Host.
Variable E : Env.

Lemma tag_services_willing repo TAG ss :
  Local.open_error H OVERRIDE_FILE = None ->
  Local.tag_services H repo TAG ss = tag_services repo TAG ss.
Proof.
  intros Ho. induction ss as [|x ss IH]; [reflexivity|].
  cbn [Local.tag_services tag_services]. cbv zeta.
  rewrite (append_to_willing _ _ _ Ho), IH. reflexivity.
Qed.

Lemma write_override_willing repo TAG s :
  Local.open_error H OVERRIDE_FILE = None ->
  Local.write_override H E repo TAG s = write_override E repo TAG s.
Proof.
  intros Ho. unfold Local.write_override, write_override,
    Local.write_to, Local.append_to.
  rewrite Ho. cbv zeta.
  do 7 (apply bind_ext_at; [reflexivity|intros ? ? _]).
  rewrite (tag_services_willing _ _ _ Ho). reflexivity.
Qed.

Lemma publish_willing argv0 args s :
  Local.open_error H OVERRIDE_FILE = None ->
  Local.publish H E argv0 args s = publish E argv0 args s.
Proof.
  intros Ho. unfold Local.publish, publish. cbv zeta.
  do 5 (apply bind_ext_at; [reflexivity|intros ? ? _]).
  apply bind_ext_at; [apply write_override_willing, Ho|reflexivity].
Qed.

Lemma cleanup_willing TAG :
  Local.rm_error H OVERRIDE_FILE = None ->
  Local.cleanup H TAG = cleanup TAG.
Proof.
  intros Hr. unfold Local.cleanup, cleanup.
  rewrite (remove_willing _ _ Hr). reflexivity.
Qed.

(** The workflow step on a path that is read as a path and that sed may
    rewrite. *)
Lemma update_workflow_willing WF TAG :
  Local.leading_hyphen WF = false ->
  Local.rewrite_status H WF = 0%Z ->
  Local.update_workflow H E WF TAG = update_workflow E WF TAG.
Proof.
  intros Hh Hr. unfold Local.update_workflow, update_workflow,
    Local.grep_finds, Local.sed_in_place.
  rewrite Hh, Hr. reflexivity.
Qed.

(** Without a workflow file, and on a file without the token, sed is not
    asked anything. *)
Lemma update_workflow_without_file TAG :
  Local.update_workflow H E "" TAG = update_workflow E "" TAG.
Proof. reflexivity. Qed.

Lemma update_workflow_without_token WF TAG content s :
  Local.leading_hyphen WF = false ->
  fs s !! WF = Some content ->
  Text.contains placeholder content = false ->
  Local.update_workflow H E WF TAG s = update_workflow E WF TAG s.
Proof.
  intros Hh Hfile Hgrep. unfold Local.update_workflow, update_workflow,
    Local.grep_finds.
  rewrite Hh. destruct (Text.is_null WF); cbn [negb]; [reflexivity|].
  sh_simpl. rewrite Hfile, Hgrep. reflexivity.
Qed.

(** *** Every refusal ends the script with a status that is not 0 *)

Lemma orderly_refused {A} msg : orderly (Local.refused msg : Sh A).
Proof.
  unfold Local.refused. apply orderly_bind; [apply orderly_emit|intros _].
  apply orderly_exit. discriminate.
Qed.

Lemma orderly_write_to content :
  orderly (Local.write_to H OVERRIDE_FILE content).
Proof.
  unfold Local.write_to. destruct (Local.open_error H OVERRIDE_FILE);
    [apply orderly_refused|apply orderly_write].
Qed.

Lemma orderly_append_to content :
  orderly (Local.append_to H OVERRIDE_FILE content).
Proof.
  unfold Local.append_to. destruct (Local.open_error H OVERRIDE_FILE);
    [apply orderly_refused|apply orderly_append].
Qed.

Lemma orderly_local_tag_services repo TAG ss :
  orderly (Local.tag_services H repo TAG ss).
Proof.
  induction ss; cbn [Local.tag_services]; [apply orderly_ret|].
  repeat first [assumption | apply orderly_log | apply orderly_append_to
               | apply orderly_bind | progress cbv zeta | intros].
Qed.

Lemma orderly_local_write_override repo TAG :
  orderly (Local.write_override H E repo TAG).
Proof.
  unfold Local.write_override.
  apply orderly_bind; [apply orderly_log|intros _].
  apply orderly_bind; [apply orderly_list_services|intros SERVICES].
  apply orderly_bind.
  { apply orderly_if; [|apply orderly_ret].
    apply orderly_bind; [apply orderly_err|intros _].
    apply orderly_exit. discriminate. }
  intros _.
  apply orderly_bind; [apply orderly_log|intros _].
  apply orderly_bind; [apply orderly_echo_all|intros _].
  apply orderly_bind; [apply orderly_log|intros _].
  apply orderly_bind; [apply orderly_write_to|intros _].
  apply orderly_bind; [|intros _; apply orderly_ret].
  apply orderly_if; [|apply orderly_local_tag_services].
  cbv zeta. apply orderly_bind; [apply orderly_append_to|intros _].
  apply orderly_log.
Qed.

Lemma orderly_local_after_parsing (WORKFLOW_FILE_ARG : string) :
  orderly (validate_env E;;
           (TAG ← resolve_tag E;
           log ("Using Docker Hub repo: " +:+ or_empty (DOCKERHUB_REPO E));;
           log ("Computed tag: " +:+ TAG);;
           SERVICES ← Local.write_override H E (or_empty (DOCKERHUB_REPO E)) TAG;
           docker_build E;;
           docker_login E;;
           push_stage E (or_empty (DOCKERHUB_REPO E)) TAG SERVICES;;
           (mret (WORKFLOW_FILE_ARG, TAG) : Sh (string * string)))).
Proof.
  apply orderly_bind; [apply orderly_validate_env|intros _].
  apply orderly_bind; [apply orderly_resolve_tag|intros TAG].
  apply orderly_bind; [apply orderly_log|intros _].
  apply orderly_bind; [apply orderly_log|intros _].
  apply orderly_bind; [apply orderly_local_write_override|intros SERVICES].
  apply orderly_bind; [|intros _].
  { unfold docker_build. apply orderly_bind; [apply orderly_log|intros _].
    apply orderly_errexit, orderly_external. }
  apply orderly_bind; [|intros _].
  { unfold docker_login. apply orderly_bind; [apply orderly_log|intros _].
    apply orderly_errexit, orderly_external. }
  apply orderly_bind; [|intros _; apply orderly_ret].
  unfold push_stage.
  apply orderly_bind; [apply orderly_log|intros _].
  apply orderly_bind; [apply orderly_push_all|intros _].
  apply orderly_bind; [apply orderly_log|intros _].
  apply orderly_echo_all.
Qed.

(** Up to the pushes the script ends with status 0 only to print its
    usage. *)
Lemma local_publish_exit argv0 args s c :
  fst (Local.publish H E argv0 args s) = Exit c -> c = 0%Z ->
  In "--help" args \/ In "-h" args.
Proof.
  unfold Local.publish.
  destruct (parse_args_cases argv0 (length args) args "" s (le_n _))
    as [_ Hexit].
  destruct (parse_args argv0 args "" s) as [[wf|c0] s1] eqn:Hp;
    cbn [fst snd] in Hexit.
  - rewrite (bind_next _ _ _ _ _ Hp).
    destruct (orderly_local_after_parsing wf s1) as [He _].
    intros Hc H0. exfalso. exact (He c Hc H0).
  - rewrite (bind_exit _ _ _ _ _ Hp). cbn [fst].
    intros Hc. injection Hc as <-. exact (Hexit c0 eq_refl).
Qed.

(** *** What a run that hands over has been through *)

Lemma refused_next {A} msg s (a : A) s1 :
  (Local.refused msg : Sh A) s = (Next a, s1) -> False.
Proof. discriminate. Qed.

Lemma local_write_override_next repo TAG s SERVICES s1 :
  Local.write_override H E repo TAG s = (Next SERVICES, s1) ->
  Local.open_error H OVERRIDE_FILE = None.
Proof.
  unfold Local.write_override. intros Hrun.
  do 6 (apply bind_next_inv in Hrun as (? & ? & _ & Hrun)).
  apply bind_next_inv in Hrun as ([] & ? & Hwrite & _).
  unfold Local.write_to in Hwrite.
  destruct (Local.open_error H OVERRIDE_FILE); [discriminate|reflexivity].
Qed.

(** A run that gets to the workflow step has written the override, and
    has it still. *)
Lemma local_publish_next argv0 args s r s1 :
  Local.publish H E argv0 args s = (Next r, s1) ->
  Local.open_error H OVERRIDE_FILE = None
  /\ publish E argv0 args s = (Next r, s1).
Proof.
  intros Hrun.
  assert (Ho : Local.open_error H OVERRIDE_FILE = None).
  { unfold Local.publish in Hrun.
    do 5 (apply bind_next_inv in Hrun as (? & ? & _ & Hrun)).
    apply bind_next_inv in Hrun as (? & ? & Hw & _).
    exact (local_write_override_next _ _ _ _ _ Hw). }
  split; [exact Ho|]. rewrite <- (publish_willing argv0 args s Ho).
  exact Hrun.
Qed.

End Host.

(** *** The override outlives every step but its removal *)

#[global] Instance keeps_override_preorder : PreOrder keeps_override.
Proof. split; unfold keeps_override; [intros s|intros a b c]; auto. Qed.

Lemma keeps_same_files {A} (m : Sh A) :
  (forall s, fs (snd (m s)) = fs s) -> preserves keeps_override m.
Proof. intros Hm s. unfold keeps_override. rewrite Hm. auto. Qed.

Lemma keeps_emit e : preserves keeps_override (emit e).
Proof. apply keeps_same_files. reflexivity. Qed.

Lemma keeps_log msg : preserves keeps_override (log msg).
Proof. unfold log. frame preserves_then; apply keeps_emit. Qed.

Lemma keeps_err msg : preserves keeps_override (err msg).
Proof. unfold err. frame preserves_then; apply keeps_emit. Qed.

Lemma keeps_echo_all ls : preserves keeps_override (echo_all ls).
Proof.
  induction ls as [|l ls IH]; cbn [echo_all]; [frame preserves_ret|].
  frame preserves_then; [apply keeps_emit|exact IH].
Qed.

Lemma keeps_external loud c st : preserves keeps_override (external loud c st).
Proof. frame preserves_external; apply keeps_emit. Qed.

Lemma keeps_command loud c st :
  preserves keeps_override (errexit (external loud c st)).
Proof. frame preserves_errexit. apply keeps_external. Qed.

Section Steps.
Variable H : Local.Host.
Variable E : Env.

Lemma keeps_push_all images : preserves keeps_override (push_all E images).
Proof.
  induction images as [|x images IH]; cbn [push_all]; [frame preserves_ret|].
  frame preserves_then; [apply keeps_log|].
  frame preserves_then; [apply keeps_command|exact IH].
Qed.

(** Build, login and pushes. *)
Lemma keeps_delivery repo TAG SERVICES (r : string * string) :
  preserves keeps_override
    (docker_build E;; docker_login E;; push_stage E repo TAG SERVICES;;
     (mret r : Sh (string * string))).
Proof.
  unfold docker_build, docker_login, push_stage.
  repeat first [apply keeps_log | apply keeps_command | apply keeps_push_all
               | apply keeps_echo_all
               | frame preserves_ret
               | frame preserves_then ].
Qed.

Lemma keeps_sed bsd TAG WF :
  preserves keeps_override (Local.sed_in_place H E bsd TAG WF).
Proof.
  unfold Local.sed_in_place. destruct (Local.leading_hyphen WF).
  - intros s. unfold keeps_override. sh_simpl.
    destruct (negb _); cbn [fs snd]; intros Hs;
      apply lookup_union_is_Some; right; exact Hs.
  - destruct (Local.rewrite_status H WF =? 0)%Z; [|apply keeps_external].
    intros s. unfold keeps_override, sed_in_place. sh_simpl.
    destruct (fs s !! WF) as [content|] eqn:Hfile; sh_simpl; [|auto].
    destruct (sed_safe TAG); cbn [fst snd].
    + sh_simpl. intros Hs. apply lookup_insert_is_Some'. right. exact Hs.
    + destruct (fst (sed_special E TAG content) =? 0)%Z eqn:Hst; sh_cases;
        destruct (_ =? 0)%Z; cbn [fs snd]; auto;
        intros Hs; apply lookup_insert_is_Some'; right; exact Hs.
Qed.

Lemma keeps_update_workflow WF TAG :
  preserves keeps_override (Local.update_workflow H E WF TAG).
Proof.
  unfold Local.update_workflow.
  destruct (Text.is_null WF); cbn [negb]; [apply keeps_log|].
  intros s. unfold mbind at 1, Sh_bind, bind at 1, get. cbn [fst snd].
  destruct (fs s !! WF) as [content|]; [|apply keeps_err].
  destruct (Local.grep_finds H WF content).
  - revert s. frame preserves_then; [apply keeps_log|].
    frame preserves_then; [|apply keeps_log].
    destruct (gnu_sed E); frame preserves_errexit; apply keeps_sed.
  - revert s. repeat (frame preserves_then; [apply keeps_log|]).
    apply keeps_echo_all.
Qed.

End Steps.

(** *** A step that ends the script does so with a status that is not 0 *)

Lemma nz_bind {A B} (m : Sh A) (k : A -> Sh B) :
  exits_nonzero m -> (forall a, exits_nonzero (k a)) ->
  exits_nonzero (m ≫= k).
Proof.
  intros Hm Hk s c. unfold mbind, Sh_bind, bind. specialize (Hm s).
  destruct (m s) as [[a|c0] s1]; cbn [fst] in *; [apply Hk|].
  intros Hc. injection Hc as <-. exact (Hm c0 eq_refl).
Qed.

Lemma nz_emit e : exits_nonzero (emit e).
Proof. intros s c. discriminate. Qed.

Lemma nz_log msg : exits_nonzero (log msg).
Proof. unfold log. apply nz_bind; intros; apply nz_emit. Qed.

Lemma nz_err msg : exits_nonzero (err msg).
Proof. unfold err. apply nz_bind; intros; apply nz_emit. Qed.

Lemma nz_echo_all ls : exits_nonzero (echo_all ls).
Proof.
  induction ls as [|l ls IH]; cbn [echo_all]; [discriminate|].
  apply nz_bind; [apply nz_emit|intros _; exact IH].
Qed.

Lemma nz_errexit m : exits_nonzero m -> exits_nonzero (errexit m).
Proof.
  intros Hm. unfold errexit. apply nz_bind; [exact Hm|]. intros st s c.
  destruct (Z.eqb_spec st 0); cbn; [discriminate|].
  intros Hc. injection Hc as <-. assumption.
Qed.

Lemma nz_external loud c st : exits_nonzero (external loud c st).
Proof.
  unfold external. apply nz_bind; [apply nz_emit|intros _].
  apply nz_bind; [|discriminate].
  destruct (loud && negb (st =? 0)%Z); [apply nz_emit|discriminate].
Qed.

Lemma nz_sed H E bsd TAG WF : exits_nonzero (Local.sed_in_place H E bsd TAG WF).
Proof.
  unfold Local.sed_in_place, sed_in_place.
  destruct (Local.leading_hyphen WF).
  - apply nz_bind; [discriminate|intros s0].
    apply nz_bind; [discriminate|intros _]. apply nz_external.
  - destruct (Local.rewrite_status H WF =? 0)%Z; [|apply nz_external].
    apply nz_bind; [discriminate|intros s0].
    destruct (fs s0 !! WF); [|apply nz_external].
    apply nz_bind; [|intros _; apply nz_external].
    destruct (_ =? 0)%Z; discriminate.
Qed.

Section Run.
Variable H : Local.Host.
Variable E : Env.

(** What follows the pushes: the workflow step and the removal. *)
Lemma aborted_tail_keeps_override (P : Sh (string * string)) s :
  preserves keeps_override P ->
  is_Some (fs s !! OVERRIDE_FILE) ->
  fst (run (r ← P; Local.update_workflow H E (fst r) (snd r);;
            Local.cleanup H (snd r)) s) <> 0%Z ->
  is_Some (fs (snd (run (r ← P; Local.update_workflow H E (fst r) (snd r);;
                         Local.cleanup H (snd r)) s)) !! OVERRIDE_FILE).
Proof.
  intros HP Hs. unfold run. specialize (HP s).
  destruct (P s) as [[r|c] s1] eqn:Hp; cbn [snd] in HP.
  2:{ rewrite (bind_exit _ _ _ _ _ Hp). intros _. apply HP, Hs. }
  rewrite (bind_next _ _ _ _ _ Hp).
  pose proof (keeps_update_workflow H E (fst r) (snd r) s1) as Hu.
  destruct (Local.update_workflow H E (fst r) (snd r) s1) as [[[]|c] s2] eqn:Hw;
    cbn [snd] in Hu.
  2:{ rewrite (bind_exit _ _ _ _ _ Hw). intros _. apply Hu, HP, Hs. }
  rewrite (bind_next _ _ _ _ _ Hw).
  unfold Local.cleanup, Local.remove.
  destruct (Local.rm_error H OVERRIDE_FILE) as [msg|]; sh_simpl.
  - intros _. apply Hu, HP, Hs.
  - intros Hne. congruence.
Qed.

(** A run that gets as far as writing the override has it when the build
    starts. *)
Lemma reaches_the_build argv0 ps s :
  writes_the_override H E ->
  exists s6,
    is_Some (fs s6 !! OVERRIDE_FILE)
    /\ Local.build_and_push H E argv0 (workflow_options ps) s
       = (r ← (docker_build E;; docker_login E;;
               push_stage E (or_empty (DOCKERHUB_REPO E)) (preferred_tag E)
                 (Text.strip_trailing_newlines (snd (config_services E)));;
               (mret (List.last ps "", preferred_tag E)
                 : Sh (string * string)));
          Local.update_workflow H E (fst r) (snd r);;
          Local.cleanup H (snd r)) s6.
Proof.
  intros (Hrepo & Huser & Htoken & Htag & Hst & Hnull & Ho).
  assert (Hparse : parse_args argv0 (workflow_options ps) "" s
                   = (Next (List.last ps ""), s)).
  { rewrite <- (app_nil_r (workflow_options ps)).
    rewrite Admission.parse_workflow_options. reflexivity. }
  destruct (validate_env_run E (fs s) Hrepo Huser Htoken s eq_refl)
    as (s2 & Hv & _ & _).
  destruct (resolve_tag_run E (fs s2) Htag s2 eq_refl) as (s3 & Ht & _ & _).
  destruct (hands_over_log
              ("Using Docker Hub repo: " +:+ or_empty (DOCKERHUB_REPO E))
              (fs s3) s3 eq_refl) as (s4 & Hl1 & _ & _).
  destruct (hands_over_log ("Computed tag: " +:+ preferred_tag E)
              (fs s4) s4 eq_refl) as (s5 & Hl2 & _ & _).
  destruct (write_override_run E (or_empty (DOCKERHUB_REPO E))
              (preferred_tag E) (fs s5) Hst Hnull s5 eq_refl)
    as (s6 & Hw & _ & Hf6).
  rewrite <- (write_override_willing H E _ _ s5 Ho) in Hw.
  exists s6. split.
  { rewrite Hf6. apply lookup_insert_is_Some'. left. reflexivity. }
  unfold Local.build_and_push, Local.publish. cbv zeta.
  rewrite bind_assoc_at, (bind_next _ _ _ _ _ Hparse).
  rewrite bind_assoc_at, (bind_next _ _ _ _ _ Hv).
  rewrite bind_assoc_at, (bind_next _ _ _ _ _ Ht).
  rewrite bind_assoc_at, (bind_next _ _ _ _ _ Hl1).
  rewrite bind_assoc_at, (bind_next _ _ _ _ _ Hl2).
  rewrite bind_assoc_at, (bind_next _ _ _ _ _ Hw).
  reflexivity.
Qed.

(** The workflow step ends the script only through a failing sed. *)
Lemma local_update_workflow_exit WF TAG :
  exits_nonzero (Local.update_workflow H E WF TAG).
Proof.
  unfold Local.update_workflow. destruct (Text.is_null WF); cbn [negb];
    [apply nz_log|].
  apply nz_bind; [discriminate|intros s0].
  destruct (fs s0 !! WF) as [content|]; [|apply nz_err].
  destruct (Local.grep_finds H WF content).
  - apply nz_bind; [apply nz_log|intros _].
    apply nz_bind; [|intros _; apply nz_log].
    destruct (gnu_sed E); apply nz_errexit, nz_sed.
  - repeat (apply nz_bind; [apply nz_log|intros _]). apply nz_echo_all.
Qed.

End Run.


(** X18: the tagging override of a run.  Whatever the file held before,
    once the services are listed and where the host lets the file be
    written, it holds the header followed by one entry per service, in
    the order of the listing: for a listing counted as one line, what
    [echo] and [tr -d] leave of it, with the reference repo:tag;
    otherwise each word of the listing with its own reference.  The
    references written are the references that the push stage pushes. *)
Theorem the_override_names_what_is_pushed H E repo TAG s :
  fst (config_services E) = 0%Z ->
  Text.is_null (Text.strip_trailing_newlines (snd (config_services E)))
  = false ->
  Local.open_error H OVERRIDE_FILE = None ->
  fst (Local.write_override H E repo TAG s)
  = Next (Text.strip_trailing_newlines (snd (config_services E)))
  /\ fs (snd (Local.write_override H E repo TAG s))
     = <[OVERRIDE_FILE :=
           override_text repo TAG
             (Text.strip_trailing_newlines (snd (config_services E)))]> (fs s)
  /\ map snd (tagged_services repo TAG
                (Text.strip_trailing_newlines (snd (config_services E))))
     = image_names repo TAG
         (Text.strip_trailing_newlines (snd (config_services E))).
Proof.
  intros Hst Hnull Ho. rewrite (write_override_willing H E repo TAG s Ho).
  exact (write_override_result E repo TAG s Hst Hnull).
Qed.

(** X19: the Image Publisher run without arguments.  It ends with
    status 0 exactly when nothing fails: the coordinate and the
    credentials are given, the tag can be resolved, the manifest lists at
    least one service, the build, the login and every push succeed, and
    the host lets the tagging override be written and removed.  It has
    then run, in this order: the git commands behind the tag, the
    listing of the services, the build with the tagging override, the
    login, and one push per image reference; at its end the tagging
    override is gone and the other files are as they were. *)
Theorem the_publisher_succeeds_exactly_when H E argv0 s :
  (fst (run (Local.build_and_push H E argv0 []) s) = 0%Z
   <-> sound_run E
       /\ Local.open_error H OVERRIDE_FILE = None
       /\ Local.rm_error H OVERRIDE_FILE = None)
  /\ (sound_run E ->
      Local.open_error H OVERRIDE_FILE = None ->
      Local.rm_error H OVERRIDE_FILE = None ->
      commands (trace (snd (run (Local.build_and_push H E argv0 []) s)))
      = commands (trace s) ++ tag_commands E
        ++ [ComposeConfigServices; ComposeBuild OVERRIDE_FILE;
            DockerLogin (or_empty (DOCKERHUB_USERNAME E))]
        ++ map DockerPush
             (image_names (or_empty (DOCKERHUB_REPO E)) (preferred_tag E)
                (Text.strip_trailing_newlines (snd (config_services E))))
      /\ fs (snd (run (Local.build_and_push H E argv0 []) s))
         = delete OVERRIDE_FILE (fs s)).
Proof.
  assert (Hwilling : Local.open_error H OVERRIDE_FILE = None ->
                     Local.rm_error H OVERRIDE_FILE = None ->
                     run (Local.build_and_push H E argv0 []) s
                     = run (build_and_push E argv0 []) s).
  { intros Ho Hr. apply run_ext. unfold Local.build_and_push, build_and_push.
    apply bind_ext_at; [apply publish_willing, Ho|].
    intros r s1 Hp. rewrite (cleanup_willing H (snd r) Hr).
    apply local_publish_next in Hp as [_ Hp]. unfold publish in Hp.
    apply bind_next_inv in Hp as (wf & s2 & Hparse & Hp).
    do 8 (apply bind_next_inv in Hp as (? & ? & _ & Hp)).
    injection Hparse as <- _. injection Hp as <- _. reflexivity. }
  destruct (sound_run_exit_status E argv0 s) as [Hiff Heffects].
  split; [split|].
  - intros Hzero.
    assert (Hboth : Local.open_error H OVERRIDE_FILE = None
                    /\ Local.rm_error H OVERRIDE_FILE = None).
    { unfold run, Local.build_and_push in Hzero.
      pose proof (local_publish_exit H E argv0 [] s) as Hexit.
      destruct (Local.publish H E argv0 [] s) as [[r|c] s1] eqn:Hp;
        cbn [fst] in Hexit.
      - destruct (local_publish_next H E argv0 [] s r s1 Hp) as [Ho _].
        split; [exact Ho|].
        rewrite (bind_next _ _ _ _ _ Hp) in Hzero.
        pose proof (local_update_workflow_exit H E (fst r) (snd r) s1) as Hwf.
        unfold exits_nonzero in Hwf.
        destruct (Local.update_workflow H E (fst r) (snd r) s1)
          as [[[]|c] s2] eqn:Hu; cbn [fst] in Hwf.
        + rewrite (bind_next _ _ _ _ _ Hu) in Hzero.
          unfold Local.cleanup, Local.remove in Hzero.
          destruct (Local.rm_error H OVERRIDE_FILE); [|reflexivity].
          revert Hzero. sh_simpl. discriminate.
        + rewrite (bind_exit _ _ _ _ _ Hu) in Hzero. cbn [fst] in Hzero.
          exfalso. exact (Hwf c eq_refl Hzero).
      - rewrite (bind_exit _ _ _ _ _ Hp) in Hzero. cbn [fst] in Hzero.
        destruct (Hexit c eq_refl Hzero) as [[]|[]]. }
    destruct Hboth as [Ho Hr]. rewrite (Hwilling Ho Hr) in Hzero.
    split; [apply Hiff, Hzero|auto].
  - intros (Hsound & Ho & Hr). rewrite (Hwilling Ho Hr). apply Hiff, Hsound.
  - intros Hsound Ho Hr. rewrite (Hwilling Ho Hr). apply Heffects, Hsound.
Qed.




(** The override of the two-service manifest. *)
Lemma the_override_of_two_services :
  fst (Local.write_override Examples.willing_host Examples.two_services
         "rajibsalui/my-express-server" "9fceb02" Examples.checkout)
  = Next (Text.strip_trailing_newlines
            (snd (config_services Examples.two_services)))
  /\ fs (snd (Local.write_override Examples.willing_host Examples.two_services
                 "rajibsalui/my-express-server" "9fceb02" Examples.checkout))
     = <[OVERRIDE_FILE :=
           override_text "rajibsalui/my-express-server" "9fceb02"
             (Text.strip_trailing_newlines
                (snd (config_services Examples.two_services)))]>
         (fs Examples.checkout)
  /\ map snd (tagged_services "rajibsalui/my-express-server" "9fceb02"
                (Text.strip_trailing_newlines
                   (snd (config_services Examples.two_services))))
     = image_names "rajibsalui/my-express-server" "9fceb02"
         (Text.strip_trailing_newlines
            (snd (config_services Examples.two_services))).
Proof.
  apply (the_override_names_what_is_pushed Examples.willing_host
           Examples.two_services "rajibsalui/my-express-server" "9fceb02"
           Examples.checkout); reflexivity.
Defined.

Lemma two_services_sound : sound_run Examples.two_services.
Proof. repeat split. Qed.

(** A local run on the two-service manifest: it succeeds on a host that
    refuses nothing, and pushes the two images. *)
Lemma a_sound_local_run :
  fst (run (Local.build_and_push Examples.willing_host Examples.two_services
              "./build-and-push.sh" []) Examples.checkout) = 0%Z
  /\ commands
       (trace (snd (run (Local.build_and_push Examples.willing_host
                           Examples.two_services "./build-and-push.sh" [])
                        Examples.checkout)))
     = commands (trace Examples.checkout)
       ++ tag_commands Examples.two_services
       ++ [ComposeConfigServices; ComposeBuild OVERRIDE_FILE;
           DockerLogin (or_empty (DOCKERHUB_USERNAME Examples.two_services))]
       ++ map DockerPush
            (image_names (or_empty (DOCKERHUB_REPO Examples.two_services))
               (preferred_tag Examples.two_services)
               (Text.strip_trailing_newlines
                  (snd (config_services Examples.two_services))))
  /\ fs (snd (run (Local.build_and_push Examples.willing_host
                     Examples.two_services "./build-and-push.sh" [])
                  Examples.checkout))
     = delete OVERRIDE_FILE (fs Examples.checkout).
Proof.
  split.
  - apply (proj1 (the_publisher_succeeds_exactly_when Examples.willing_host
                    Examples.two_services "./build-and-push.sh"
                    Examples.checkout)).
    split; [exact two_services_sound|split; reflexivity].
  - apply (proj2 (the_publisher_succeeds_exactly_when Examples.willing_host
                    Examples.two_services "./build-and-push.sh"
                    Examples.checkout));
      [exact two_services_sound|reflexivity|reflexivity].
Defined.



End LocalPublishing.
